(** * MCP DevOps Plan server: a verification model of [src/lib/server.js]

    The server is a set of MCP tool handlers, each a straight-line sequence
    of [fetch] calls against the Plan REST API wrapped in one [try]/[catch].
    The model below keeps that shape: a handler is a computation in a small
    state-and-exception monad over a world that holds the module-level
    [globalCookies] variable, the trace of requests issued so far and the
    script of answers the network will give. Console output has no part
    in what a handler returns or sends and is left out. *)

From Stdlib Require Import List NArith Bool Ascii String DecimalString Lia.
Import ListNotations.

Local Set Warnings "-register-all".
Local Open Scope N_scope.
Local Open Scope list_scope.

(** ** JavaScript strings

    A JavaScript string is a sequence of UTF-16 code units. *)

Definition jsstring := list N.

(** [js "abc"] is the string literal ['abc'] of the source. *)
Definition js (s : string) : jsstring :=
  map N_of_ascii (list_ascii_of_string s).

Definition str_eqb (a b : jsstring) : bool :=
  if list_eq_dec N.eq_dec a b then true else false.

(** WhiteSpace and LineTerminator code units of ECMAScript, the ones
    [String.prototype.trim] removes. *)
Definition is_whitespace (c : N) : bool :=
  (c =? 9) || (c =? 10) || (c =? 11) || (c =? 12) || (c =? 13) || (c =? 32)
  || (c =? 160) || (c =? 5760) || ((8192 <=? c) && (c <=? 8202))
  || (c =? 8232) || (c =? 8233) || (c =? 8239) || (c =? 8287)
  || (c =? 12288) || (c =? 65279).

Fixpoint trim_start (s : jsstring) : jsstring :=
  match s with
  | [] => []
  | c :: s' => if is_whitespace c then trim_start s' else s
  end.

(** [s.trim()] *)
Definition trim (s : jsstring) : jsstring :=
  rev (trim_start (rev (trim_start s))).

(** [s.split(sep)] for a one-character separator: never the empty list. *)
Fixpoint split (sep : N) (s : jsstring) : list jsstring :=
  match s with
  | [] => [[]]
  | c :: s' =>
      if c =? sep then [] :: split sep s'
      else match split sep s' with
           | [] => [[c]]
           | p :: ps => (c :: p) :: ps
           end
  end.

(** [parts.join(sep)] on an array of strings. *)
Fixpoint join (sep : jsstring) (parts : list jsstring) : jsstring :=
  match parts with
  | [] => []
  | [p] => p
  | p :: ps => p ++ sep ++ join sep ps
  end.

Fixpoint starts_with (needle hay : jsstring) : bool :=
  match needle, hay with
  | [], _ => true
  | _ :: _, [] => false
  | a :: n', b :: h' => (a =? b) && starts_with n' h'
  end.

(** [hay.includes(needle)] *)
Fixpoint includes (needle hay : jsstring) : bool :=
  starts_with needle hay ||
  match hay with
  | [] => false
  | _ :: h' => includes needle h'
  end.

(** Decimal rendering of a non-negative integer, as a template literal
    prints a status code or a length. *)
Definition N_to_dec (n : N) : jsstring :=
  js (NilEmpty.string_of_uint (N.to_uint n)).

Definition comma : N := 44.
Definition newline : N := 10.
Definition dquote : N := 34.

(** ** JavaScript values

    What [response.json()] yields and what the handlers build from it.
    A number is held as the text [Number.prototype.toString] gives for it
    (the handlers only test numbers for truthiness and print them).
    [VBuiltin] is a built-in method reached through a prototype, such as
    [values] on an array; parsed JSON holds neither it nor [VUndef]. *)

Inductive JSval : Type :=
| VUndef
| VNull
| VBool (b : bool)
| VNum (repr : jsstring)
| VStr (s : jsstring)
| VArr (items : list JSval)
| VObj (props : list (jsstring * JSval))
| VBuiltin (name : jsstring).

(** Faults the engine itself raises (all are [TypeError]s). *)
Inductive EngineFault : Type :=
| ReadOfNullish (base : JSval) (prop : jsstring)
| NotAFunction (callee : jsstring)
| NotPrimitive.

(** A thrown value. Every value thrown in this program is an [Error]
    object; the handlers look at its [message] only. *)
Inductive Exn : Type :=
| ErrorObj (message : jsstring)
| TypeErr (fault : EngineFault).

Inductive Completion (A : Type) : Type :=
| Normal (a : A)
| Thrown (e : Exn).
Arguments Normal {A} a.
Arguments Thrown {A} e.

Definition cbind {A B} (c : Completion A) (f : A -> Completion B) : Completion B :=
  match c with
  | Normal a => f a
  | Thrown e => Thrown e
  end.

(** ToBoolean *)
Definition truthy (v : JSval) : bool :=
  match v with
  | VUndef | VNull => false
  | VBool b => b
  | VNum r => negb (str_eqb r (js "0"))
  | VStr s => match s with [] => false | _ => true end
  | VArr _ | VObj _ | VBuiltin _ => true
  end.

Fixpoint lookup (k : jsstring) (props : list (jsstring * JSval)) : JSval :=
  match props with
  | [] => VUndef
  | (k', v) :: rest => if str_eqb k k' then v else lookup k rest
  end.

Definition has_key (k : jsstring) (props : list (jsstring * JSval)) : bool :=
  existsb (fun kv => str_eqb k (fst kv)) props.

Definition is_digit (c : N) : bool := (48 <=? c) && (c <=? 57).

Fixpoint digits_value (acc : N) (s : jsstring) : option N :=
  match s with
  | [] => Some acc
  | c :: s' => if is_digit c then digits_value (10 * acc + (c - 48)) s' else None
  end.

(** The array index a property key denotes, if it is one: a canonical
    decimal numeral below 2^32 - 1. *)
Definition array_index (k : jsstring) : option N :=
  match k with
  | [] => None
  | [48] => Some 0
  | 48 :: _ => None
  | _ => match digits_value 0 k with
         | Some n => if n <? 4294967295 then Some n else None
         | None => None
         end
  end.

(** Methods an array inherits, among them the one name the handlers read
    as if it were data ([row.values]). *)
Definition array_builtins : list jsstring :=
  map js ["values"; "keys"; "entries"; "map"; "forEach"; "find"; "flat";
          "join"; "some"; "push"; "includes"; "toString"; "constructor"]%string.

(** [v.k] and [v[k]]: reading a property of a parsed value. The handlers
    read [result_set_id], [rows], [displayName], [dbId], [viewURL], [name],
    [values], [actions], the [action...] names, [length] and the index [2];
    of these only [length] and [values] exist on anything but a parsed
    object. *)
Definition get_prop (v : JSval) (k : jsstring) : Completion JSval :=
  match v with
  | VUndef | VNull => Thrown (TypeErr (ReadOfNullish v k))
  | VObj props => Normal (lookup k props)
  | VArr items =>
      if str_eqb k (js "length") then Normal (VNum (N_to_dec (N.of_nat (List.length items))))
      else match array_index k with
           | Some i => Normal (nth (N.to_nat i) items VUndef)
           | None => if existsb (str_eqb k) array_builtins
                     then Normal (VBuiltin k) else Normal VUndef
           end
  | VStr s =>
      if str_eqb k (js "length") then Normal (VNum (N_to_dec (N.of_nat (List.length s))))
      else match array_index k with
           | Some i => Normal (match nth_error s (N.to_nat i) with
                               | Some c => VStr [c]
                               | None => VUndef
                               end)
           | None => Normal VUndef
           end
  | VBool _ | VNum _ | VBuiltin _ => Normal VUndef
  end.

(** ToString, as a template literal applies it. An object answers
    ["[object Object]"] unless an own [toString] property shadows the
    inherited method, in which case the conversion throws. *)
Fixpoint to_string (v : JSval) : Completion jsstring :=
  match v with
  | VUndef => Normal (js "undefined")
  | VNull => Normal (js "null")
  | VBool true => Normal (js "true")
  | VBool false => Normal (js "false")
  | VNum r => Normal r
  | VStr s => Normal s
  | VArr items =>
      (fix join_items (l : list JSval) : Completion jsstring :=
         match l with
         | [] => Normal []
         | x :: rest =>
             cbind (match x with
                    | VUndef | VNull => Normal []
                    | _ => to_string x
                    end)
               (fun a =>
                  match rest with
                  | [] => Normal a
                  | _ => cbind (join_items rest)
                           (fun b => Normal (a ++ comma :: b))
                  end)
         end) items
  | VObj props =>
      if has_key (js "toString") props then Thrown (TypeErr NotPrimitive)
      else Normal (js "[object Object]")
  | VBuiltin name =>
      Normal (js "function " ++ name ++ js "() { [native code] }")
  end.

(** *** [JSON.stringify] *)

Definition hex_digit (n : N) : N := if n <? 10 then 48 + n else 87 + n.

Definition u_escape (c : N) : jsstring :=
  [92; 117; hex_digit ((c / 4096) mod 16); hex_digit ((c / 256) mod 16);
   hex_digit ((c / 16) mod 16); hex_digit (c mod 16)].

Definition is_high_surrogate (c : N) : bool := (55296 <=? c) && (c <=? 56319).
Definition is_low_surrogate (c : N) : bool := (56320 <=? c) && (c <=? 57343).

Definition escape_unit (c : N) : jsstring :=
  if c =? 8 then js "\b"
  else if c =? 9 then js "\t"
  else if c =? 10 then js "\n"
  else if c =? 12 then js "\f"
  else if c =? 13 then js "\r"
  else if c =? 34 then [92; 34]
  else if c =? 92 then [92; 92]
  else if c <? 32 then u_escape c
  else if is_low_surrogate c then u_escape c
  else [c].

Fixpoint quote_body (s : jsstring) : jsstring :=
  match s with
  | [] => []
  | c :: s' =>
      if is_high_surrogate c then
        match s' with
        | d :: s'' =>
            if is_low_surrogate d then c :: d :: quote_body s''
            else u_escape c ++ quote_body s'
        | [] => u_escape c
        end
      else escape_unit c ++ quote_body s'
  end.

(** QuoteJSONString *)
Definition quote (s : jsstring) : jsstring :=
  dquote :: quote_body s ++ [dquote].

Definition wrap (opening closing : N) (gap stepback indent : jsstring)
    (parts : list jsstring) : jsstring :=
  match parts with
  | [] => [opening; closing]
  | _ =>
      match gap with
      | [] => opening :: join [comma] parts ++ [closing]
      | _ => opening :: newline :: indent
             ++ join (comma :: newline :: indent) parts
             ++ newline :: stepback ++ [closing]
      end
  end.

(** SerializeJSONProperty; [None] is [undefined]. *)
Fixpoint serialize (gap indent : jsstring) (v : JSval) : option jsstring :=
  match v with
  | VUndef | VBuiltin _ => None
  | VNull => Some (js "null")
  | VBool true => Some (js "true")
  | VBool false => Some (js "false")
  | VNum r => Some r
  | VStr s => Some (quote s)
  | VArr items =>
      let inner := indent ++ gap in
      Some (wrap 91 93 gap indent inner
              (map (fun x => match serialize gap inner x with
                             | Some t => t
                             | None => js "null"
                             end) items))
  | VObj props =>
      let inner := indent ++ gap in
      Some (wrap 123 125 gap indent inner
              ((fix members (l : list (jsstring * JSval)) : list jsstring :=
                  match l with
                  | [] => []
                  | (k, x) :: rest =>
                      match serialize gap inner x with
                      | Some t =>
                          (quote k ++ 58 :: match gap with
                                            | [] => t
                                            | _ => 32 :: t
                                            end) :: members rest
                      | None => members rest
                      end
                  end) props))
  end.

(** [JSON.stringify(v)] and [JSON.stringify(v, null, 2)] *)
Definition JSON_stringify (v : JSval) : option jsstring := serialize [] [] v.
Definition JSON_stringify_pretty (v : JSval) : option jsstring :=
  serialize (js "  ") [] v.

(** [`${JSON.stringify(v)}`] *)
Definition show_json (r : option jsstring) : jsstring :=
  match r with
  | Some t => t
  | None => js "undefined"
  end.

(** ** The network and the world *)

Inductive Method : Type := GET | POST | PATCH | DELETE.

(** The argument of one [fetch] call. *)
Record Request : Type := mkRequest {
  method : Method;
  url : jsstring;
  headers : list (jsstring * jsstring);
  credentials : option jsstring;
  body : option jsstring
}.

(** What the handlers read of a [Response]. [body_text] and [body_json]
    are the outcomes of [response.text()] and [response.json()], either of
    which may reject. *)
Record Response : Type := mkResponse {
  status : N;
  statusText : jsstring;
  set_cookie : option jsstring;
  body_text : Completion jsstring;
  body_json : Completion JSval
}.

(** [response.ok] *)
Definition ok (r : Response) : bool := (200 <=? status r) && (status r <=? 299).

(** How the network settles one [fetch]. *)
Inductive Answer : Type :=
| Responds (r : Response)
| Rejects (message : jsstring).

Inductive Event : Type :=
| Http (r : Request)
| Sleep (ms : N).

(** [globalCookies] is the module-level variable ([None] is [null]);
    [trace] lists what the process has issued, oldest first; [network] is
    the script of answers still to come, one per [fetch]. *)
Record World : Type := mkWorld {
  globalCookies : option jsstring;
  trace : list Event;
  network : list Answer
}.

(** ** Handlers as computations *)

Definition M (A : Type) : Type := World -> Completion A * World.

Definition ret {A} (a : A) : M A := fun w => (Normal a, w).

Definition throw {A} (e : Exn) : M A := fun w => (Thrown e, w).

Definition bind {A B} (m : M A) (f : A -> M B) : M B :=
  fun w => match m w with
           | (Normal a, w') => f a w'
           | (Thrown e, w') => (Thrown e, w')
           end.

(** [try { body } catch (e) { handler }] *)
Definition try_catch {A} (body : M A) (handler : Exn -> M A) : M A :=
  fun w => match body w with
           | (Normal a, w') => (Normal a, w')
           | (Thrown e, w') => handler e w'
           end.

Definition lift {A} (c : Completion A) : M A := fun w => (c, w).

Declare Scope js_scope.
Delimit Scope js_scope with js.
Notation "x <- c1 ;; c2" := (bind c1 (fun x => c2))
  (at level 61, c1 at next level, right associativity) : js_scope.
Notation "c1 ;; c2" := (bind c1 (fun _ => c2))
  (at level 61, right associativity) : js_scope.
Local Open Scope js_scope.

Definition read_cookies : M (option jsstring) :=
  fun w => (Normal (globalCookies w), w).

Definition write_cookies (c : option jsstring) : M unit :=
  fun w => (Normal tt, mkWorld c (trace w) (network w)).

Definition emit (ev : Event) : M unit :=
  fun w => (Normal tt, mkWorld (globalCookies w) (trace w ++ [ev]) (network w)).

(** The message [fetch] rejects with when nothing answers. *)
Definition fetch_failed : jsstring := js "fetch failed".

(** [await fetch(url, init)]: the request goes out, then the network
    settles it. *)
Definition fetch (req : Request) : M Response :=
  emit (Http req) ;;
  fun w => match network w with
           | [] => (Thrown (ErrorObj fetch_failed), w)
           | Responds r :: rest =>
               (Normal r, mkWorld (globalCookies w) (trace w) rest)
           | Rejects msg :: rest =>
               (Thrown (ErrorObj msg), mkWorld (globalCookies w) (trace w) rest)
           end.

(** [await new Promise(resolve => setTimeout(resolve, ms))] *)
Definition sleep (ms : N) : M unit := emit (Sleep ms).

(** [!globalCookies], also [!cookies] for a header value. *)
Definition cookie_falsy (c : option jsstring) : bool :=
  match c with
  | None | Some [] => true
  | Some (_ :: _) => false
  end.

(** The value a handler returns to the MCP library. *)
Inductive ContentItem : Type :=
| TextItem (text : jsstring).

Inductive ToolReturn : Type :=
| RContent (content : list ContentItem)
| RError (error : jsstring)
| RUndefined.

(** [arr.map(f)] on a parsed value: only an array has the method. *)
Fixpoint map_completion {A B} (f : A -> Completion B) (l : list A)
    : Completion (list B) :=
  match l with
  | [] => Normal []
  | x :: rest =>
      cbind (f x) (fun y => cbind (map_completion f rest)
                              (fun ys => Normal (y :: ys)))
  end.

Definition call_map (callee : jsstring) (v : JSval)
    (f : JSval -> Completion JSval) : Completion (list JSval) :=
  match v with
  | VArr items => map_completion f items
  | _ => Thrown (TypeErr (NotAFunction callee))
  end.

(** [v && v.k] *)
Definition and_prop (v : JSval) (k : jsstring) : Completion JSval :=
  if truthy v then get_prop v k else Normal v.

Definition prop (k : string) (v : JSval) : jsstring * JSval := (js k, v).
Definition str (s : string) : JSval := VStr (js s).
Definition num (n : N) : JSval := VNum (N_to_dec n).

(** ** Start-up configuration *)

Module Startup.

(** The [config] object [getConfig] fills from the command line; [None]
    is a property that is [undefined]. *)
Record Parsed : Type := mkParsed {
  token : option jsstring;
  serverUrl : option jsstring;
  teamspaceId : option jsstring
}.

(** The three variables [getConfig] reads from [process.env]. *)
Record Env : Type := mkEnv {
  PLAN_ACCESS_TOKEN : option jsstring;
  PLAN_SERVER_URL : option jsstring;
  PLAN_TEAMSPACE_ID : option jsstring
}.

(** What [getConfig] returns. *)
Record Config : Type := mkConfig {
  personal_access_token_string : jsstring;
  serverURL : jsstring;
  teamspaceID : jsstring
}.

(** The body of the [switch (key)] for one [key] and [value = args[i + 1]],
    which is [undefined] past the end of [args]. *)
Definition assign (key : jsstring) (value : option jsstring) (config : Parsed)
    : Parsed :=
  if str_eqb key (js "--token")
  then mkParsed value (serverUrl config) (teamspaceId config)
  else if str_eqb key (js "--server-url")
  then mkParsed (token config) value (teamspaceId config)
  else if str_eqb key (js "--teamspace-id")
  then mkParsed (token config) (serverUrl config) value
  else config.

(** [for (let i = 0; i < args.length; i += 2)]: the arguments two at a
    time, a last odd one with no value. *)
Fixpoint scan (args : list jsstring) (config : Parsed) : Parsed :=
  match args with
  | [] => config
  | [key] => assign key None config
  | key :: value :: rest => scan rest (assign key (Some value) config)
  end.

(** [!x] for a string that may be [undefined]. *)
Definition falsy (x : option jsstring) : bool :=
  match x with
  | None | Some [] => true
  | Some (_ :: _) => false
  end.

(** [a || b] *)
Definition or_else (a b : option jsstring) : option jsstring :=
  if falsy a then b else a.

Definition token_required : jsstring :=
  js "Personal access token is required. Set PLAN_ACCESS_TOKEN environment variable or use --token argument.".
Definition url_required : jsstring :=
  js "Server URL is required. Set PLAN_SERVER_URL environment variable or use --server-url argument.".
Definition id_required : jsstring :=
  js "Teamspace ID is required. Set PLAN_TEAMSPACE_ID environment variable or use --teamspace-id argument.".

(** [getConfig()], with [args = process.argv.slice(2)]. *)
Definition getConfig (args : list jsstring) (env : Env) : Completion Config :=
  let config := scan args (mkParsed None None None) in
  let chosen_token := or_else (token config) (PLAN_ACCESS_TOKEN env) in
  let chosen_url := or_else (serverUrl config) (PLAN_SERVER_URL env) in
  let chosen_id := or_else (teamspaceId config) (PLAN_TEAMSPACE_ID env) in
  match chosen_token, chosen_url, chosen_id with
  | Some (a :: t), Some (b :: u), Some (c :: i) =>
      Normal (mkConfig (a :: t) (b :: u) (c :: i))
  | Some (_ :: _), Some (_ :: _), _ => Thrown (ErrorObj id_required)
  | Some (_ :: _), _, _ => Thrown (ErrorObj url_required)
  | _, _, _ => Thrown (ErrorObj token_required)
  end.

(** A command line made of flag-value pairs. *)
Definition command_line (pairs : list (jsstring * jsstring)) : list jsstring :=
  flat_map (fun p => [fst p; snd p]) pairs.

(** The three flags, and for each the property of [config] it sets, the
    environment variable that stands in for it and the field of the
    result it ends up in. *)
Definition flags : list jsstring :=
  [js "--token"; js "--server-url"; js "--teamspace-id"].

Definition parsed (flag : jsstring) (config : Parsed) : option jsstring :=
  if str_eqb flag (js "--token") then token config
  else if str_eqb flag (js "--server-url") then serverUrl config
  else teamspaceId config.

Definition variable (flag : jsstring) (env : Env) : option jsstring :=
  if str_eqb flag (js "--token") then PLAN_ACCESS_TOKEN env
  else if str_eqb flag (js "--server-url") then PLAN_SERVER_URL env
  else PLAN_TEAMSPACE_ID env.

Definition setting (flag : jsstring) (cfg : Config) : jsstring :=
  if str_eqb flag (js "--token") then personal_access_token_string cfg
  else if str_eqb flag (js "--server-url") then serverURL cfg
  else teamspaceID cfg.

(** The command lines that leave a flag without a usable value: it is
    not given, its last value is the empty string, or it comes last with
    no value after it. *)
Inductive unset (flag : jsstring) : list jsstring -> Prop :=
| not_given (pairs : list (jsstring * jsstring)) :
    (forall p, In p pairs -> fst p <> flag) ->
    unset flag (command_line pairs)
| given_empty (before after : list (jsstring * jsstring)) :
    (forall p, In p after -> fst p <> flag) ->
    unset flag (command_line (before ++ (flag, []) :: after))
| left_dangling (pairs : list (jsstring * jsstring)) :
    unset flag (command_line pairs ++ [flag]).

End Startup.

Section Server.

(** Configuration read at start-up by [getConfig], and the wording the
    engine gives its own [TypeError]s. *)
Variable serverURL : jsstring.
Variable teamspaceID : jsstring.
Variable personal_access_token_string : jsstring.
Variable engine_message : EngineFault -> jsstring.

(** [e.message] *)
Definition message (e : Exn) : jsstring :=
  match e with
  | ErrorObj m => m
  | TypeErr f => engine_message f
  end.

Definition Error (m : jsstring) : Exn := ErrorObj m.

Definition text (r : Response) : M jsstring := lift (body_text r).
Definition json (r : Response) : M JSval := lift (body_json r).

(** ** Session cookie *)

Definition cookie_url : jsstring :=
  serverURL ++ js "/ccmweb/rest/analytics/serverurl".

Definition getCookiesFromServer : M (option jsstring) :=
  try_catch
    (response <- fetch (mkRequest GET cookie_url [] (Some (js "include")) None) ;;
     if negb (ok response) then ret None
     else
       let cookies := set_cookie response in
       if cookie_falsy cookies then ret None
       else write_cookies cookies ;; ret cookies)
    (fun _ => ret None).

(** The block every handler opens with: reuse [globalCookies] or fetch
    them, and leave with [{ error: ... }] when none can be had. *)
Definition with_session (rest : M ToolReturn) : M ToolReturn :=
  cached <- read_cookies ;;
  if cookie_falsy cached then
    fetched <- getCookiesFromServer ;;
    write_cookies fetched ;;
    if cookie_falsy fetched then ret (RError (js "Failed to retrieve cookies."))
    else rest
  else rest.

(** ** Requests against the repository API *)

(** [`${serverURL}/ccmweb/rest/repos/${teamspaceID}/databases...`] *)
Definition api (tail : jsstring) : jsstring :=
  serverURL ++ js "/ccmweb/rest/repos/" ++ teamspaceID ++ js "/databases" ++ tail.

(** The header object of the API calls; [accept] is the ['Accept'] entry
    some handlers add. The ['Cookie'] entry is [globalCookies]. *)
Definition api_headers (accept : option jsstring) (cookie : option jsstring)
    : list (jsstring * jsstring) :=
  (js "Content-Type", js "application/json")
  :: match accept with
     | Some a => [(js "Accept", a)]
     | None => []
     end
  ++ [(js "Authorization", js "Basic " ++ personal_access_token_string);
      (js "Cookie", match cookie with Some c => c | None => js "null" end)].

Definition call (m : Method) (u : jsstring) (accept : option jsstring)
    (payload : option jsstring) : M Response :=
  cookie <- read_cookies ;;
  fetch (mkRequest m u (api_headers accept cookie) None payload).

Definition text_result (t : jsstring) : ToolReturn := RContent [TextItem t].

(** ** Query tools *)

Definition empty_filter : JSval :=
  VObj [prop "boolOp" (str "BOOL_OP_AND");
        prop "fieldFilters" (VArr []);
        prop "childFilterNodes" (VArr [])].

Definition shown (path : string) : JSval :=
  VObj [prop "fieldPathName" (str path); prop "isShown" (VBool true);
        prop "sortOrder" (num 0)].

Definition big_page : JSval :=
  VObj [prop "convertToLocalTime" (VBool false);
        prop "maxResultSetRows" (num 10000);
        prop "pageSize" (num 10000)].

Definition projects_query (third : string) : JSval :=
  VObj [prop "queryDef"
          (VObj [prop "primaryEntityDefName" (str "Project");
                 prop "queryFieldDefs"
                   (VArr [VObj [prop "fieldPathName" (str "dbid");
                                prop "isShown" (VBool true);
                                prop "sortType" (str "SORT_DESC")];
                          VObj [prop "fieldPathName" (str "Name");
                                prop "isShown" (VBool true)];
                          VObj [prop "fieldPathName" (str third);
                                prop "isShown" (VBool true)]]);
                 prop "filterNode" empty_filter]);
        prop "resultSetOptions" (VObj [])].

Definition entity_query (entity : string) (paths : list string) : JSval :=
  VObj [prop "queryDef"
          (VObj [prop "primaryEntityDefName" (str entity);
                 prop "queryFieldDefs" (VArr (map shown paths));
                 prop "filterNode" empty_filter]);
        prop "resultSetOptions" big_page].

(** The two calls every query tool makes: POST the query, then GET the
    result set it names. [missing] builds the message thrown when the
    answer has no [result_set_id]; [page] is the query string of the GET. *)
Definition run_query (application : jsstring) (payload : JSval)
    (missing : JSval -> jsstring) (page : jsstring) : M JSval :=
  queryResponse <- call POST (api (js "/" ++ application ++ js "/query")) None
                     (JSON_stringify payload) ;;
  queryData <- json queryResponse ;;
  resultSetId <- lift (get_prop queryData (js "result_set_id")) ;;
  if negb (truthy resultSetId) then throw (Error (missing queryData))
  else
    rs <- lift (to_string resultSetId) ;;
    pageResponse <- call GET
                      (api (js "/" ++ application ++ js "/query/" ++ rs ++ page))
                      None None ;;
    json pageResponse.

Definition missing_plain (_ : JSval) : jsstring :=
  js "Failed to retrieve result set ID".

Definition missing_verbose (queryData : JSval) : jsstring :=
  js "Failed to retrieve result set ID. Response: "
  ++ show_json (JSON_stringify queryData).

Definition display_name (row : JSval) : Completion JSval :=
  get_prop row (js "displayName").

Definition get_available_projects_body (application : jsstring) : M ToolReturn :=
  with_session
    (projectsData <- run_query application (projects_query "DescriptionPT")
                       missing_plain (js "?pageNumber=1") ;;
     rows <- lift (and_prop projectsData (js "rows")) ;;
     if truthy rows then
       projectNames <- lift (call_map (js "projectsData.rows.map") rows display_name) ;;
       ret (text_result (js "Projects retrieved: "
                         ++ show_json (JSON_stringify (VArr projectNames))))
     else throw (Error (js "Failed to retrieve projects"))).

Definition get_available_projects (application : jsstring) : M ToolReturn :=
  try_catch (get_available_projects_body application)
    (fun e => ret (text_result (js "Error retrieving projects: " ++ message e))).

(** [v === 0] *)
Definition is_zero (v : JSval) : bool :=
  match v with
  | VNum r => str_eqb r (js "0")
  | _ => false
  end.

Definition empty_components : ToolReturn :=
  text_result (js "Components retrieved: "
               ++ show_json (JSON_stringify (VStr (js "[]")))).

Definition get_available_components_body (application projectId : jsstring)
    : M ToolReturn :=
  with_session
    (componentsData <- run_query application
                         (entity_query "Component" ["Name"; "dbid"; "record_type"]%string)
                         missing_plain [] ;;
     rows <- lift (and_prop componentsData (js "rows")) ;;
     if truthy rows then
       componentNames <- lift (call_map (js "componentsData.rows.map") rows display_name) ;;
       ret (text_result (js "Components retrieved: "
                         ++ show_json (JSON_stringify (VArr componentNames))))
     else
       len <- lift (get_prop componentsData (js "length")) ;;
       if is_zero len then ret empty_components
       else ret RUndefined).

Definition get_available_components (application projectId : jsstring)
    : M ToolReturn :=
  try_catch (get_available_components_body application projectId)
    (fun _ => ret empty_components).

(** ** Field descriptors *)

(** One element of the [fields] argument of [create_or_update_release]
    and [update_work_item]: [{ name, value, type? }]. *)
Record FieldInput : Type := mkField {
  field_name : jsstring;
  field_value : jsstring;
  field_type : option jsstring
}.

(** [!x] for an optional string argument. *)
Definition absent (x : option jsstring) : bool :=
  match x with
  | None | Some [] => true
  | Some (_ :: _) => false
  end.

(** [field.type || "SHORT_STRING"] *)
Definition type_or_default (t : option jsstring) : jsstring :=
  match t with
  | Some (c :: s) => c :: s
  | _ => js "SHORT_STRING"
  end.

(** [field.type === lit] *)
Definition type_is (t : option jsstring) (lit : string) : bool :=
  match t with
  | Some s => str_eqb s (js lit)
  | None => false
  end.

Definition mandatory_or_optional (b : bool) : JSval :=
  if b then str "MANDATORY" else str "OPTIONAL".

(** [field.value.split(',').map(v => v.trim())] *)
Definition reference_parts (v : jsstring) : list jsstring :=
  map trim (split comma v).

(** The element [create_or_update_release] maps a field to for the
    Commit payload. *)
Definition release_commit_field (field : FieldInput) : JSval :=
  let is_name := str_eqb (field_name field) (js "Name") in
  let baseField :=
    [prop "name" (VStr (field_name field));
     prop "valueStatus" (str "HAS_VALUE");
     prop "validationStatus" (str "_KNOWN_VALID");
     prop "requiredness" (mandatory_or_optional is_name);
     prop "requirednessForUser" (mandatory_or_optional is_name);
     prop "type" (VStr (type_or_default (field_type field)));
     prop "messageText" (str "");
     prop "maxLength"
       (if type_is (field_type field) "MULTILINE_STRING"
           || type_is (field_type field) "REFERENCE_LIST"
        then num 0 else num 254)] in
  if type_is (field_type field) "REFERENCE_LIST" then
    let valueAsList := reference_parts (field_value field) in
    VObj (baseField
          ++ [prop "valueAsList" (VArr (map VStr valueAsList));
              prop "value" (VStr (join [newline] valueAsList))])
  else
    VObj (baseField
          ++ [prop "value" (VStr (field_value field));
              prop "valueAsList" (VArr [VStr (field_value field)])]).

(** The field payload of one Edit call of [create_or_update_release]. *)
Definition release_edit_field (field : FieldInput) : JSval :=
  if type_is (field_type field) "REFERENCE_LIST" then
    VObj [prop "name" (VStr (field_name field));
          prop "valueAsList" (VArr (map VStr (reference_parts (field_value field))))]
  else
    VObj [prop "name" (VStr (field_name field));
          prop "value" (VStr (field_value field))].

(** The element [update_work_item] maps a field to for the Commit body. *)
Definition work_item_commit_field (field : FieldInput) : JSval :=
  let has_value := match field_value field with [] => false | _ => true end in
  VObj [prop "name" (VStr (field_name field));
        prop "value" (VStr (field_value field));
        prop "valueStatus" (if has_value then str "HAS_VALUE" else str "HAS_NO_VALUE");
        prop "validationStatus" (str "_KNOWN_VALID");
        prop "requiredness" (str "OPTIONAL");
        prop "requirednessForUser" (str "OPTIONAL");
        prop "type" (VStr (type_or_default (field_type field)));
        prop "valueAsList" (if has_value then VArr [VStr (field_value field)] else VArr []);
        prop "messageText" (str "");
        prop "maxLength" (if type_is (field_type field) "SHORT_STRING"
                          then num 254 else num 0)].

Definition work_item_edit_field (field : FieldInput) : JSval :=
  VObj [prop "name" (VStr (field_name field));
        prop "value" (VStr (field_value field))].

(** The three object literals [create_or_update_sprint] pushes onto
    [commitFields]. *)
Definition sprint_name_field (name : jsstring) : JSval :=
  VObj [prop "name" (str "Name");
        prop "value" (VStr name);
        prop "valueStatus" (str "HAS_VALUE");
        prop "validationStatus" (str "_KNOWN_VALID");
        prop "requiredness" (str "MANDATORY");
        prop "requirednessForUser" (str "MANDATORY");
        prop "type" (str "SHORT_STRING");
        prop "valueAsList" (VArr [VStr name]);
        prop "messageText" (str "");
        prop "maxLength" (num 254)].

Definition sprint_date_field (field : string) (date : jsstring) : JSval :=
  VObj [prop "name" (str field);
        prop "value" (VStr (date ++ js " 00:00:00"));
        prop "valueStatus" (str "HAS_VALUE");
        prop "validationStatus" (str "_KNOWN_VALID");
        prop "requiredness" (str "MANDATORY");
        prop "requirednessForUser" (str "MANDATORY");
        prop "type" (str "DATE_TIME");
        prop "valueAsList" (VArr [VStr (date ++ js " 00:00:00")]);
        prop "messageText" (str "");
        prop "maxLength" (num 0)].

(** [if (x) { fields.push(mk(x)) }] *)
Definition pushed (x : option jsstring) (mk : jsstring -> JSval) : list JSval :=
  match x with
  | Some (c :: s) => [mk (c :: s)]
  | _ => []
  end.

Definition name_value (field : string) (v : jsstring) : JSval :=
  VObj [prop "name" (str field); prop "value" (VStr v)].

Definition sprint_edit_fields (name startDate endDate : option jsstring) : list JSval :=
  pushed name (name_value "Name")
  ++ pushed startDate (name_value "StartDate")
  ++ pushed endDate (name_value "EndDate").

Definition sprint_commit_fields (name startDate endDate : option jsstring) : list JSval :=
  pushed name sprint_name_field
  ++ pushed startDate (sprint_date_field "StartDate")
  ++ pushed endDate (sprint_date_field "EndDate").

(** ** Mutation tools *)

Definition failed (what : string) (sep : string) (code detail : jsstring) : Exn :=
  Error (js what ++ code ++ js sep ++ detail).

(** [const t = await r.text(); throw new Error(`${what}${r.status}${sep}${t}`)] *)
Definition throw_status {A} (what sep : string) (r : Response) : M A :=
  errorText <- text r ;;
  throw (failed what sep (N_to_dec (status r)) errorText).

Definition opt_value (x : option jsstring) : JSval :=
  match x with
  | Some s => VStr s
  | None => VUndef
  end.

Definition no_fields : JSval := VObj [prop "fields" (VArr [])].

(** CREATE MODE, step 1 of both [create_or_update_sprint] and
    [create_or_update_release]: POST an empty record, answer its [dbId]. *)
Definition create_record (application : jsstring) (entity : string) : M JSval :=
  createResponse <- call POST
      (api (js "/" ++ application ++ js "/records/" ++ js entity
            ++ js "?operation=Edit&useDbid=true"))
      None (JSON_stringify no_fields) ;;
  if negb (ok createResponse) then throw_status "Create operation failed: " " " createResponse
  else
    createData <- json createResponse ;;
    lift (get_prop createData (js "dbId")).

Definition record_url (application entity dbid : jsstring) (query : string)
    : jsstring :=
  api (js "/" ++ application ++ js "/records/" ++ entity ++ js "/" ++ dbid
       ++ js query).

(** PATCH [?operation=Edit&useDbid=true] with [{ fields }], checked and parsed. *)
Definition edit_record (application : jsstring) (entity : string)
    (targetDbid : JSval) (fields : list JSval) (what : string) : M JSval :=
  dbid <- lift (to_string targetDbid) ;;
  editResponse <- call PATCH
      (record_url application (js entity) dbid "?operation=Edit&useDbid=true")
      None (JSON_stringify (VObj [prop "fields" (VArr fields)])) ;;
  if negb (ok editResponse) then throw_status what " " editResponse
  else json editResponse.

(** PATCH [?operation=Commit&useDbid=true] with [{ dbId, fields }]. *)
Definition commit_record (application : jsstring) (entity : string)
    (targetDbid : JSval) (fields : list JSval) : M JSval :=
  dbid <- lift (to_string targetDbid) ;;
  commitResponse <- call PATCH
      (record_url application (js entity) dbid "?operation=Commit&useDbid=true")
      None (JSON_stringify (VObj [prop "dbId" targetDbid;
                                  prop "fields" (VArr fields)])) ;;
  if negb (ok commitResponse) then throw_status "Commit operation failed: " " " commitResponse
  else json commitResponse.

Definition created_or_updated (isCreating : bool) : jsstring :=
  if isCreating then js "created" else js "updated".

Definition create_or_update_sprint_body
    (application : jsstring) (sprintDbid name startDate endDate : option jsstring)
    : M ToolReturn :=
  with_session
    (let isCreating := absent sprintDbid in
     targetDbid <-
       (if isCreating then
          if absent name
          then throw (Error (js "Name is required when creating a new sprint"))
          else create_record application "Sprint"
        else
          if absent name && absent startDate && absent endDate
          then throw (Error (js "At least one of name, startDate, or endDate must be provided for update"))
          else ret (opt_value sprintDbid)) ;;
     edit_record application "Sprint" targetDbid
       (sprint_edit_fields name startDate endDate) "Edit operation failed: " ;;
     commitData <- commit_record application "Sprint" targetDbid
                     (sprint_commit_fields name startDate endDate) ;;
     ret (text_result (js "Sprint " ++ created_or_updated isCreating
                       ++ js " successfully: "
                       ++ show_json (JSON_stringify commitData)))).

Definition updating_or_creating (dbid : option jsstring) : jsstring :=
  if absent dbid then js "creating" else js "updating".

Definition create_or_update_sprint
    (application : jsstring) (sprintDbid name startDate endDate : option jsstring)
    : M ToolReturn :=
  try_catch (create_or_update_sprint_body application sprintDbid name startDate endDate)
    (fun e => ret (text_result (js "Error " ++ updating_or_creating sprintDbid
                                ++ js " sprint: " ++ message e))).

(** [for (const x of l) { await f(x) }] *)
Fixpoint for_each {A} (l : list A) (f : A -> M unit) : M unit :=
  match l with
  | [] => ret tt
  | x :: rest => f x ;; for_each rest f
  end.

Definition release_edit_step (application : jsstring) (targetDbid : JSval)
    (field : FieldInput) : M unit :=
  dbid <- lift (to_string targetDbid) ;;
  editResponse <- call PATCH
      (record_url application (js "Release") dbid "?operation=Edit&useDbid=true")
      None (JSON_stringify (VObj [prop "fields" (VArr [release_edit_field field])])) ;;
  if negb (ok editResponse) then
    errorText <- text editResponse ;;
    throw (Error (js "Edit operation failed for " ++ field_name field ++ js ": "
                  ++ N_to_dec (status editResponse) ++ js " " ++ errorText))
  else json editResponse ;; ret tt.

Definition create_or_update_release_body
    (application : jsstring) (releaseDbid : option jsstring) (fields : list FieldInput)
    : M ToolReturn :=
  with_session
    (let isCreating := absent releaseDbid in
     targetDbid <-
       (if isCreating then
          let hasName := existsb (fun f => str_eqb (field_name f) (js "Name")) fields in
          if negb hasName
          then throw (Error (js "Name field is required when creating a new release"))
          else create_record application "Release"
        else
          match fields with
          | [] => throw (Error (js "At least one field must be provided for update"))
          | _ => ret (opt_value releaseDbid)
          end) ;;
     for_each fields (release_edit_step application targetDbid) ;;
     commitData <- commit_record application "Release" targetDbid
                     (map release_commit_field fields) ;;
     ret (text_result (js "Release " ++ created_or_updated isCreating
                       ++ js " successfully: "
                       ++ show_json (JSON_stringify commitData)))).

Definition create_or_update_release
    (application : jsstring) (releaseDbid : option jsstring) (fields : list FieldInput)
    : M ToolReturn :=
  try_catch (create_or_update_release_body application releaseDbid fields)
    (fun e => ret (text_result (js "Error " ++ updating_or_creating releaseDbid
                                ++ js " release: " ++ message e))).

(** [{ ...extras, k: v }] *)
Fixpoint set_prop (k : jsstring) (v : JSval) (props : list (jsstring * JSval))
    : list (jsstring * JSval) :=
  match props with
  | [] => [(k, v)]
  | (k', v') :: rest =>
      if str_eqb k k' then (k', v) :: rest else (k', v') :: set_prop k v rest
  end.

(** The opening block of [_updateEntity]: like the handlers', but it
    throws where they return [{ error }]. *)
Definition require_session : M unit :=
  cached <- read_cookies ;;
  if cookie_falsy cached then
    fetched <- getCookiesFromServer ;;
    write_cookies fetched ;;
    if cookie_falsy fetched then throw (Error (js "Failed to retrieve cookies."))
    else ret tt
  else ret tt.

(** The shared Edit+Commit helper. *)
Definition _updateEntity (application entityType entityDbid : jsstring)
    (editFields commitFields : list JSval)
    (commitPayloadExtras : list (jsstring * JSval)) : M JSval :=
  require_session ;;
  editResponse <- call PATCH
      (record_url application entityType entityDbid "?operation=Edit&useDbid=true")
      None (JSON_stringify (VObj [prop "fields" (VArr editFields)])) ;;
  (if negb (ok editResponse)
   then throw_status "Edit operation failed: " " " editResponse
   else json editResponse) ;;
  commitResponse <- call PATCH
      (record_url application entityType entityDbid "?operation=Commit&useDbid=true")
      None (JSON_stringify
              (VObj (set_prop (js "fields") (VArr commitFields) commitPayloadExtras))) ;;
  if negb (ok commitResponse)
  then throw_status "Commit operation failed: " " " commitResponse
  else json commitResponse.

Definition accept_json : option jsstring := Some (js "application/json").

Definition updated_line (f : FieldInput) : jsstring :=
  js "- " ++ field_name f ++ js ": " ++ field_value f.

Definition update_work_item_body (dbid application : jsstring)
    (fields : list FieldInput) : M ToolReturn :=
  with_session
    (modifyResponse <- call PATCH
         (record_url application (js "WorkItem") dbid
            "?actionName=Modify&operation=Edit&useDbid=true")
         accept_json (Some (js "{}")) ;;
     (if negb (ok modifyResponse) then
        errorText <- text modifyResponse ;;
        throw (failed "Modify action failed: " " - " (statusText modifyResponse) errorText)
      else ret tt) ;;
     editResponse <- call PATCH
         (record_url application (js "WorkItem") dbid "?operation=Edit&useDbid=true")
         accept_json
         (JSON_stringify (VObj [prop "fields" (VArr (map work_item_edit_field fields))])) ;;
     (if negb (ok editResponse) then
        errorText <- text editResponse ;;
        throw (failed "Edit operation failed: " " - " (statusText editResponse) errorText)
      else json editResponse) ;;
     commitResponse <- call PATCH
         (record_url application (js "WorkItem") dbid "?operation=Commit&useDbid=true")
         accept_json
         (JSON_stringify (VObj [prop "dbId" (VStr dbid);
                                prop "fields" (VArr (map work_item_commit_field fields))])) ;;
     if ok commitResponse then
       json commitResponse ;;
       ret (text_result (js "Work item " ++ dbid ++ js " updated successfully."
                         ++ [newline; newline] ++ js "Updated fields:" ++ [newline]
                         ++ join [newline] (map updated_line fields)))
     else
       errorText <- text commitResponse ;;
       throw (failed "Commit operation failed: " " - " (statusText commitResponse) errorText)).

Definition update_work_item (dbid application : jsstring) (fields : list FieldInput)
    : M ToolReturn :=
  try_catch (update_work_item_body dbid application fields)
    (fun e => ret (text_result (js "Error updating work item: " ++ message e))).

Definition change_work_item_state_body (dbid application targetState : jsstring)
    : M ToolReturn :=
  with_session
    (getCurrentResponse <- call GET
         (record_url application (js "WorkItem") dbid "?useDbid=true") None None ;;
     (if negb (ok getCurrentResponse)
      then throw_status "Failed to get current work item data with status " ": "
             getCurrentResponse
      else json getCurrentResponse) ;;
     movementResponse <- call PATCH
         (api (js "/" ++ application ++ js "/records/WorkItem/" ++ dbid
               ++ js "?actionName=" ++ targetState ++ js "&operation=Edit&useDbid=true"))
         None (Some (js "{}")) ;;
     movementData <-
       (if negb (ok movementResponse)
        then throw_status "Movement request failed with status " ": " movementResponse
        else json movementResponse) ;;
     sleep 1000 ;;
     movedId <- lift (get_prop movementData (js "dbId")) ;;
     commitResponse <- call PATCH
         (record_url application (js "WorkItem") dbid "?operation=Commit&useDbid=true")
         None (JSON_stringify (VObj [prop "dbId" movedId; prop "fields" (VArr [])])) ;;
     (if negb (ok commitResponse)
      then throw_status "Commit request failed with status " ": " commitResponse
      else json commitResponse) ;;
     ret (text_result (js "Work item " ++ dbid ++ js " state successfully changed to '"
                       ++ targetState
                       ++ js "'. Both movement and commit operations completed successfully."))).

Definition change_work_item_state (dbid application targetState : jsstring)
    : M ToolReturn :=
  try_catch (change_work_item_state_body dbid application targetState)
    (fun e =>
       if includes (js "status 400") (message e) || includes (js "status 422") (message e)
       then ret (text_result
                   (js "State transition error: The transition from current state to '"
                    ++ targetState ++ js "' may not be valid for work item " ++ dbid
                    ++ js ". Error: " ++ message e))
       else ret (text_result (js "Error changing work item state: " ++ message e))).

(** ** The remaining query tools *)

Definition rows_or_fail (noun : string) (failure : string) (data : JSval)
    : M ToolReturn :=
  rows <- lift (and_prop data (js "rows")) ;;
  if truthy rows then
    ret (text_result (js noun ++ js " retrieved: " ++ show_json (JSON_stringify data)))
  else throw (Error (js failure)).

Definition get_sprints (application : jsstring) : M ToolReturn :=
  try_catch
    (with_session
       (sprintsData <- run_query application
            (entity_query "Sprint"
               ["Name"; "StartDate"; "EndDate"; "dbid"; "record_type"]%string)
            missing_verbose [] ;;
        rows_or_fail "Sprints" "Failed to retrieve sprints" sprintsData))
    (fun e => ret (text_result (js "Error retrieving sprints: " ++ message e))).

Definition get_releases (application : jsstring) : M ToolReturn :=
  try_catch
    (with_session
       (releasesData <- run_query application
            (entity_query "Release"
               ["Name"; "ReleaseType"; "dbid"; "record_type"; "Sprints"]%string)
            missing_verbose [] ;;
        rows_or_fail "Releases" "Failed to retrieve releases" releasesData))
    (fun e => ret (text_result (js "Error retrieving releases: " ++ message e))).

(** [row => row.values[2].split('\n').map(type => type.trim())] *)
Definition row_types (row : JSval) : Completion (list JSval) :=
  cbind (get_prop row (js "values")) (fun values =>
  cbind (get_prop values (js "2")) (fun typesString =>
    match typesString with
    | VStr s => Normal (map VStr (map trim (split newline s)))
    | VUndef | VNull => Thrown (TypeErr (ReadOfNullish typesString (js "split")))
    | _ => Thrown (TypeErr (NotAFunction (js "typesString.split")))
    end)).

Definition get_available_workitem_types (application projectId : jsstring)
    : M ToolReturn :=
  try_catch
    (with_session
       (workItemTypesData <- run_query application (projects_query "WITypeList")
                               missing_plain (js "?pageNumber=1") ;;
        rows <- lift (and_prop workItemTypesData (js "rows")) ;;
        if truthy rows then
          perRow <- lift (match rows with
                          | VArr items => map_completion row_types items
                          | _ => Thrown (TypeErr (NotAFunction
                                                    (js "workItemTypesData.rows.map")))
                          end) ;;
          ret (text_result (js "Available work item types: "
                            ++ show_json (JSON_stringify (VArr (List.concat perRow)))))
        else throw (Error (js "Failed to retrieve work item types"))))
    (fun e => ret (text_result (js "Error retrieving work item types: " ++ message e))).

Definition plain_field (path : string) : JSval :=
  VObj [prop "fieldPathName" (str path); prop "isShown" (VBool true)].

Definition equals_filter (path : string) (v : JSval) : JSval :=
  VObj [prop "fieldPath" (str path); prop "compOp" (str "COMP_OP_EQ");
        prop "values" (VArr [v])].

Definition work_items_query (projectId : jsstring) (workitemType owner : option jsstring)
    : JSval :=
  VObj [prop "queryDef"
          (VObj [prop "primaryEntityDefName" (str "WorkItem");
                 prop "stateDriven" (VBool true);
                 prop "showWipLimits" (VBool true);
                 prop "backlogStateName" (str "Backlog");
                 prop "laneQueryDef"
                   (VObj [prop "pageCounterQueryField" (str "State");
                          prop "pageCounterQueryFieldPath" (str "State");
                          prop "wipLimitFilterQueryField" (str "Project")]);
                 prop "queryFieldDefs"
                   (VArr (map plain_field
                            ["dbid"; "State"; "id"; "Title"; "Owner.fullname"; "Owner";
                             "Priority"; "Parent.Title"; "Parent"; "Parent.record_type";
                             "Tags"; "WIType"; "Sprint"; "PlannedRelease";
                             "FoundInRelease"]%string));
                 prop "filterNode"
                   (VObj [prop "boolOp" (str "BOOL_OP_AND");
                          prop "fieldFilters"
                            (VArr (equals_filter "Project" (VStr projectId)
                                   :: (if absent owner then []
                                       else [equals_filter "Owner" (str "[CURRENT_USER]")])
                                   ++ match workitemType with
                                      | Some (c :: s) => [equals_filter "WIType" (VStr (c :: s))]
                                      | _ => []
                                      end))])]);
        prop "resultSetOptions"
          (VObj [prop "pageSize" (num 300); prop "convertToLocalTime" (VBool true)])].

Definition get_work_items (applicationName projectId : jsstring)
    (workitemType owner : option jsstring) : M ToolReturn :=
  try_catch
    (with_session
       (workItemsData <- run_query applicationName
                           (work_items_query projectId workitemType owner)
                           missing_verbose (js "?pageNumber=1") ;;
        if truthy workItemsData then
          ret (text_result (js "Work items retrieved: "
                            ++ show_json (JSON_stringify workItemsData)))
        else throw (Error (js "Failed to retrieve work items"))))
    (fun e => ret (text_result (js "Error retrieving work items: " ++ message e))).

Definition delete_work_item (dbid application : jsstring) : M ToolReturn :=
  try_catch
    (with_session
       (response <- call DELETE
            (record_url application (js "WorkItem") dbid "?actionName=Delete&useDbid=true")
            None None ;;
        if ok response
        then ret (text_result (js "Work item " ++ dbid ++ js " deleted successfully"))
        else throw (Error (js "Failed to delete work item"))))
    (fun e => ret (text_result (js "Error deleting work item: " ++ message e))).

(** [app => ({ id: app.dbId, applicationName: app.name })] *)
Definition application_entry (app : JSval) : Completion JSval :=
  cbind (get_prop app (js "dbId")) (fun id =>
  cbind (get_prop app (js "name")) (fun name =>
    Normal (VObj [prop "id" id; prop "applicationName" name]))).

Definition get_applications : M ToolReturn :=
  try_catch
    (with_session
       (response <- call GET (api []) accept_json None ;;
        data <- json response ;;
        match data with
        | VArr items =>
            applications <- lift (map_completion application_entry items) ;;
            ret (text_result (js "Applications retrieved: "
                              ++ show_json (JSON_stringify (VArr applications))))
        | _ => throw (Error (js "Failed to retrieve applications"))
        end))
    (fun e => ret (text_result (js "Error retrieving applications: " ++ message e))).

(** ** [create_work_item] *)

Definition template_field (name : string) (value : jsstring)
    (type : string) (maxLength : N) : JSval :=
  VObj [prop "name" (str name);
        prop "value" (VStr value);
        prop "valueStatus" (str "HAS_VALUE");
        prop "validationStatus" (str "_KNOWN_VALID");
        prop "requiredness" (str "READONLY");
        prop "requirednessForUser" (str "READONLY");
        prop "type" (str type);
        prop "valueAsList" (VArr [VStr value]);
        prop "messageText" (str "");
        prop "maxLength" (num maxLength)].

Definition entity_stub : JSval :=
  VObj [prop "dbId" (str "33554524");
        prop "displayName" (str "string");
        prop "entityDefName" (str "Project");
        prop "viewURL" (str "string")].

(** [JSON.parse(createWorkItemBody)] after the handler has written the
    arguments into fields 0, 2, 4, 5 and 6. *)
Definition work_item_body (component : option jsstring)
    (title description workItemType projectId : jsstring) : JSval :=
  VObj [prop "dbId" (str "33554505");
        prop "displayName" (str "string");
        prop "entityDefName" (str "Project");
        prop "fields"
          (VArr [template_field "Component"
                   (match component with Some c => c | None => [] end) "REFERENCE" 0;
                 template_field "dbid" (js "33554505") "DBID" 0;
                 template_field "Project" projectId "REFERENCE" 0;
                 template_field "record_type" (js "WorkItem") "RECORDTYPE" 30;
                 template_field "Title" title "SHORT_STRING" 254;
                 template_field "Description" description "MULTILINE_STRING" 0;
                 template_field "WIType" workItemType "SHORT_STRING" 254]);
        prop "legalActions"
          (VArr [VObj [prop "actionName" (str "Submit");
                       prop "formDefName" (str "Defect_Base_Submit")]]);
        prop "isEditable" (VBool true);
        prop "isDuplicate" (VBool true);
        prop "original" entity_stub;
        prop "isOriginal" (VBool true);
        prop "hasDuplicates" (VBool true);
        prop "errorMessage" (str "string");
        prop "duplicates"
          (VArr [VObj [prop "child" entity_stub; prop "parent" entity_stub]]);
        prop "viewURL" (str "string")].

Definition create_work_item (component : option jsstring)
    (title description workItemType application projectId : jsstring) : M ToolReturn :=
  try_catch
    (with_session
       (response <- call POST
            (api (js "/" ++ application
                  ++ js "/records/WorkItem/?operation=Commit&useDbid=false"))
            accept_json
            (JSON_stringify
               (work_item_body component title description workItemType projectId)) ;;
        data <- json response ;;
        viewURL <- lift (get_prop data (js "viewURL")) ;;
        if truthy viewURL then
          dbId <- lift (cbind (get_prop data (js "dbId")) to_string) ;;
          view <- lift (to_string viewURL) ;;
          ret (text_result (js "Work item created successfully. dbId: " ++ dbId
                            ++ js ". View it at: " ++ serverURL ++ js "/#" ++ view))
        else throw (Error (js "Failed to create work item"))))
    (fun e => ret (text_result (js "Error creating work item: " ++ message e))).

(** ** [get_available_states] *)

(** An element of a [stateTransitions[...]] array. [origin] says which
    action object (work item index, action index) the two values were read
    from: two parsed objects are the same object only if they are the same
    property of the same action. *)
Record Transition : Type := mkTransition {
  action : JSval;
  toState : JSval;
  origin : nat * nat
}.

(** [a === b], where [same] tells whether the two were read from the same
    place of the parsed data. *)
Definition strict_eq (same : bool) (a b : JSval) : bool :=
  match a, b with
  | VUndef, VUndef | VNull, VNull => true
  | VBool x, VBool y => Bool.eqb x y
  | VNum x, VNum y | VStr x, VStr y => str_eqb x y
  | VArr _, VArr _ | VObj _, VObj _ => same
  | _, _ => false
  end.

Definition origin_eqb (a b : nat * nat) : bool :=
  Nat.eqb (fst a) (fst b) && Nat.eqb (snd a) (snd b).

(** The [stateTransitions] object: its own properties in enumeration
    order (array indices ascending, then the other keys as created). *)
Definition Transitions : Type := list (jsstring * list Transition).

Definition object_prototype_keys : list jsstring :=
  map js ["constructor"; "__defineGetter__"; "__defineSetter__"; "hasOwnProperty";
          "__lookupGetter__"; "__lookupSetter__"; "isPrototypeOf";
          "propertyIsEnumerable"; "toString"; "valueOf"; "__proto__";
          "toLocaleString"]%string.

Fixpoint own (k : jsstring) (st : Transitions) : option (list Transition) :=
  match st with
  | [] => None
  | (k', ts) :: rest => if str_eqb k k' then Some ts else own k rest
  end.

Fixpoint add_index_key (n : N) (k : jsstring) (st : Transitions) : Transitions :=
  match st with
  | [] => [(k, [])]
  | (k', ts) :: rest =>
      match array_index k' with
      | Some m => if m <? n then (k', ts) :: add_index_key n k rest
                  else (k, []) :: st
      | None => (k, []) :: st
      end
  end.

(** [stateTransitions[k] = []] for a key not yet present. *)
Definition add_key (k : jsstring) (st : Transitions) : Transitions :=
  match array_index k with
  | Some n => add_index_key n k st
  | None => st ++ [(k, [])]
  end.

Fixpoint push_to (k : jsstring) (t : Transition) (st : Transitions) : Transitions :=
  match st with
  | [] => []
  | (k', ts) :: rest =>
      if str_eqb k k' then (k', ts ++ [t]) :: rest else (k', ts) :: push_to k t rest
  end.

(** The body of [sourceStates.forEach(sourceState => ...)]. *)
Definition add_source (t : Transition) (st : Transitions) (sourceState : JSval)
    : Completion Transitions :=
  cbind (to_string sourceState) (fun key =>
    match own key st with
    | None =>
        if existsb (str_eqb key) object_prototype_keys
        then Thrown (TypeErr (NotAFunction (js "stateTransitions[sourceState].find")))
        else Normal (push_to key t (add_key key st))
    | Some existing =>
        if existsb (fun t' =>
                      strict_eq (origin_eqb (origin t') (origin t)) (action t') (action t)
                      && strict_eq (origin_eqb (origin t') (origin t))
                           (toState t') (toState t))
             existing
        then Normal st
        else Normal (push_to key t st)
    end).

Fixpoint fold_completion {A S} (f : S -> A -> Completion S) (l : list A) (s : S)
    : Completion S :=
  match l with
  | [] => Normal s
  | x :: rest => cbind (f s x) (fold_completion f rest)
  end.

Definition indexed {A} (l : list A) : list (nat * A) :=
  combine (seq 0 (List.length l)) l.

(** [v.forEach(f)] on a parsed value. *)
Definition for_each_of {S} (callee : string) (v : JSval)
    (f : S -> nat * JSval -> Completion S) (s : S) : Completion S :=
  match v with
  | VArr items => fold_completion f (indexed items) s
  | _ => Thrown (TypeErr (NotAFunction (js callee)))
  end.

(** The body of [workItem.actions.forEach(action => ...)]. *)
Definition add_action (i : nat) (st : Transitions) (ja : nat * JSval)
    : Completion Transitions :=
  let (j, act) := ja in
  cbind (get_prop act (js "actionType")) (fun actionType =>
    if strict_eq false actionType (str "_CHANGE_STATE") then
      cbind (get_prop act (js "name")) (fun actionName =>
      cbind (get_prop act (js "actionDestStateName")) (fun destState =>
      cbind (get_prop act (js "actionSourceStateNames")) (fun names =>
        let sourceStates := if truthy names then names else VArr [] in
        for_each_of "sourceStates.forEach" sourceStates
          (fun st' s => add_source (mkTransition actionName destState (i, j)) st' (snd s))
          st)))
    else Normal st).

(** The body of [data.forEach(workItem => ...)]. *)
Definition add_work_item (st : Transitions) (iw : nat * JSval)
    : Completion Transitions :=
  let (i, workItem) := iw in
  cbind (get_prop workItem (js "actions")) (fun actions =>
    match actions with
    | VArr _ => for_each_of "workItem.actions.forEach" actions (add_action i) st
    | _ => Normal st
    end).

(** [`"${s}"`] *)
Definition quote_mark (s : jsstring) : jsstring := dquote :: s ++ [dquote].

Definition transition_line (t : Transition) : Completion jsstring :=
  cbind (to_string (action t)) (fun a =>
  cbind (to_string (toState t)) (fun s =>
    Normal (js "  - Action: " ++ quote_mark a ++ js " -> To: " ++ quote_mark s
            ++ [newline]))).

(** One round of [for (const [fromState, transitions] of Object.entries(...))]. *)
Definition state_block (acc : jsstring) (entry : jsstring * list Transition)
    : Completion jsstring :=
  let (fromState, transitions) := entry in
  cbind (fold_completion
           (fun text t => cbind (transition_line t) (fun line => Normal (text ++ line)))
           transitions
           (acc ++ js "From " ++ quote_mark fromState ++ js ":" ++ [newline]))
    (fun text => Normal (text ++ [newline])).

Definition matrix_heading : jsstring :=
  js "State Transition Matrix:" ++ [newline; newline].

(** [formattedResponse] for the parsed answer [data]. *)
Definition format_matrix (data : JSval) : Completion jsstring :=
  match data with
  | VArr _ =>
      cbind (for_each_of "data.forEach" data add_work_item []) (fun stateTransitions =>
        match stateTransitions with
        | [] => Normal (matrix_heading
                        ++ js "No state transitions found in the work items."
                        ++ [newline])
        | _ => fold_completion state_block stateTransitions matrix_heading
        end)
  | _ => Normal (matrix_heading ++ js "Unexpected response format. Raw data:"
                 ++ [newline] ++ show_json (JSON_stringify_pretty data))
  end.

Definition accept_any : option jsstring :=
  Some (js "application/json, text/plain, */*").

Definition get_available_states (application : jsstring) : M ToolReturn :=
  try_catch
    (with_session
       (response <- call GET (api (js "/" ++ application ++ js "/records/WorkItem"))
                      accept_any None ;;
        data <-
          (if negb (ok response)
           then throw_status "Failed to get state transition matrix with status " ": "
                  response
           else json response) ;;
        formattedResponse <- lift (format_matrix data) ;;
        ret (text_result (formattedResponse ++ [newline; newline] ++ js "Raw data: "
                          ++ show_json (JSON_stringify data)))))
    (fun e => ret (text_result (js "Error retrieving state transition matrix: "
                                ++ message e))).

(** ** The tool table *)

(** A tool invocation: the name registered with [server.tool] and the
    arguments its schema admits. *)
Inductive Invocation : Type :=
| Get_available_projects (application : jsstring)
| Get_available_components (application projectId : jsstring)
| Get_sprints (application : jsstring)
| Get_releases (application : jsstring)
| Create_or_update_sprint (application : jsstring)
    (sprintDbid name startDate endDate : option jsstring)
| Create_or_update_release (application : jsstring) (releaseDbid : option jsstring)
    (fields : list FieldInput)
| Get_available_workitem_types (application projectId : jsstring)
| Create_work_item (component : option jsstring)
    (title description workItemType application projectId : jsstring)
| Get_work_items (applicationName projectId : jsstring)
    (workitemType owner : option jsstring)
| Delete_work_item (dbid application : jsstring)
| Update_work_item (dbid application : jsstring) (fields : list FieldInput)
| Get_applications
| Get_available_states (application : jsstring)
| Change_work_item_state (dbid application targetState : jsstring).

Definition handler (i : Invocation) : M ToolReturn :=
  match i with
  | Get_available_projects a => get_available_projects a
  | Get_available_components a p => get_available_components a p
  | Get_sprints a => get_sprints a
  | Get_releases a => get_releases a
  | Create_or_update_sprint a d n s e => create_or_update_sprint a d n s e
  | Create_or_update_release a d fs => create_or_update_release a d fs
  | Get_available_workitem_types a p => get_available_workitem_types a p
  | Create_work_item c t d ty a p => create_work_item c t d ty a p
  | Get_work_items a p ty o => get_work_items a p ty o
  | Delete_work_item d a => delete_work_item d a
  | Update_work_item d a fs => update_work_item d a fs
  | Get_applications => get_applications
  | Get_available_states a => get_available_states a
  | Change_work_item_state d a t => change_work_item_state d a t
  end.

(** ** Vocabulary of the properties *)

(** The one request [getCookiesFromServer] makes. *)
Definition bootstrap : Event :=
  Http (mkRequest GET cookie_url [] (Some (js "include")) None).

(** The cookie a bootstrap call yields in world [w], if any. *)
Definition acquire (w : World) : option jsstring :=
  match network w with
  | Responds r :: _ =>
      if ok r && negb (cookie_falsy (set_cookie r)) then set_cookie r else None
  | _ => None
  end.

(** The world a handler is in once its opening block has run. *)
Definition session_world (w : World) : World :=
  if cookie_falsy (globalCookies w)
  then mkWorld (acquire w) (trace w ++ [bootstrap]) (tl (network w))
  else w.

(** Whether the opening block leaves the handler with a cookie. *)
Definition session_ok (w : World) : bool :=
  negb (cookie_falsy (globalCookies (session_world w))).

Definition is_bootstrap (ev : Event) : bool :=
  match ev with
  | Http r => str_eqb (url r) cookie_url
  | Sleep _ => false
  end.

(** Number of bootstrap calls in a trace. *)
Definition bootstrap_calls (evs : list Event) : nat :=
  List.length (filter is_bootstrap evs).

Definition is_http (ev : Event) : bool :=
  match ev with
  | Http _ => true
  | Sleep _ => false
  end.

(** The HTTP calls of a trace, in order. *)
Definition http_calls (evs : list Event) : list Event := filter is_http evs.

(** What a run that took [w] to [w'] added to the trace. *)
Definition issued (w w' : World) : list Event :=
  skipn (List.length (trace w)) (trace w').

Definition has_method (m : Method) (ev : Event) : bool :=
  match ev with
  | Http r => match method r, m with
              | GET, GET | POST, POST | PATCH, PATCH | DELETE, DELETE => true
              | _, _ => false
              end
  | Sleep _ => false
  end.

(** An API request that carries [Cookie: c] and does not go to the
    cookie endpoint; a pause is neither. *)
Definition carries (c : jsstring) (ev : Event) : Prop :=
  match ev with
  | Http r => url r <> cookie_url /\ In (js "Cookie", c) (headers r)
  | Sleep _ => True
  end.

(** [m] keeps the cookie state within [I] and issues only events in [P]. *)
Definition emits (I : option jsstring -> Prop) (P : Event -> Prop)
    {A} (m : M A) : Prop :=
  forall w, I (globalCookies w) ->
    I (globalCookies (snd (m w)))
    /\ exists evs, trace (snd (m w)) = trace w ++ evs /\ Forall P evs.

(** Every value [m] returns normally satisfies [Q]. *)
Definition yields {A} (Q : A -> Prop) (m : M A) : Prop :=
  forall w a w', m w = (Normal a, w') -> Q a.

(** A result whose [content] is one text item. *)
Definition single_text (r : ToolReturn) : Prop :=
  exists t, r = RContent [TextItem t].

(** *** The encoding table of the specification

    Section 4.3 of the specification, row by row: for a field type, the
    [value], [valueAsList] and [maxLength] a Commit descriptor must carry.
    Types the table does not list have no row. *)

Record TableRow : Type := mkRow {
  row_value : jsstring;
  row_list : list jsstring;
  row_maxLength : N
}.

Definition encoding_table (type : option jsstring) (input : jsstring)
    : option TableRow :=
  match type with
  | None | Some [] => Some (mkRow input [input] 254)
  | Some t =>
      if str_eqb t (js "SHORT_STRING") then Some (mkRow input [input] 254)
      else if str_eqb t (js "MULTILINE_STRING") then Some (mkRow input [input] 0)
      else if str_eqb t (js "DATE_TIME")
      then Some (mkRow (input ++ js " 00:00:00") [input ++ js " 00:00:00"] 0)
      else if str_eqb t (js "REFERENCE_LIST")
      then Some (mkRow (join [newline] (map trim (split comma input)))
                   (map trim (split comma input)) 0)
      else None
  end.

(** Descriptor [d] carries what the table asks for a field of type [type]
    and input [input]. *)
Definition matches_table (type : option jsstring) (input : jsstring) (d : JSval)
    : Prop :=
  match d, encoding_table type input with
  | VObj props, Some row =>
      lookup (js "value") props = VStr (row_value row)
      /\ lookup (js "valueAsList") props = VArr (map VStr (row_list row))
      /\ lookup (js "maxLength") props = num (row_maxLength row)
  | VObj _, None => True
  | _, _ => False
  end.

(** [s] without its last [n] code units. *)
Definition drop_last (n : nat) (s : jsstring) : jsstring :=
  firstn (List.length s - n) s.

(** The type-specific rule that reads the input back from a descriptor:
    a date loses its [" 00:00:00"], a reference list is its parts joined
    by commas, anything else is [value] itself. *)
Definition recover (type : option jsstring) (d : JSval) : option jsstring :=
  match d with
  | VObj props =>
      if type_is type "REFERENCE_LIST" then
        match lookup (js "valueAsList") props with
        | VArr items =>
            Some (join [comma]
                    (map (fun x => match x with VStr s => s | _ => [] end) items))
        | _ => None
        end
      else
        match lookup (js "value") props with
        | VStr v => if type_is type "DATE_TIME" then Some (drop_last 9 v) else Some v
        | _ => None
        end
  | _ => None
  end.

(** Member [k] of a descriptor. *)
Definition member (k : string) (d : JSval) : JSval :=
  match d with
  | VObj props => lookup (js k) props
  | _ => VUndef
  end.

(** *** Named ways for the component query to break

    The failures of the two query calls, seen from the world [w1] the
    handler is in after its opening block: the network gives no answer to
    the query, the answer cannot be parsed, it names no result set, or the
    page request fails in one of the first two ways. *)
Inductive query_breaks (w1 : World) : Prop :=
| query_unanswered :
    network w1 = [] -> query_breaks w1
| query_rejected (msg : jsstring) (rest : list Answer) :
    network w1 = Rejects msg :: rest -> query_breaks w1
| query_unreadable (q : Response) (rest : list Answer) (e : Exn) :
    network w1 = Responds q :: rest -> body_json q = Thrown e -> query_breaks w1
| no_result_set (q : Response) (rest : list Answer) (queryData resultSetId : JSval) :
    network w1 = Responds q :: rest ->
    body_json q = Normal queryData ->
    get_prop queryData (js "result_set_id") = Normal resultSetId ->
    truthy resultSetId = false -> query_breaks w1
| page_rejected (q : Response) (rest : list Answer) (queryData resultSetId : JSval)
    (rs msg : jsstring) :
    network w1 = Responds q :: Rejects msg :: rest ->
    body_json q = Normal queryData ->
    get_prop queryData (js "result_set_id") = Normal resultSetId ->
    truthy resultSetId = true -> to_string resultSetId = Normal rs ->
    query_breaks w1
| page_unreadable (q p : Response) (rest : list Answer)
    (queryData resultSetId : JSval) (rs : jsstring) (e : Exn) :
    network w1 = Responds q :: Responds p :: rest ->
    body_json q = Normal queryData ->
    get_prop queryData (js "result_set_id") = Normal resultSetId ->
    truthy resultSetId = true -> to_string resultSetId = Normal rs ->
    body_json p = Thrown e -> query_breaks w1.

(** The text ['Components retrieved: "[]"'], quotation marks included. *)
Definition quoted_empty_list : jsstring :=
  js "Components retrieved: " ++ [dquote] ++ js "[]" ++ [dquote].

(** The reading under which every failure of [get_available_components],
    a failed session acquisition included, ends in that text. *)
Definition every_failure_masked (application projectId : jsstring) (w : World)
    : Prop :=
  (session_ok w = false
   \/ exists e w', get_available_components_body application projectId w
                   = (Thrown e, w')) ->
  fst (get_available_components application projectId w)
  = Normal (text_result quoted_empty_list).

(** *** [change_work_item_state] *)

(** The three requests of a state change, given the cookie in force. *)
Definition current_item_request (cookie : option jsstring)
    (dbid application : jsstring) : Request :=
  mkRequest GET (record_url application (js "WorkItem") dbid "?useDbid=true")
    (api_headers None cookie) None None.

Definition movement_request (cookie : option jsstring)
    (dbid application targetState : jsstring) : Request :=
  mkRequest PATCH
    (api (js "/" ++ application ++ js "/records/WorkItem/" ++ dbid
          ++ js "?actionName=" ++ targetState ++ js "&operation=Edit&useDbid=true"))
    (api_headers None cookie) None (Some (js "{}")).

Definition state_commit_request (cookie : option jsstring)
    (dbid application : jsstring) (movedId : JSval) : Request :=
  mkRequest PATCH
    (record_url application (js "WorkItem") dbid "?operation=Commit&useDbid=true")
    (api_headers None cookie) None
    (JSON_stringify (VObj [prop "dbId" movedId; prop "fields" (VArr [])])).

Definition state_changed_text (dbid targetState : jsstring) : jsstring :=
  js "Work item " ++ dbid ++ js " state successfully changed to '" ++ targetState
  ++ js "'. Both movement and commit operations completed successfully.".

(** The invocation reports success. *)
Definition state_change_succeeded (dbid application targetState : jsstring)
    (w : World) : Prop :=
  fst (change_work_item_state dbid application targetState w)
  = Normal (text_result (state_changed_text dbid targetState)).

(** The reading under which a successful state change makes three HTTP
    calls and no more. *)
Definition exactly_three_calls (dbid application targetState : jsstring)
    (w : World) : Prop :=
  state_change_succeeded dbid application targetState w ->
  List.length
    (http_calls (issued w (snd (change_work_item_state dbid application targetState w))))
  = 3%nat.

(** The server turns the state change down with status [code] and body
    [errorText], at the action step or at the Commit step; the index is
    how the thrown message begins. *)
Inductive transition_rejected (w1 : World) (code : N) (errorText : jsstring)
    : jsstring -> Prop :=
| rejected_at_action (g m : Response) (current : JSval) (rest : list Answer) :
    network w1 = Responds g :: Responds m :: rest ->
    ok g = true -> body_json g = Normal current ->
    status m = code -> body_text m = Normal errorText ->
    transition_rejected w1 code errorText (js "Movement request failed with status ")
| rejected_at_commit (g m c : Response) (current movementData movedId : JSval)
    (rest : list Answer) :
    network w1 = Responds g :: Responds m :: Responds c :: rest ->
    ok g = true -> body_json g = Normal current ->
    ok m = true -> body_json m = Normal movementData ->
    get_prop movementData (js "dbId") = Normal movedId ->
    status c = code -> body_text c = Normal errorText ->
    transition_rejected w1 code errorText (js "Commit request failed with status ").

Definition transition_error_text (dbid targetState msg : jsstring) : jsstring :=
  js "State transition error: The transition from current state to '"
  ++ targetState ++ js "' may not be valid for work item " ++ dbid
  ++ js ". Error: " ++ msg.

(** *** Creating a sprint or a release *)

(** The POST that allocates the empty record. *)
Definition create_request (cookie : option jsstring) (application : jsstring)
    (entity : string) : Request :=
  mkRequest POST
    (api (js "/" ++ application ++ js "/records/" ++ js entity
          ++ js "?operation=Edit&useDbid=true"))
    (api_headers None cookie) None (JSON_stringify no_fields).

Definition is_patch (ev : Event) : Prop := has_method PATCH ev = true.

(** Number of POST requests in a trace. *)
Definition posts (evs : list Event) : nat :=
  List.length (filter (has_method POST) evs).

Definition has_name (fields : list FieldInput) : bool :=
  existsb (fun f => str_eqb (field_name f) (js "Name")) fields.

(** The reading under which every invocation without a [dbid] issues
    one POST. *)
Definition always_one_post (i : Invocation) (w : World) : Prop :=
  posts (issued w (snd (handler i w))) = 1%nat.

(** *** Requiredness *)

(** The reading under which a descriptor is [MANDATORY] exactly when it
    is the [Name] field, and [OPTIONAL] otherwise. *)
Definition mandatory_only_for_name (d : JSval) : Prop :=
  (member "name" d = str "Name" ->
   member "requiredness" d = str "MANDATORY"
   /\ member "requirednessForUser" d = str "MANDATORY")
  /\ (member "name" d <> str "Name" ->
      member "requiredness" d = str "OPTIONAL"
      /\ member "requirednessForUser" d = str "OPTIONAL").

(** The reading under which every invocation ends in one text item. *)
Definition always_single_text (i : Invocation) (w : World) : Prop :=
  exists r w', handler i w = (Normal r, w') /\ single_text r.

(** ** Sample worlds

    A configuration, the wording Node gives its [TypeError]s, and a few
    scripted servers to run the handlers against. *)

Definition plan_url : jsstring := js "https://plan.example.com".
Definition team : jsstring := js "team-1".
Definition token : jsstring := js "c2VjcmV0".

Definition node_message (f : EngineFault) : jsstring :=
  match f with
  | ReadOfNullish base p =>
      js "Cannot read properties of "
      ++ match base with VNull => js "null" | _ => js "undefined" end
      ++ js " (reading '" ++ p ++ js "')"
  | NotAFunction callee => callee ++ js " is not a function"
  | NotPrimitive => js "Cannot convert object to primitive value"
  end.

Definition session_cookie : jsstring := js "JSESSIONID=7F3A; Path=/ccmweb".

(** An answer with status [code], body text [t] and parsed body [j]. *)
Definition answer (code : N) (t : jsstring) (j : JSval) : Answer :=
  Responds (mkResponse code (js "") None (Normal t) (Normal j)).

Definition cookie_answer : Answer :=
  Responds (mkResponse 200 (js "OK") (Some session_cookie) (Normal []) (Normal VNull)).

(** A process that has just started: [globalCookies] is [""]. *)
Definition started (script : list Answer) : World := mkWorld (Some []) [] script.

(** A process that already holds the session cookie. *)
Definition signed_in (script : list Answer) : World :=
  mkWorld (Some session_cookie) [] script.

(** The server cannot be reached. *)
Definition offline : World := started [].

Definition item_42 : JSval := VObj [prop "dbId" (str "42")].

(** The three answers of a state change that goes through. *)
Definition state_change_script : list Answer :=
  [answer 200 [] item_42; answer 200 [] item_42; answer 200 [] item_42].

(** A state change turned down with 422 at the Commit step. *)
Definition rejected_script : list Answer :=
  [answer 200 [] item_42; answer 200 [] item_42;
   answer 422 (js "No such action") VNull].

(** A component query that finds nothing. *)
Definition no_components_script : list Answer :=
  [answer 200 [] (VObj [prop "result_set_id" (str "rs-1")]);
   answer 200 [] (VObj [prop "rows" (VArr [])])].

Definition sprints_field : FieldInput :=
  mkField (js "Sprints") (js "Sprint1, Sprint2") (Some (js "REFERENCE_LIST")).

Definition due_field : FieldInput :=
  mkField (js "Due") (js "2025-01-31") (Some (js "DATE_TIME")).

Definition name_field : FieldInput :=
  mkField (js "Name") (js "R1") None.

Definition title_field : FieldInput :=
  mkField (js "Title") (js "Fix login") (Some (js "SHORT_STRING")).

(** The same sprints, written without the space. *)
Definition sprints_tight : FieldInput :=
  mkField (js "Sprints") (js "Sprint1,Sprint2") (Some (js "REFERENCE_LIST")).

(** A field set to the empty string. *)
Definition cleared_field : FieldInput :=
  mkField (js "Owner") [] (Some (js "SHORT_STRING")).

(** The first answer of a query: the result set is named. *)
Definition result_set_answer : Answer :=
  answer 200 [] (VObj [prop "result_set_id" (str "rs-1")]).

(** Two project rows, the second without a [displayName]. *)
Definition project_rows : list (list (jsstring * JSval)) :=
  [[prop "displayName" (str "Alpha")]; [prop "dbId" (str "7")]].

Definition projects_script : list Answer :=
  [result_set_answer; answer 200 [] (VObj [prop "rows" (VArr (map VObj project_rows))])].

(** Two project rows with their work item types at [values[2]]. *)
Definition type_lists : list jsstring :=
  [js "Task" ++ [newline] ++ js " Defect "; js "Epic"].

Definition type_rows : list (list (jsstring * JSval)) :=
  map (fun s => [prop "values" (VArr [str "P1"; str "Alpha"; VStr s])]) type_lists.

Definition types_script : list Answer :=
  [result_set_answer; answer 200 [] (VObj [prop "rows" (VArr (map VObj type_rows))])].

(** The databases, answered with status 500. *)
Definition application_rows : list (list (jsstring * JSval)) :=
  [[prop "dbId" (str "1"); prop "name" (str "tracker")]].

Definition applications_script : list Answer :=
  [answer 500 [] (VArr (map VObj application_rows))].

(** A work item created with a view URL. *)
Definition created_item : list (jsstring * JSval) :=
  [prop "dbId" (str "42"); prop "viewURL" (str "records/42")].

(** One work item whose two actions both lead from ["New"] to
    ["Active"] under the name ["Start"], the first naming ["New"] twice. *)
Definition start_action (sources : list string) : JSval :=
  VObj [prop "actionType" (str "_CHANGE_STATE"); prop "name" (str "Start");
        prop "actionDestStateName" (str "Active");
        prop "actionSourceStateNames" (VArr (map str sources))].

Definition repeated_actions : JSval :=
  VArr [VObj [prop "actions"
                (VArr [start_action ["New"; "New"]%string;
                       start_action ["New"; "Open"]%string])]].

(** ** Further vocabulary *)

(** The test of [stateTransitions[sourceState].find(...)]: [earlier] is
    an entry already listed, [later] the transition at hand. *)
Definition same_transition (earlier later : Transition) : bool :=
  strict_eq (origin_eqb (origin earlier) (origin later)) (action earlier) (action later)
  && strict_eq (origin_eqb (origin earlier) (origin later))
       (toState earlier) (toState later).

(** No entry of the list passes that test against a later one. *)
Fixpoint no_repeat (ts : list Transition) : Prop :=
  match ts with
  | [] => True
  | t :: rest => Forall (fun t' => same_transition t t' = false) rest /\ no_repeat rest
  end.

(** Every source state is listed once, with at least one transition and
    none repeated. *)
Definition well_formed_matrix (st : Transitions) : Prop :=
  NoDup (map fst st)
  /\ Forall (fun entry => snd entry <> [] /\ no_repeat (snd entry)) st.

(** An API request as [call] sends it, as an event. *)
Definition api_event (cookie : option jsstring) (m : Method) (u : jsstring)
    (accept payload : option jsstring) : Event :=
  Http (mkRequest m u (api_headers accept cookie) None payload).

(** A request that is either the one to the cookie endpoint or goes to
    the repository API with the JSON content type and the access token;
    a pause is neither. *)
Definition well_addressed (ev : Event) : Prop :=
  match ev with
  | Http r =>
      Http r = bootstrap
      \/ ((exists tail, url r = api tail)
          /\ In (js "Content-Type", js "application/json") (headers r)
          /\ In (js "Authorization", js "Basic " ++ personal_access_token_string)
               (headers r))
  | Sleep _ => True
  end.

(** *** The requests of [update_work_item] *)

Definition modify_event (cookie : option jsstring) (dbid application : jsstring)
    : Event :=
  api_event cookie PATCH
    (record_url application (js "WorkItem") dbid
       "?actionName=Modify&operation=Edit&useDbid=true")
    accept_json (Some (js "{}")).

Definition item_edit_event (cookie : option jsstring) (dbid application : jsstring)
    (fields : list FieldInput) : Event :=
  api_event cookie PATCH
    (record_url application (js "WorkItem") dbid "?operation=Edit&useDbid=true")
    accept_json
    (JSON_stringify (VObj [prop "fields" (VArr (map work_item_edit_field fields))])).

Definition item_commit_event (cookie : option jsstring) (dbid application : jsstring)
    (fields : list FieldInput) : Event :=
  api_event cookie PATCH
    (record_url application (js "WorkItem") dbid "?operation=Commit&useDbid=true")
    accept_json
    (JSON_stringify (VObj [prop "dbId" (VStr dbid);
                           prop "fields" (VArr (map work_item_commit_field fields))])).

Definition item_updated_text (dbid : jsstring) (fields : list FieldInput) : jsstring :=
  js "Work item " ++ dbid ++ js " updated successfully."
  ++ [newline; newline] ++ js "Updated fields:" ++ [newline]
  ++ join [newline] (map updated_line fields).

(** *** The requests of the other mutation tools *)

Definition delete_event (cookie : option jsstring) (dbid application : jsstring)
    : Event :=
  api_event cookie DELETE
    (record_url application (js "WorkItem") dbid "?actionName=Delete&useDbid=true")
    None None.

Definition work_item_post (cookie : option jsstring) (component : option jsstring)
    (title description workItemType application projectId : jsstring) : Event :=
  api_event cookie POST
    (api (js "/" ++ application
          ++ js "/records/WorkItem/?operation=Commit&useDbid=false"))
    accept_json
    (JSON_stringify (work_item_body component title description workItemType projectId)).

Definition sprint_edit_event (cookie : option jsstring) (application dbid : jsstring)
    (name startDate endDate : option jsstring) : Event :=
  api_event cookie PATCH
    (record_url application (js "Sprint") dbid "?operation=Edit&useDbid=true")
    None
    (JSON_stringify
       (VObj [prop "fields" (VArr (sprint_edit_fields name startDate endDate))])).

Definition sprint_commit_event (cookie : option jsstring) (application dbid : jsstring)
    (name startDate endDate : option jsstring) : Event :=
  api_event cookie PATCH
    (record_url application (js "Sprint") dbid "?operation=Commit&useDbid=true")
    None
    (JSON_stringify
       (VObj [prop "dbId" (VStr dbid);
              prop "fields" (VArr (sprint_commit_fields name startDate endDate))])).

Definition release_edit_event (cookie : option jsstring) (application dbid : jsstring)
    (f : FieldInput) : Event :=
  api_event cookie PATCH
    (record_url application (js "Release") dbid "?operation=Edit&useDbid=true")
    None (JSON_stringify (VObj [prop "fields" (VArr [release_edit_field f])])).

Definition release_commit_event (cookie : option jsstring) (application dbid : jsstring)
    (fields : list FieldInput) : Event :=
  api_event cookie PATCH
    (record_url application (js "Release") dbid "?operation=Commit&useDbid=true")
    None
    (JSON_stringify
       (VObj [prop "dbId" (VStr dbid);
              prop "fields" (VArr (map release_commit_field fields))])).

Definition entity_edit_event (cookie : option jsstring)
    (application entityType entityDbid : jsstring) (editFields : list JSval) : Event :=
  api_event cookie PATCH
    (record_url application entityType entityDbid "?operation=Edit&useDbid=true")
    None (JSON_stringify (VObj [prop "fields" (VArr editFields)])).

Definition entity_commit_event (cookie : option jsstring)
    (application entityType entityDbid : jsstring) (commitFields : list JSval)
    (commitPayloadExtras : list (jsstring * JSval)) : Event :=
  api_event cookie PATCH
    (record_url application entityType entityDbid "?operation=Commit&useDbid=true")
    None
    (JSON_stringify
       (VObj (set_prop (js "fields") (VArr commitFields) commitPayloadExtras))).

Definition nothing_to_update : jsstring :=
  js "Error updating sprint: At least one of name, startDate, or endDate must be provided for update".

(** The two requests of a query. *)
Definition query_post (cookie : option jsstring) (application : jsstring)
    (payload : JSval) : Event :=
  api_event cookie POST (api (js "/" ++ application ++ js "/query")) None
    (JSON_stringify payload).

Definition query_get (cookie : option jsstring) (application rs page : jsstring)
    : Event :=
  api_event cookie GET
    (api (js "/" ++ application ++ js "/query/" ++ rs ++ page)) None None.

(** * Properties *)

(** ** Strings *)

Lemma str_eqb_refl (s : jsstring) : str_eqb s s = true.
Proof. unfold str_eqb. destruct (list_eq_dec N.eq_dec s s); congruence. Qed.

Lemma str_eqb_eq (a b : jsstring) : str_eqb a b = true <-> a = b.
Proof.
  unfold str_eqb. destruct (list_eq_dec N.eq_dec a b); split; congruence.
Qed.

Lemma str_eqb_neq (a b : jsstring) : str_eqb a b = false <-> a <> b.
Proof.
  unfold str_eqb. destruct (list_eq_dec N.eq_dec a b); split; congruence.
Qed.

Lemma starts_with_app (p rest : jsstring) : starts_with p (p ++ rest) = true.
Proof.
  induction p as [|c p IH]; simpl; [reflexivity|].
  now rewrite N.eqb_refl, IH.
Qed.

Lemma includes_unfold (p h : jsstring) :
  includes p h = starts_with p h || match h with [] => false | _ :: h' => includes p h' end.
Proof. destruct h; reflexivity. Qed.

Lemma includes_app (p before rest : jsstring) :
  includes p (before ++ p ++ rest) = true.
Proof.
  induction before as [|c before IH]; simpl app.
  - rewrite includes_unfold, starts_with_app. reflexivity.
  - rewrite includes_unfold. simpl. rewrite IH. apply orb_true_r.
Qed.

Lemma split_not_nil (sep : N) (s : jsstring) : split sep s <> [].
Proof.
  induction s as [|c s IH]; simpl; [discriminate|].
  destruct (c =? sep); [discriminate|].
  destruct (split sep s); discriminate.
Qed.

Lemma join_cons (sep p : jsstring) (ps : list jsstring) :
  ps <> [] -> join sep (p :: ps) = p ++ sep ++ join sep ps.
Proof. destruct ps; [congruence|reflexivity]. Qed.

(** Joining the parts of a split by the separator gives the string back. *)
Lemma join_split (sep : N) (s : jsstring) : join [sep] (split sep s) = s.
Proof.
  induction s as [|c s IH]; [reflexivity|].
  simpl split. destruct (N.eqb_spec c sep) as [->|Hne].
  - rewrite join_cons by apply split_not_nil. simpl. now rewrite IH.
  - pose proof (split_not_nil sep s) as Hnil.
    destruct (split sep s) as [|p ps]; [congruence|].
    destruct ps as [|q qs].
    + simpl in *. now rewrite IH.
    + rewrite join_cons by discriminate.
      rewrite join_cons in IH by discriminate.
      simpl. now rewrite <- IH.
Qed.

Lemma split_parts_clean (sep : N) (s : jsstring) :
  Forall (fun p => ~ In sep p) (split sep s).
Proof.
  induction s as [|c s IH]; simpl.
  - constructor; [intros []|constructor].
  - destruct (N.eqb_spec c sep) as [->|Hne].
    + constructor; [intros []|exact IH].
    + destruct (split sep s) as [|p ps]; [constructor; [|constructor]|].
      * intros [H|[]]; congruence.
      * inversion IH; subst. constructor; [|assumption].
        intros [H|H]; [congruence|contradiction].
Qed.

Lemma split_clean (sep : N) (p : jsstring) : ~ In sep p -> split sep p = [p].
Proof.
  induction p as [|c p IH]; intros Hp; [reflexivity|].
  simpl. destruct (N.eqb_spec c sep) as [->|Hne].
  - exfalso. apply Hp. now left.
  - rewrite IH; [reflexivity|]. intros H. apply Hp. now right.
Qed.

Lemma split_app_sep (sep : N) (p rest : jsstring) :
  ~ In sep p -> split sep (p ++ sep :: rest) = p :: split sep rest.
Proof.
  induction p as [|c p IH]; intros Hp; simpl.
  - now rewrite N.eqb_refl.
  - destruct (N.eqb_spec c sep) as [->|Hne].
    + exfalso. apply Hp. now left.
    + rewrite IH; [reflexivity|]. intros H. apply Hp. now right.
Qed.

(** Splitting a join of separator-free parts gives the parts back. *)
Lemma split_join (sep : N) (parts : list jsstring) :
  parts <> [] -> Forall (fun p => ~ In sep p) parts ->
  split sep (join [sep] parts) = parts.
Proof.
  induction parts as [|p ps IH]; intros Hnil Hclean; [congruence|].
  inversion Hclean as [|? ? Hp Hps]; subst.
  destruct ps as [|q qs].
  - simpl. now apply split_clean.
  - rewrite join_cons by discriminate. simpl app.
    rewrite split_app_sep by assumption.
    f_equal. apply IH; [discriminate|assumption].
Qed.

Lemma trim_start_incl (c : N) (s : jsstring) : In c (trim_start s) -> In c s.
Proof.
  induction s as [|d s IH]; simpl; [tauto|].
  destruct (is_whitespace d); simpl; tauto.
Qed.

Lemma trim_incl (c : N) (s : jsstring) : In c (trim s) -> In c s.
Proof.
  unfold trim. intros H.
  apply in_rev, trim_start_incl, in_rev, trim_start_incl in H. exact H.
Qed.

Lemma reference_parts_clean (v : jsstring) :
  Forall (fun p => ~ In comma p) (reference_parts v).
Proof.
  unfold reference_parts. apply Forall_map.
  eapply Forall_impl; [|apply split_parts_clean].
  intros p Hp H. apply Hp. now apply trim_incl in H.
Qed.

(** A reference list reads back exactly when trimming changed nothing. *)
Lemma reference_parts_recover (v : jsstring) :
  join [comma] (reference_parts v) = v <-> reference_parts v = split comma v.
Proof.
  split; intros H.
  - rewrite <- H at 2. symmetry. apply split_join.
    + unfold reference_parts. pose proof (split_not_nil comma v).
      destruct (split comma v); [congruence|discriminate].
    + apply reference_parts_clean.
  - rewrite H. apply join_split.
Qed.

(** ** The opening block *)

(** [with_session] either hands over to the rest of the handler in
    [session_world], or returns the error object there. *)
Lemma with_session_eq (rest : M ToolReturn) (w : World) :
  with_session rest w =
  if session_ok w then rest (session_world w)
  else (Normal (RError (js "Failed to retrieve cookies.")), session_world w).
Proof.
  unfold with_session, session_ok, session_world, bind, read_cookies.
  destruct (cookie_falsy (globalCookies w)) eqn:Hc; simpl.
  - unfold getCookiesFromServer, try_catch, fetch, bind, emit, acquire. simpl.
    destruct (network w) as [|[r|m] tail]; simpl; try reflexivity.
    destruct (ok r); simpl; [|reflexivity].
    destruct (cookie_falsy (set_cookie r)) eqn:Hs; simpl; [reflexivity|].
    unfold write_cookies, ret. simpl. now rewrite Hs.
  - rewrite Hc. simpl. now destruct w.
Qed.

Lemma session_world_cached (w : World) :
  cookie_falsy (globalCookies w) = false -> session_world w = w.
Proof. unfold session_world. now intros ->. Qed.

Lemma session_ok_cached (w : World) :
  cookie_falsy (globalCookies w) = false -> session_ok w = true.
Proof.
  intros H. unfold session_ok. rewrite session_world_cached by exact H.
  now rewrite H.
Qed.

(** ** Rules for [yields] *)

Lemma yields_ret {A} (Q : A -> Prop) (a : A) : Q a -> yields Q (ret a).
Proof. intros H w a' w' E. inversion E. now subst. Qed.

Lemma yields_throw {A} (Q : A -> Prop) (e : Exn) : yields Q (throw e).
Proof. intros w a w' E. discriminate. Qed.

Lemma yields_bind {A B} (Q : B -> Prop) (m : M A) (f : A -> M B) :
  (forall a, yields Q (f a)) -> yields Q (bind m f).
Proof.
  intros H w b w' E. unfold bind in E.
  destruct (m w) as [[a|e] w1]; [|discriminate]. eapply H, E.
Qed.

(** ** Rules for [emits] *)

Section Emits.

Variable I : option jsstring -> Prop.
Variable P : Event -> Prop.

Lemma emits_ret {A} (a : A) : emits I P (ret a).
Proof.
  intros w Hw. split; [exact Hw|]. exists []. now rewrite app_nil_r.
Qed.

Lemma emits_throw {A} (e : Exn) : emits I P (@throw A e).
Proof.
  intros w Hw. split; [exact Hw|]. exists []. now rewrite app_nil_r.
Qed.

Lemma emits_lift {A} (c : Completion A) : emits I P (lift c).
Proof.
  intros w Hw. split; [exact Hw|]. exists []. now rewrite app_nil_r.
Qed.

Lemma emits_bind {A B} (m : M A) (f : A -> M B) :
  emits I P m -> (forall a, emits I P (f a)) -> emits I P (bind m f).
Proof.
  intros Hm Hf w Hw. unfold bind.
  destruct (Hm w Hw) as [Hi [evs [Ht Hp]]].
  destruct (m w) as [[a|e] w1]; simpl in *.
  - destruct (Hf a w1 Hi) as [Hi2 [evs2 [Ht2 Hp2]]].
    split; [exact Hi2|]. exists (evs ++ evs2).
    rewrite Ht2, Ht, app_assoc. split; [reflexivity|].
    apply Forall_app. now split.
  - split; [exact Hi|]. now exists evs.
Qed.

Lemma emits_try_catch {A} (body : M A) (h : Exn -> M A) :
  emits I P body -> (forall e, emits I P (h e)) -> emits I P (try_catch body h).
Proof.
  intros Hm Hf w Hw. unfold try_catch.
  destruct (Hm w Hw) as [Hi [evs [Ht Hp]]].
  destruct (body w) as [[a|e] w1]; simpl in *.
  - split; [exact Hi|]. now exists evs.
  - destruct (Hf e w1 Hi) as [Hi2 [evs2 [Ht2 Hp2]]].
    split; [exact Hi2|]. exists (evs ++ evs2).
    rewrite Ht2, Ht, app_assoc. split; [reflexivity|].
    apply Forall_app. now split.
Qed.

Lemma emits_for_each {A} (l : list A) (f : A -> M unit) :
  (forall x, emits I P (f x)) -> emits I P (for_each l f).
Proof.
  intros Hf. induction l as [|x l IH]; simpl.
  - apply emits_ret.
  - apply emits_bind; [apply Hf|]. intros _. exact IH.
Qed.

Lemma emits_emit (ev : Event) : P ev -> emits I P (emit ev).
Proof.
  intros Hev w Hw. split; [exact Hw|]. exists [ev]. split; [reflexivity|].
  now constructor.
Qed.

Lemma emits_fetch (req : Request) : P (Http req) -> emits I P (fetch req).
Proof.
  intros Hev. unfold fetch. apply emits_bind; [now apply emits_emit|].
  intros _ w Hw.
  destruct (network w) as [|[r|m] tail]; simpl;
    (split; [exact Hw|]; exists []; now rewrite app_nil_r).
Qed.

Lemma emits_sleep (ms : N) : P (Sleep ms) -> emits I P (sleep ms).
Proof. apply emits_emit. Qed.

Lemma emits_call (m : Method) (u : jsstring) (accept payload : option jsstring) :
  (forall c, I c -> P (Http (mkRequest m u (api_headers accept c) None payload))) ->
  emits I P (call m u accept payload).
Proof.
  intros H w Hw. unfold call, bind, read_cookies.
  apply (emits_fetch _ (H _ Hw) w Hw).
Qed.

End Emits.

(** ** The tool boundary *)

Create HintDb handlers.
#[local] Hint Unfold
  get_available_projects get_available_projects_body
  get_available_components get_available_components_body
  get_sprints get_releases rows_or_fail
  create_or_update_sprint create_or_update_sprint_body
  create_or_update_release create_or_update_release_body
  get_available_workitem_types create_work_item get_work_items
  delete_work_item update_work_item update_work_item_body
  get_applications get_available_states
  change_work_item_state change_work_item_state_body
  throw_status : handlers.

Ltac yields_step :=
  first
    [ apply yields_bind; intros
    | apply yields_throw
    | apply yields_ret; eexists; reflexivity
    | match goal with
      | |- yields _ (if ?b then _ else _) => destruct b
      | |- yields _ (match ?x with _ => _ end) => destruct x
      end ].

(** A handler of the common shape settles normally: with the error
    object when no cookie can be had, with what its body or its [catch]
    block returns otherwise. *)
Lemma guarded_total (body : M ToolReturn) (h : Exn -> M ToolReturn) (w : World) :
  (forall e, exists r, h e = ret r) ->
  exists r w', try_catch (with_session body) h w = (Normal r, w')
    /\ (session_ok w = false -> r = RError (js "Failed to retrieve cookies.")).
Proof.
  intros Hh. unfold try_catch. rewrite with_session_eq.
  destruct (session_ok w).
  - destruct (body (session_world w)) as [[a|e] w1].
    + exists a, w1. split; [reflexivity|discriminate].
    + destruct (Hh e) as [r ->]. exists r, w1. split; [reflexivity|discriminate].
  - eexists _, _. split; [reflexivity|reflexivity].
Qed.

Lemma guarded_text (body : M ToolReturn) (h : Exn -> M ToolReturn) (w : World) :
  yields single_text body ->
  (forall e, exists t, h e = ret (text_result t)) ->
  exists r w', try_catch (with_session body) h w = (Normal r, w')
    /\ (session_ok w = false -> r = RError (js "Failed to retrieve cookies."))
    /\ (session_ok w = true -> single_text r).
Proof.
  intros Hb Hh. unfold try_catch. rewrite with_session_eq.
  destruct (session_ok w).
  - destruct (body (session_world w)) as [[a|e] w1] eqn:E.
    + exists a, w1. repeat split; [discriminate|]. intros _. eapply Hb, E.
    + destruct (Hh e) as [t ->]. exists (text_result t), w1.
      repeat split; [discriminate|]. intros _. now exists t.
  - eexists _, _. repeat split. discriminate.
Qed.

Ltac boundary :=
  autounfold with handlers;
  apply guarded_text;
  [ repeat yields_step
  | intros e; try (eexists; reflexivity) ].

(** C3, as the code has it. No handler raises past the tool boundary.
    It returns the object [{ error: "Failed to retrieve cookies." }],
    which has no content, when no session cookie can be had; otherwise
    every handler other than [get_available_components] returns a result
    whose content is one text item. *)
Theorem tool_boundary (i : Invocation) (w : World) :
  exists r w', handler i w = (Normal r, w')
    /\ (session_ok w = false -> r = RError (js "Failed to retrieve cookies."))
    /\ (session_ok w = true ->
        (forall a p, i <> Get_available_components a p) -> single_text r).
Proof.
  assert (weaken : forall (m : M ToolReturn),
    (exists r w', m w = (Normal r, w')
       /\ (session_ok w = false -> r = RError (js "Failed to retrieve cookies."))
       /\ (session_ok w = true -> single_text r)) ->
    exists r w', m w = (Normal r, w')
       /\ (session_ok w = false -> r = RError (js "Failed to retrieve cookies."))
       /\ (session_ok w = true ->
           (forall a p, i <> Get_available_components a p) -> single_text r)).
  { intros m (r & w' & E & He & Ht). exists r, w'. repeat split; auto. }
  destruct i; simpl handler.
  2: { autounfold with handlers.
       match goal with
       | |- context [try_catch (with_session ?b) ?h w] =>
           destruct (guarded_total b h w) as (r & w' & E & He)
       end.
       { intros e. eexists. reflexivity. }
       exists r, w'. split; [exact E|]. split; [exact He|].
       intros _ Hne. exfalso. now apply (Hne application projectId). }
  all: apply weaken; boundary.
  destruct (includes (js "status 400") (message e)
            || includes (js "status 422") (message e));
    eexists; reflexivity.
Qed.

(** ** Session reuse *)

Lemma api_not_cookie_url (tail : jsstring) : api tail <> cookie_url.
Proof.
  unfold api, cookie_url. intros H. apply app_inv_head in H.
  simpl in H. discriminate H.
Qed.

Lemma cookie_header_in (accept : option jsstring) (c : jsstring) :
  In (js "Cookie", c) (api_headers accept (Some c)).
Proof.
  unfold api_headers. right. apply in_or_app. right. right. now left.
Qed.

Lemma carries_api (c : jsstring) (m : Method) (tail : jsstring)
    (accept payload : option jsstring) (c' : option jsstring) :
  Some c = c' ->
  carries c (Http (mkRequest m (api tail) (api_headers accept c') None payload)).
Proof.
  intros <-. split; [apply api_not_cookie_url|apply cookie_header_in].
Qed.

Lemma carries_not_bootstrap (c : jsstring) (ev : Event) :
  carries c ev -> is_bootstrap ev = false.
Proof.
  destruct ev as [r|ms]; simpl; [|reflexivity].
  intros [H _]. now apply str_eqb_neq.
Qed.

Lemma skipn_app_exact {A} (l l' : list A) : skipn (List.length l) (l ++ l') = l'.
Proof. induction l; simpl; auto. Qed.

Lemma emits_with_session (c : jsstring) (P : Event -> Prop) (rest : M ToolReturn) :
  c <> [] -> emits (eq (Some c)) P rest -> emits (eq (Some c)) P (with_session rest).
Proof.
  intros Hc Hr w Hw. rewrite with_session_eq.
  assert (Hf : cookie_falsy (globalCookies w) = false).
  { rewrite <- Hw. destruct c; [congruence|reflexivity]. }
  rewrite session_ok_cached, session_world_cached by exact Hf.
  now apply Hr.
Qed.

#[local] Hint Unfold run_query create_record edit_record commit_record
  release_edit_step record_url text json : handlers.

Ltac emits_step :=
  first
    [ apply emits_call; intros; apply carries_api; assumption
    | apply emits_sleep; exact I
    | apply emits_for_each; intros; autounfold with handlers
    | apply emits_ret
    | apply emits_throw
    | apply emits_lift
    | apply emits_bind; [|intros]
    | match goal with
      | |- emits _ _ (if ?b then _ else _) => destruct b
      | |- emits _ _ (match ?x with _ => _ end) => destruct x
      end ].

(** With a cookie cached, a handler leaves it as it is and sends it with
    every request it makes, none of which goes to the cookie endpoint. *)
Lemma handler_steady (i : Invocation) (c : jsstring) :
  c <> [] -> emits (eq (Some c)) (carries c) (handler i).
Proof.
  intros Hc. destruct i; simpl handler; autounfold with handlers; cbv zeta;
    (apply emits_try_catch;
     [ apply emits_with_session; [exact Hc|]; repeat emits_step
     | intros e; repeat emits_step ]).
Qed.

Lemma require_session_steady (c : jsstring) (P : Event -> Prop) :
  c <> [] -> emits (eq (Some c)) P require_session.
Proof.
  intros Hc w Hw. unfold require_session, bind, read_cookies.
  rewrite <- Hw. destruct c; [congruence|]. simpl.
  split; [exact Hw|]. exists []. now rewrite app_nil_r.
Qed.

(** The same holds of the shared helper [_updateEntity]. *)
Lemma updateEntity_steady (application entityType entityDbid : jsstring)
    (editFields commitFields : list JSval)
    (commitPayloadExtras : list (jsstring * JSval)) (c : jsstring) :
  c <> [] ->
  emits (eq (Some c)) (carries c)
    (_updateEntity application entityType entityDbid editFields commitFields
       commitPayloadExtras).
Proof.
  intros Hc. unfold _updateEntity.
  apply emits_bind; [now apply require_session_steady|]. intros _.
  autounfold with handlers. repeat emits_step.
Qed.

(** Once the opening block has found a cookie, the handler runs as if
    started in [session_world]. *)
Lemma handler_session (i : Invocation) (w : World) :
  session_ok w = true -> handler i w = handler i (session_world w).
Proof.
  intros Hok.
  assert (Hf : cookie_falsy (globalCookies (session_world w)) = false).
  { unfold session_ok in Hok. now destruct (cookie_falsy _). }
  destruct i; simpl handler; autounfold with handlers; unfold try_catch;
    rewrite !with_session_eq, Hok,
      (session_ok_cached _ Hf), (session_world_cached _ Hf); reflexivity.
Qed.

(** C5. Two tool invocations in a row, the first of which finds no
    cached cookie and gets one, [c], from the cookie endpoint: the pair
    makes exactly one call to the cookie endpoint, [globalCookies] is [c]
    after each of them, and every request of the second invocation carries
    [c] as its [Cookie] header. *)
Theorem session_idempotent (i1 i2 : Invocation) (w : World)
    (r : Response) (rest : list Answer) (c : jsstring) :
  cookie_falsy (globalCookies w) = true ->
  network w = Responds r :: rest ->
  ok r = true -> set_cookie r = Some c -> c <> [] ->
  let w1 := snd (handler i1 w) in
  let w2 := snd (handler i2 w1) in
  bootstrap_calls (issued w w2) = 1%nat
  /\ globalCookies w1 = Some c
  /\ globalCookies w2 = Some c
  /\ Forall (carries c) (issued w1 w2).
Proof.
  intros Hfalsy Hnet Hok Hset Hc w1 w2.
  assert (Hsw : session_world w = mkWorld (Some c) (trace w ++ [bootstrap]) rest).
  { unfold session_world, acquire. rewrite Hfalsy, Hnet, Hok, Hset. simpl.
    destruct c; [congruence|reflexivity]. }
  assert (Hsok : session_ok w = true).
  { unfold session_ok. rewrite Hsw. simpl. destruct c; [congruence|reflexivity]. }
  assert (E1 : w1 = snd (handler i1 (session_world w))).
  { unfold w1. now rewrite handler_session. }
  destruct (handler_steady i1 c Hc (session_world w)) as [Hc1 [evs1 [Ht1 Hp1]]].
  { now rewrite Hsw. }
  rewrite <- E1 in Hc1, Ht1.
  destruct (handler_steady i2 c Hc w1 Hc1) as [Hc2 [evs2 [Ht2 Hp2]]].
  fold w2 in Hc2, Ht2.
  repeat split; try congruence.
  - unfold issued, bootstrap_calls. rewrite Ht2, Ht1, Hsw. simpl trace.
    rewrite <- !app_assoc, skipn_app_exact. simpl.
    rewrite str_eqb_refl. simpl. f_equal.
    rewrite filter_app, length_app.
    assert (Hnone : forall evs, Forall (carries c) evs -> filter is_bootstrap evs = []).
    { induction 1 as [|ev evs Hev _ IH]; simpl; [reflexivity|].
      now rewrite (carries_not_bootstrap _ _ Hev). }
    now rewrite (Hnone _ Hp1), (Hnone _ Hp2).
  - unfold issued. rewrite Ht2, skipn_app_exact. exact Hp2.
Qed.

(** ** [get_available_components] *)

Ltac run :=
  cbv [run_query call fetch emit sleep read_cookies json text lift ret throw
       throw_status bind network trace globalCookies negb fst snd].

(** C7. When the query names a result set and the page answer is an
    object whose [rows] is an empty array, [get_available_components]
    returns the text [Components retrieved: []] and no error. *)
Theorem components_empty_rows (application projectId : jsstring) (w : World)
    (q p : Response) (rest : list Answer)
    (queryData resultSetId : JSval) (rs : jsstring)
    (page : list (jsstring * JSval)) :
  session_ok w = true ->
  network (session_world w) = Responds q :: Responds p :: rest ->
  body_json q = Normal queryData ->
  get_prop queryData (js "result_set_id") = Normal resultSetId ->
  truthy resultSetId = true ->
  to_string resultSetId = Normal rs ->
  body_json p = Normal (VObj page) ->
  lookup (js "rows") page = VArr [] ->
  fst (get_available_components application projectId w)
  = Normal (text_result (js "Components retrieved: []")).
Proof.
  intros Hok Hnet Hq Hid Htruthy Hrs Hp Hrows.
  unfold get_available_components, get_available_components_body, try_catch.
  rewrite with_session_eq, Hok.
  destruct (session_world w) as [c tr net]. simpl in Hnet. subst net.
  run. rewrite Hq, Hid, Htruthy. run. rewrite Hrs. run. rewrite Hp.
  unfold and_prop. cbn [truthy get_prop]. rewrite Hrows. reflexivity.
Qed.

(** C10, as the code has it. Whenever the body of
    [get_available_components] throws, and so in each of the named ways
    for the query to break, the handler returns the text
    ['Components retrieved: "[]"']; when no session cookie can be had it
    returns the object [{ error: "Failed to retrieve cookies." }]. *)
Theorem components_failure_masked (application projectId : jsstring) (w : World) :
  (forall e w',
      get_available_components_body application projectId w = (Thrown e, w') ->
      get_available_components application projectId w
      = (Normal (text_result quoted_empty_list), w'))
  /\ (session_ok w = true -> query_breaks (session_world w) ->
      fst (get_available_components application projectId w)
      = Normal (text_result quoted_empty_list))
  /\ (session_ok w = false ->
      fst (get_available_components application projectId w)
      = Normal (RError (js "Failed to retrieve cookies."))).
Proof.
  split; [|split].
  - intros e w' E. unfold get_available_components, try_catch. now rewrite E.
  - intros Hok Hbreak.
    unfold get_available_components, get_available_components_body, try_catch.
    rewrite with_session_eq, Hok.
    destruct (session_world w) as [c tr net].
    destruct Hbreak as [Hnet|msg rest Hnet|q rest e Hnet Hq
                       |q rest qd rsid Hnet Hq Hid Hfalsy
                       |q rest qd rsid rs msg Hnet Hq Hid Htruthy Hrs
                       |q p rest qd rsid rs e Hnet Hq Hid Htruthy Hrs Hp];
      simpl in Hnet; subst net; run.
    + reflexivity.
    + reflexivity.
    + rewrite Hq. reflexivity.
    + rewrite Hq, Hid, Hfalsy. reflexivity.
    + rewrite Hq, Hid, Htruthy. run. rewrite Hrs. reflexivity.
    + rewrite Hq, Hid, Htruthy. run. rewrite Hrs. run. rewrite Hp. reflexivity.
  - intros Hok.
    unfold get_available_components, get_available_components_body, try_catch.
    now rewrite with_session_eq, Hok.
Qed.

(** ** [change_work_item_state] *)

Lemma includes_inside (p hay before rest : jsstring) :
  hay = before ++ p ++ rest -> includes p hay = true.
Proof. intros ->. apply includes_app. Qed.

Lemma rejection_classified (what : jsstring) (code : N) (errorText : jsstring) :
  what = js "Movement request failed with status "
  \/ what = js "Commit request failed with status " ->
  code = 400 \/ code = 422 ->
  includes (js "status 400") (what ++ N_to_dec code ++ js ": " ++ errorText)
  || includes (js "status 422") (what ++ N_to_dec code ++ js ": " ++ errorText)
  = true.
Proof.
  intros [-> | ->] [-> | ->]; apply orb_true_iff; [left|right|left|right].
  - now eapply includes_inside with (before := js "Movement request failed with ").
  - now eapply includes_inside with (before := js "Movement request failed with ").
  - now eapply includes_inside with (before := js "Commit request failed with ").
  - now eapply includes_inside with (before := js "Commit request failed with ").
Qed.

(** C8. When the server answers the action step or the Commit step of
    [change_work_item_state] with status 400 or 422, the handler returns
    the state-transition message, not the generic one, and that text
    contains both the [dbid] and the target state it was called with. *)
Theorem invalid_transition_message (dbid application targetState : jsstring)
    (w : World) (code : N) (errorText what : jsstring) :
  session_ok w = true ->
  code = 400 \/ code = 422 ->
  transition_rejected (session_world w) code errorText what ->
  let shown :=
    transition_error_text dbid targetState
      (what ++ N_to_dec code ++ js ": " ++ errorText) in
  fst (change_work_item_state dbid application targetState w)
  = Normal (text_result shown)
  /\ includes dbid shown = true
  /\ includes targetState shown = true.
Proof.
  intros Hok Hcode Hrej shown. split; [|split].
  - unfold change_work_item_state, change_work_item_state_body, try_catch.
    rewrite with_session_eq, Hok.
    destruct (session_world w) as [ck tr net].
    assert (Hbad : forall r, status r = code -> ok r = false).
    { intros r Hr. unfold ok. rewrite Hr. now destruct Hcode as [-> | ->]. }
    destruct Hrej as [g m current rest Hnet Hg Hgj Hm Hmt
                     |g m c current md movedId rest Hnet Hg Hgj Hm Hmj Hid Hc Hct];
      simpl in Hnet; subst net; run.
    + rewrite Hg, Hgj. run. rewrite (Hbad m Hm), Hmt, Hm. run.
      unfold message, failed, Error.
      rewrite rejection_classified by auto. reflexivity.
    + rewrite Hg, Hgj. run. rewrite Hm, Hmj. run. rewrite Hid. run.
      rewrite (Hbad c Hc), Hct, Hc. run.
      unfold message, failed, Error.
      rewrite rejection_classified by auto. reflexivity.
  - unfold shown, transition_error_text.
    eapply includes_inside with
      (before := js "State transition error: The transition from current state to '"
                 ++ targetState ++ js "' may not be valid for work item ").
    rewrite <- !app_assoc. reflexivity.
  - unfold shown, transition_error_text.
    eapply includes_inside with
      (before := js "State transition error: The transition from current state to '").
    reflexivity.
Qed.

(** *** Reading a normal completion backwards *)

Lemma bind_inv {A B} (m : M A) (f : A -> M B) (w w2 : World) (b : B) :
  bind m f w = (Normal b, w2) ->
  exists a w1, m w = (Normal a, w1) /\ f a w1 = (Normal b, w2).
Proof.
  unfold bind. destruct (m w) as [[a|e] w1]; [|discriminate].
  intros H. now exists a, w1.
Qed.

Lemma call_inv (m : Method) (u : jsstring) (accept payload : option jsstring)
    (w w1 : World) (r : Response) :
  call m u accept payload w = (Normal r, w1) ->
  exists rest,
    network w = Responds r :: rest
    /\ w1 = mkWorld (globalCookies w)
              (trace w ++ [Http (mkRequest m u (api_headers accept (globalCookies w))
                                   None payload)])
              rest.
Proof.
  destruct w as [ck tr net]. run.
  destruct net as [|[r'|msg] tail]; try discriminate.
  intros H. inversion H; subst. eexists. split; reflexivity.
Qed.

Lemma checked_json_inv (what sep : string) (r : Response) (w w1 : World) (v : JSval) :
  (if negb (ok r) then throw_status what sep r else json r) w = (Normal v, w1) ->
  ok r = true /\ body_json r = Normal v /\ w1 = w.
Proof.
  destruct (ok r); run.
  - intros H. inversion H. auto.
  - destruct (body_text r); discriminate.
Qed.

Lemma lift_inv {A} (c : Completion A) (w w1 : World) (a : A) :
  lift c w = (Normal a, w1) -> c = Normal a /\ w1 = w.
Proof. unfold lift. intros H. inversion H. auto. Qed.

Lemma session_world_trace (w : World) :
  trace (session_world w)
  = trace w ++ (if cookie_falsy (globalCookies w) then [bootstrap] else []).
Proof.
  unfold session_world. destruct (cookie_falsy (globalCookies w)); simpl.
  - reflexivity.
  - now rewrite app_nil_r.
Qed.

(** C4, as the code has it. A successful [change_work_item_state] issues,
    after the one call to the cookie endpoint it makes when no cookie is
    cached, exactly this: the GET of the work item, the PATCH naming the
    action with body [{}], a pause of 1000 ms, and the Commit PATCH whose
    [fields] list is empty. With a cookie cached these are its only three
    HTTP calls. *)
Theorem state_change_calls (dbid application targetState : jsstring) (w : World) :
  state_change_succeeded dbid application targetState w ->
  let w' := snd (change_work_item_state dbid application targetState w) in
  let cookie := globalCookies (session_world w) in
  (exists movedId,
      issued w w'
      = (if cookie_falsy (globalCookies w) then [bootstrap] else [])
        ++ [Http (current_item_request cookie dbid application);
            Http (movement_request cookie dbid application targetState);
            Sleep 1000;
            Http (state_commit_request cookie dbid application movedId)])
  /\ (cookie_falsy (globalCookies w) = false ->
      List.length (http_calls (issued w w')) = 3%nat).
Proof.
  intros Hs w' cookie. unfold state_change_succeeded in Hs.
  assert (Hex : exists movedId,
      issued w w'
      = (if cookie_falsy (globalCookies w) then [bootstrap] else [])
        ++ [Http (current_item_request cookie dbid application);
            Http (movement_request cookie dbid application targetState);
            Sleep 1000;
            Http (state_commit_request cookie dbid application movedId)]).
  { subst w' cookie. revert Hs.
    unfold change_work_item_state, change_work_item_state_body, try_catch.
    rewrite with_session_eq.
    destruct (session_ok w); [|discriminate].
    pose proof (session_world_trace w) as Htr.
    match goal with
    | |- context [match ?k (session_world w) with _ => _ end] =>
        destruct (k (session_world w)) as [[r|e] w2] eqn:E
    end.
    2: { intros H. exfalso.
         destruct (includes (js "status 400") (message e)
                   || includes (js "status 422") (message e));
           inversion H. }
    intros _. simpl snd.
    apply bind_inv in E. destruct E as (g & w3 & Hg & E).
    apply call_inv in Hg. destruct Hg as (rest1 & _ & ->).
    apply bind_inv in E. destruct E as (gd & w4 & Hgd & E).
    apply checked_json_inv in Hgd. destruct Hgd as (_ & _ & ->).
    apply bind_inv in E. destruct E as (m & w5 & Hm & E).
    apply call_inv in Hm. destruct Hm as (rest2 & _ & ->).
    apply bind_inv in E. destruct E as (md & w6 & Hmd & E).
    apply checked_json_inv in Hmd. destruct Hmd as (_ & _ & ->).
    apply bind_inv in E. destruct E as (u & w7 & Hsl & E).
    unfold sleep, emit in Hsl. inversion Hsl; subst w7. clear Hsl.
    apply bind_inv in E. destruct E as (movedId & w8 & Hid & E).
    apply lift_inv in Hid. destruct Hid as (_ & ->).
    apply bind_inv in E. destruct E as (c & w9 & Hc & E).
    apply call_inv in Hc. destruct Hc as (rest3 & _ & ->).
    apply bind_inv in E. destruct E as (cd & w10 & Hcd & E).
    apply checked_json_inv in Hcd. destruct Hcd as (_ & _ & ->).
    unfold ret in E. inversion E; subst w2.
    exists movedId. unfold issued. simpl trace. rewrite Htr.
    rewrite <- !app_assoc, skipn_app_exact. reflexivity. }
  split; [exact Hex|].
  intros Hc. destruct Hex as [movedId ->]. rewrite Hc. reflexivity.
Qed.

(** ** Creating a sprint or a release *)

Lemma bind_assoc {A B C} (m : M A) (f : A -> M B) (g : B -> M C) (w : World) :
  bind (bind m f) g w = bind m (fun a => bind (f a) g) w.
Proof. unfold bind. now destruct (m w) as [[a|e] w1]. Qed.

(** A computation that begins with an API call issues that request first,
    and then whatever its continuation issues. *)
Lemma call_then {B} (P : Event -> Prop) (m : Method) (u : jsstring)
    (accept payload : option jsstring) (k : Response -> M B) (w : World) :
  (forall r, emits (fun _ => True) P (k r)) ->
  exists tail,
    trace (snd (bind (call m u accept payload) k w))
    = trace w ++ Http (mkRequest m u (api_headers accept (globalCookies w))
                         None payload) :: tail
    /\ Forall P tail.
Proof.
  intros Hk. destruct w as [ck tr net]. unfold bind at 1.
  destruct net as [|[r|msg] rest].
  - exists []. split; [reflexivity|constructor].
  - change (call m u accept payload (mkWorld ck tr (Responds r :: rest)))
      with (Normal r,
            mkWorld ck (tr ++ [Http (mkRequest m u (api_headers accept ck)
                                       None payload)]) rest).
    cbv iota beta.
    match goal with
    | |- context [k r ?w1] => destruct (Hk r w1 I) as [_ [evs [Ht Hp]]]
    end.
    exists evs. rewrite Ht. simpl. rewrite <- app_assoc. now split.
  - exists []. split; [reflexivity|constructor].
Qed.

Lemma catch_ret_trace {A} (body : M A) (h : Exn -> A) (w : World) :
  trace (snd (try_catch body (fun e => ret (h e)) w)) = trace (snd (body w)).
Proof. unfold try_catch, ret. now destruct (body w) as [[a|e] w1]. Qed.

Lemma patch_call (u : jsstring) (accept payload c : option jsstring) :
  is_patch (Http (mkRequest PATCH u (api_headers accept c) None payload)).
Proof. reflexivity. Qed.

Ltac patches_step :=
  first
    [ apply emits_call; intros; apply patch_call
    | apply emits_for_each; intros; autounfold with handlers
    | apply emits_ret
    | apply emits_throw
    | apply emits_lift
    | apply emits_bind; [|intros]
    | match goal with
      | |- emits _ _ (if ?b then _ else _) => destruct b
      | |- emits _ _ (match ?x with _ => _ end) => destruct x
      end ].

Lemma patches_no_posts (evs : list Event) :
  Forall is_patch evs -> filter (has_method POST) evs = [].
Proof.
  induction 1 as [|ev evs Hev _ IH]; [reflexivity|].
  simpl. rewrite IH.
  destruct ev as [r|ms]; [|reflexivity].
  unfold is_patch in Hev. simpl in *. now destruct (method r).
Qed.

(** A handler that, once it has a session, begins with [create_record]
    issues the create POST first and only PATCHes after it. *)
Lemma create_first (application : jsstring) (entity : string)
    (rest : JSval -> M ToolReturn) (h : Exn -> ToolReturn) (w : World) :
  session_ok w = true ->
  (forall v, emits (fun _ => True) is_patch (rest v)) ->
  exists tail,
    issued w (snd (try_catch (with_session (bind (create_record application entity) rest))
                     (fun e => ret (h e)) w))
    = (if cookie_falsy (globalCookies w) then [bootstrap] else [])
      ++ Http (create_request (globalCookies (session_world w)) application entity)
      :: tail
    /\ Forall is_patch tail
    /\ posts (issued w (snd (try_catch
                               (with_session (bind (create_record application entity) rest))
                               (fun e => ret (h e)) w)))
       = 1%nat.
Proof.
  intros Hok Hrest. unfold issued. rewrite catch_ret_trace, with_session_eq, Hok.
  unfold create_record. rewrite bind_assoc.
  match goal with
  | |- context [bind (call ?m ?u ?a ?p) ?k (session_world w)] =>
      destruct (call_then is_patch m u a p k (session_world w)) as [tail [Ht Hp]]
  end.
  { intros r. autounfold with handlers. repeat patches_step; apply Hrest. }
  exists tail. rewrite Ht, session_world_trace, <- app_assoc, skipn_app_exact.
  split; [reflexivity|]. split; [exact Hp|].
  unfold posts. rewrite filter_app, length_app. simpl.
  rewrite (patches_no_posts _ Hp).
  now destruct (cookie_falsy (globalCookies w)).
Qed.

(** A handler that throws right after its opening block issues nothing
    but the possible call to the cookie endpoint. *)
Lemma nothing_issued {A} (e0 : Exn) (k : A -> M ToolReturn)
    (h : Exn -> ToolReturn) (w : World) :
  issued w (snd (try_catch (with_session (bind (throw e0) k))
                   (fun e => ret (h e)) w))
  = if cookie_falsy (globalCookies w) then [bootstrap] else [].
Proof.
  unfold issued. rewrite catch_ret_trace, with_session_eq.
  destruct (session_ok w); unfold bind, throw; simpl snd;
    now rewrite session_world_trace, skipn_app_exact.
Qed.

Lemma no_session_issued (body : M ToolReturn) (h : Exn -> ToolReturn) (w : World) :
  session_ok w = false ->
  issued w (snd (try_catch (with_session body) (fun e => ret (h e)) w))
  = if cookie_falsy (globalCookies w) then [bootstrap] else [].
Proof.
  intros Hok. unfold issued. rewrite catch_ret_trace, with_session_eq, Hok.
  simpl snd. now rewrite session_world_trace, skipn_app_exact.
Qed.

(** C6, as the code has it. An invocation of [create_or_update_sprint]
    or [create_or_update_release] without a [dbid] that has a session
    cookie and a name to give issues exactly one POST, with the body
    [{"fields":[]}] and [operation=Edit], as its first request to the
    repository; whatever follows it, each Edit and the Commit, is a PATCH.
    Without a session cookie or without a name it issues no request to the
    repository at all. *)
Theorem create_post_first :
  (forall (application : jsstring) (sprintDbid name startDate endDate : option jsstring)
          (w : World),
      absent sprintDbid = true ->
      let w' := snd (create_or_update_sprint application sprintDbid name
                       startDate endDate w) in
      let opening := if cookie_falsy (globalCookies w) then [bootstrap] else [] in
      (session_ok w = true -> absent name = false ->
       exists tail,
         issued w w'
         = opening
           ++ Http (create_request (globalCookies (session_world w)) application "Sprint")
           :: tail
         /\ Forall is_patch tail
         /\ posts (issued w w') = 1%nat)
      /\ (session_ok w = false \/ absent name = true -> issued w w' = opening))
  /\ (forall (application : jsstring) (releaseDbid : option jsstring)
             (fields : list FieldInput) (w : World),
      absent releaseDbid = true ->
      let w' := snd (create_or_update_release application releaseDbid fields w) in
      let opening := if cookie_falsy (globalCookies w) then [bootstrap] else [] in
      (session_ok w = true -> has_name fields = true ->
       exists tail,
         issued w w'
         = opening
           ++ Http (create_request (globalCookies (session_world w)) application "Release")
           :: tail
         /\ Forall is_patch tail
         /\ posts (issued w w') = 1%nat)
      /\ (session_ok w = false \/ has_name fields = false -> issued w w' = opening))
  /\ (forall cookie application entity,
      body (create_request cookie application entity)
      = Some (js "{" ++ [dquote] ++ js "fields" ++ [dquote] ++ js ":[]}")).
Proof.
  split; [|split].
  - intros application sprintDbid name startDate endDate w Hd w' opening.
    subst w' opening.
    unfold create_or_update_sprint, create_or_update_sprint_body.
    cbv zeta. rewrite Hd. split.
    + intros Hok Hn. rewrite Hn. cbv iota.
      apply create_first; [exact Hok|].
      intros v. autounfold with handlers. repeat patches_step.
    + intros [Hok|Hn].
      * now apply no_session_issued.
      * rewrite Hn. cbv iota. apply nothing_issued.
  - intros application releaseDbid fields w Hd w' opening.
    subst w' opening.
    unfold create_or_update_release, create_or_update_release_body.
    cbv zeta. rewrite Hd. fold (has_name fields). split.
    + intros Hok Hn. rewrite Hn. cbv iota beta delta [negb].
      apply create_first; [exact Hok|].
      intros v. autounfold with handlers. repeat patches_step.
    + intros [Hok|Hn].
      * now apply no_session_issued.
      * rewrite Hn. cbv iota beta delta [negb]. apply nothing_issued.
  - reflexivity.
Qed.

(** ** Field descriptors *)

Lemma drop_last_app (a b : jsstring) : drop_last (List.length b) (a ++ b) = a.
Proof.
  unfold drop_last. rewrite length_app.
  replace (List.length a + List.length b - List.length b)%nat
    with (List.length a + 0)%nat by lia.
  rewrite firstn_app_2. simpl. apply app_nil_r.
Qed.

Lemma map_unwrap_VStr (l : list jsstring) :
  map (fun x => match x with VStr s => s | _ => [] end) (map VStr l) = l.
Proof. induction l as [|a l IH]; simpl; [reflexivity|now rewrite IH]. Qed.

(** C9. For a field of type [REFERENCE_LIST], the Commit descriptor
    [create_or_update_release] builds has as [valueAsList] the input split
    at commas with each part trimmed, and as [value] those parts joined by
    a newline; for the input ["Sprint1, Sprint2"] these are
    [["Sprint1","Sprint2"]] and ["Sprint1\nSprint2"]. *)
Theorem reference_list_descriptor (name input : jsstring) :
  let d := release_commit_field (mkField name input (Some (js "REFERENCE_LIST"))) in
  member "valueAsList" d = VArr (map VStr (map trim (split comma input)))
  /\ member "value" d = VStr (join [newline] (map trim (split comma input)))
  /\ (input = js "Sprint1, Sprint2" ->
      member "valueAsList" d = VArr [str "Sprint1"; str "Sprint2"]
      /\ member "value" d = VStr (js "Sprint1" ++ [newline] ++ js "Sprint2")).
Proof.
  cbv zeta. split; [reflexivity|]. split; [reflexivity|].
  intros ->. split; reflexivity.
Qed.

(** C2, as the code has it. In the Commit payload of a Release, a
    descriptor's [requiredness] and [requirednessForUser] are [MANDATORY]
    exactly when the field is [Name] and [OPTIONAL] otherwise; in the
    Commit payload of a Sprint every descriptor the handler writes,
    [Name], [StartDate] and [EndDate] alike, is [MANDATORY]. *)
Theorem requiredness_by_entity :
  (forall f : FieldInput, mandatory_only_for_name (release_commit_field f))
  /\ (forall name startDate endDate : option jsstring,
      Forall (fun d => member "requiredness" d = str "MANDATORY"
                       /\ member "requirednessForUser" d = str "MANDATORY")
        (sprint_commit_fields name startDate endDate)).
Proof.
  split.
  - intros [n v t]. unfold mandatory_only_for_name, release_commit_field.
    cbn [field_name field_type field_value].
    destruct (type_is t "REFERENCE_LIST"); cbn [member];
      (split; intros H; simpl in H |- *;
       [ injection H as ->; split; reflexivity
       | destruct (str_eqb n (js "Name")) eqn:E;
         [ apply str_eqb_eq in E; subst n; exfalso; now apply H
         | split; reflexivity ] ]).
  - intros name startDate endDate. unfold sprint_commit_fields, pushed.
    destruct name as [[|? ?]|], startDate as [[|? ?]|], endDate as [[|? ?]|];
      repeat constructor.
Qed.

Ltac type_case t0 lit :=
  let E := fresh "E" in
  destruct (str_eqb t0 (js lit)) eqn:E;
  [ apply str_eqb_eq in E; subst t0 | ].

(** C1, as the code has it. The Commit descriptor carries what the
    encoding table asks in these cases: the sprint builder for [Name]
    (the SHORT_STRING row) and for [StartDate] and [EndDate] (the
    DATE_TIME row); [create_or_update_release] for every type other than
    DATE_TIME; [update_work_item] for SHORT_STRING and MULTILINE_STRING
    with a non-empty value. The input reads back from [value] (less its
    [" 00:00:00"] for a sprint date) wherever the type is neither
    DATE_TIME nor REFERENCE_LIST, and a release's REFERENCE_LIST reads back
    from [valueAsList] exactly when trimming its parts changed nothing. *)
Theorem encoding_table_cases :
  (forall name : jsstring,
      matches_table (Some (js "SHORT_STRING")) name (sprint_name_field name)
      /\ recover (Some (js "SHORT_STRING")) (sprint_name_field name) = Some name)
  /\ (forall (which : string) (date : jsstring),
      matches_table (Some (js "DATE_TIME")) date (sprint_date_field which date)
      /\ recover (Some (js "DATE_TIME")) (sprint_date_field which date) = Some date)
  /\ (forall f : FieldInput,
      type_is (field_type f) "DATE_TIME" = false ->
      matches_table (field_type f) (field_value f) (release_commit_field f))
  /\ (forall f : FieldInput,
      type_is (field_type f) "DATE_TIME" = false ->
      type_is (field_type f) "REFERENCE_LIST" = false ->
      recover (field_type f) (release_commit_field f) = Some (field_value f)
      /\ recover (field_type f) (work_item_commit_field f) = Some (field_value f))
  /\ (forall f : FieldInput,
      type_is (field_type f) "REFERENCE_LIST" = true ->
      (recover (field_type f) (release_commit_field f) = Some (field_value f)
       <-> reference_parts (field_value f) = split comma (field_value f)))
  /\ (forall f : FieldInput,
      type_is (field_type f) "SHORT_STRING" = true
      \/ type_is (field_type f) "MULTILINE_STRING" = true ->
      field_value f <> [] ->
      matches_table (field_type f) (field_value f) (work_item_commit_field f)).
Proof.
  split; [|split; [|split; [|split; [|split]]]].
  - intros name. split; [repeat split|reflexivity].
  - intros which date. split; [repeat split|].
    unfold recover, sprint_date_field. simpl.
    f_equal. apply (drop_last_app date (js " 00:00:00")).
  - intros [n v t] Hd. unfold matches_table, encoding_table, release_commit_field.
    cbn [field_name field_type field_value] in *.
    destruct t as [[|c t]|]; [repeat split| |repeat split].
    unfold type_is in *. revert Hd. generalize (c :: t) as t0. intros t0 Hd.
    type_case t0 "SHORT_STRING"%string; [repeat split|].
    type_case t0 "MULTILINE_STRING"%string; [repeat split|].
    rewrite Hd.
    type_case t0 "REFERENCE_LIST"%string; [repeat split|].
    cbn [orb]. exact I.
  - intros [n v t] Hd Hr. cbn [field_name field_type field_value] in *.
    unfold recover, release_commit_field, work_item_commit_field.
    cbn [field_name field_type field_value].
    rewrite Hd, Hr. split; reflexivity.
  - intros [n v t] Hr. cbn [field_name field_type field_value] in *.
    unfold recover, release_commit_field. cbn [field_name field_type field_value].
    rewrite Hr. simpl. rewrite map_unwrap_VStr. split; intros E.
    + injection E as E. now apply reference_parts_recover.
    + f_equal. now apply reference_parts_recover.
  - intros [n v t] Ht Hv. unfold matches_table, encoding_table, work_item_commit_field.
    cbn [field_name field_type field_value] in *.
    destruct v as [|x v]; [congruence|].
    destruct t as [t|]; [|destruct Ht; discriminate].
    unfold type_is in *.
    destruct Ht as [Ht|Ht]; apply str_eqb_eq in Ht; subst t; repeat split.
Qed.

(** * Further properties of the handlers *)

(** ** The cookie endpoint *)

Lemma acquire_some (w : World) (c : jsstring) :
  acquire w = Some c <->
  exists r rest,
    network w = Responds r :: rest /\ ok r = true /\ set_cookie r = Some c /\ c <> [].
Proof.
  unfold acquire. split.
  - destruct (network w) as [|[r|m] rest]; try discriminate.
    destruct (ok r) eqn:Eo; [|discriminate].
    destruct (set_cookie r) as [[|x s]|] eqn:E; simpl; try discriminate.
    intros H. injection H as <-.
    exists r, rest. repeat split; auto. discriminate.
  - intros (r & rest & -> & -> & -> & Hc).
    destruct c; [congruence|reflexivity].
Qed.

(** X4. [getCookiesFromServer] never throws and always makes exactly one
    request, the GET of the cookie endpoint without any header. It
    returns a cookie, and stores it in [globalCookies], exactly when the
    answer is an ok response with a non-empty [set-cookie] header; in
    every other case it returns [null] and leaves [globalCookies] alone. *)
Theorem getCookiesFromServer_outcome (w : World) :
  getCookiesFromServer w
  = (Normal (acquire w),
     mkWorld (match acquire w with
              | Some c => Some c
              | None => globalCookies w
              end)
       (trace w ++ [bootstrap]) (tl (network w)))
  /\ (forall c, acquire w = Some c <->
        exists r rest,
          network w = Responds r :: rest
          /\ ok r = true /\ set_cookie r = Some c /\ c <> []).
Proof.
  split; [|apply acquire_some].
  destruct w as [ck tr net].
  unfold getCookiesFromServer, try_catch, fetch, bind, emit, acquire, ret,
    write_cookies.
  simpl. destruct net as [|[r|m] rest]; simpl; try reflexivity.
  destruct (ok r); simpl; [|reflexivity].
  destruct (set_cookie r) as [[|x s]|]; reflexivity.
Qed.

(** ** Without a session *)

Lemma session_world_failed (w : World) :
  session_ok w = false ->
  session_world w = mkWorld None (trace w ++ [bootstrap]) (tl (network w)).
Proof.
  unfold session_ok, session_world.
  destruct (cookie_falsy (globalCookies w)) eqn:Hc.
  - simpl. unfold acquire.
    destruct (network w) as [|[r|m] rest]; simpl; try reflexivity.
    destruct (ok r); simpl; [|reflexivity].
    destruct (set_cookie r) as [[|x s]|]; simpl; try reflexivity.
    discriminate.
  - rewrite Hc. discriminate.
Qed.

Lemma guarded_no_session (body : M ToolReturn) (h : Exn -> M ToolReturn) (w : World) :
  session_ok w = false ->
  try_catch (with_session body) h w
  = (Normal (RError (js "Failed to retrieve cookies.")), session_world w).
Proof.
  intros Hok. unfold try_catch. now rewrite with_session_eq, Hok.
Qed.

Lemma handler_no_session (i : Invocation) (w : World) :
  session_ok w = false ->
  handler i w
  = (Normal (RError (js "Failed to retrieve cookies.")),
     mkWorld None (trace w ++ [bootstrap]) (tl (network w))).
Proof.
  intros Hok. rewrite <- (session_world_failed w Hok).
  destruct i; simpl handler; autounfold with handlers;
    now apply guarded_no_session.
Qed.

(** X5. When no session cookie can be had, every handler makes exactly
    one request, the one to the cookie endpoint (which carries neither
    the access token nor any other header), returns the error object and
    leaves [globalCookies] at [null]. *)
Theorem no_session_no_request (i : Invocation) (w : World) :
  session_ok w = false ->
  handler i w
  = (Normal (RError (js "Failed to retrieve cookies.")),
     mkWorld None (trace w ++ [bootstrap]) (tl (network w)))
  /\ bootstrap = Http (mkRequest GET cookie_url [] (Some (js "include")) None).
Proof.
  intros Hok. split; [now apply handler_no_session|reflexivity].
Qed.

(** ** What every handler sends *)

Lemma emits_with_session_any (P : Event -> Prop) (rest : M ToolReturn) :
  P bootstrap ->
  emits (fun _ => True) P rest -> emits (fun _ => True) P (with_session rest).
Proof.
  intros Hb Hr w _. split; [exact I|]. rewrite with_session_eq.
  assert (Hopen : Forall P (if cookie_falsy (globalCookies w)
                            then [bootstrap] else [])).
  { destruct (cookie_falsy (globalCookies w)); repeat constructor. exact Hb. }
  destruct (session_ok w).
  - destruct (Hr (session_world w) I) as [_ [evs [Ht Hp]]].
    eexists. rewrite Ht, session_world_trace, <- app_assoc.
    split; [reflexivity|]. apply Forall_app. now split.
  - simpl snd. eexists. rewrite session_world_trace. now split.
Qed.

Ltac emits_any_step Hcall Hsleep :=
  first
    [ apply emits_call; intros; apply Hcall
    | apply emits_sleep; apply Hsleep
    | apply emits_for_each; intros; autounfold with handlers
    | apply emits_ret
    | apply emits_throw
    | apply emits_lift
    | apply emits_bind; [|intros]
    | match goal with
      | |- emits _ _ (if ?b then _ else _) => destruct b
      | |- emits _ _ (match ?x with _ => _ end) => destruct x
      end ].

(** Whatever holds of the call to the cookie endpoint, of every request
    to the repository API and of every pause holds of all a handler
    issues. *)
Lemma handler_emits (P : Event -> Prop) (i : Invocation) :
  P bootstrap ->
  (forall m tail accept cookie payload, P (api_event cookie m (api tail) accept payload)) ->
  (forall ms, P (Sleep ms)) ->
  emits (fun _ => True) P (handler i).
Proof.
  intros Hb Hcall Hsleep.
  destruct i; simpl handler; autounfold with handlers; cbv zeta;
    (apply emits_try_catch;
     [ apply emits_with_session_any; [exact Hb|];
       repeat emits_any_step Hcall Hsleep
     | intros e; repeat emits_any_step Hcall Hsleep ]).
Qed.

Lemma handler_extends (P : Event -> Prop) (i : Invocation) (w : World) :
  P bootstrap ->
  (forall m tail accept cookie payload, P (api_event cookie m (api tail) accept payload)) ->
  (forall ms, P (Sleep ms)) ->
  exists evs, issued w (snd (handler i w)) = evs /\ Forall P evs
              /\ trace (snd (handler i w)) = trace w ++ evs.
Proof.
  intros Hb Hcall Hsleep.
  destruct (handler_emits P i Hb Hcall Hsleep w I) as [_ [evs [Ht Hp]]].
  exists evs. unfold issued. rewrite Ht, skipn_app_exact. auto.
Qed.

(** X6. Every request of every handler, in any world, is either the call
    to the cookie endpoint or a request under
    [serverURL/ccmweb/rest/repos/teamspaceID/databases] that carries the
    JSON content type and [Authorization: Basic] with the access token. *)
Theorem requests_well_addressed (i : Invocation) (w : World) :
  Forall well_addressed (issued w (snd (handler i w))).
Proof.
  destruct (handler_extends well_addressed i w) as (evs & -> & H & _); auto.
  - left. reflexivity.
  - intros m tail accept cookie payload. right. split; [now exists tail|].
    unfold api_headers. simpl. split; [now left|].
    right. apply in_or_app. right. now left.
  - intros ms. exact I.
Qed.

(** X7. A failed acquisition is not remembered: the invocation that
    follows one that could get no cookie begins with a new call to the
    cookie endpoint. *)
Theorem failed_session_retried (i1 i2 : Invocation) (w : World) :
  session_ok w = false ->
  let w1 := snd (handler i1 w) in
  exists tail, issued w1 (snd (handler i2 w1)) = bootstrap :: tail.
Proof.
  intros Hok w1.
  assert (E1 : w1 = mkWorld None (trace w ++ [bootstrap]) (tl (network w))).
  { unfold w1. now rewrite handler_no_session. }
  assert (Hsw : trace (session_world w1) = trace w1 ++ [bootstrap]).
  { rewrite session_world_trace, E1. reflexivity. }
  destruct (session_ok w1) eqn:Hok1.
  - rewrite (handler_session i2 w1 Hok1).
    destruct (handler_extends (fun _ => True) i2 (session_world w1))
      as (evs & _ & _ & Ht); auto.
    exists evs. unfold issued. rewrite Ht, Hsw, <- app_assoc, skipn_app_exact.
    reflexivity.
  - exists []. rewrite (handler_no_session i2 w1 Hok1).
    unfold issued. simpl. now rewrite skipn_app_exact.
Qed.

(** ** [update_work_item] *)

Ltac innermost :=
  match goal with
  | |- context [match ?x with _ => _ end] =>
      lazymatch x with
      | context [match _ with _ => _ end] => fail
      | _ => destruct x eqn:?
      end
  end.

Ltac leaf := rewrite <- ?app_assoc, ?skipn_app_exact; simpl app.

Ltac pick_prefix :=
  first
    [ exists 1%nat; split; [lia|]; split; [reflexivity|]
    | exists 2%nat; split; [lia|]; split; [reflexivity|]
    | exists 3%nat; split; [lia|]; split; [reflexivity|]
    | exists 4%nat; split; [lia|]; split; [reflexivity|] ].

(** X8. Once it has a session, [update_work_item] issues its requests in
    the order Modify, Edit, Commit and stops at the first that fails: what
    it issues is the first one, two or three of them, and all three when
    it reports success. *)
Theorem update_work_item_protocol (dbid application : jsstring)
    (fields : list FieldInput) (w : World) :
  session_ok w = true ->
  let w1 := session_world w in
  let result := update_work_item dbid application fields w in
  exists n,
    (1 <= n <= 3)%nat
    /\ issued w1 (snd result)
       = firstn n [modify_event (globalCookies w1) dbid application;
                   item_edit_event (globalCookies w1) dbid application fields;
                   item_commit_event (globalCookies w1) dbid application fields]
    /\ (fst result = Normal (text_result (item_updated_text dbid fields)) -> n = 3%nat).
Proof.
  intros Hok w1 result. subst w1 result.
  unfold update_work_item, update_work_item_body, try_catch.
  rewrite with_session_eq, Hok.
  destruct (session_world w) as [ck tr net].
  unfold issued. run. repeat (innermost; run).
  all: leaf; pick_prefix; intros H;
    first [reflexivity | exfalso; unfold item_updated_text in H; simpl in H;
                         discriminate H].
Qed.

(** ** [delete_work_item] and [create_work_item] *)

(** X9. Once it has a session, [delete_work_item] makes exactly one
    request, the DELETE of the record, and what it returns depends on the
    answer's [ok] flag alone: the success text, or an error text that
    carries neither the status nor the body of the answer. *)
Theorem delete_work_item_outcome (dbid application : jsstring) (w : World) :
  session_ok w = true ->
  let w1 := session_world w in
  let result := delete_work_item dbid application w in
  issued w1 (snd result) = [delete_event (globalCookies w1) dbid application]
  /\ fst result
     = Normal (text_result
                 match network w1 with
                 | Responds r :: _ =>
                     if ok r
                     then js "Work item " ++ dbid ++ js " deleted successfully"
                     else js "Error deleting work item: Failed to delete work item"
                 | Rejects msg :: _ => js "Error deleting work item: " ++ msg
                 | [] => js "Error deleting work item: " ++ fetch_failed
                 end).
Proof.
  intros Hok w1 result. subst w1 result.
  unfold delete_work_item, try_catch.
  rewrite with_session_eq, Hok.
  destruct (session_world w) as [ck tr net].
  unfold issued. run. repeat (innermost; run).
  all: leaf; split; reflexivity.
Qed.

(** X10. Once it has a session, [create_work_item] makes exactly one
    request, the POST of the filled template. Whether it reports success
    is decided by the parsed answer alone, whatever its status: success
    with the answer's [dbId] and [viewURL] when [viewURL] is a non-empty
    string, and the fixed failure text when [viewURL] is missing or falsy. *)
Theorem create_work_item_outcome (component : option jsstring)
    (title description workItemType application projectId : jsstring)
    (w : World) (r : Response) (rest : list Answer) (data : list (jsstring * JSval)) :
  session_ok w = true ->
  let w1 := session_world w in
  let result := create_work_item component title description workItemType
                  application projectId w in
  network w1 = Responds r :: rest ->
  body_json r = Normal (VObj data) ->
  issued w1 (snd result)
  = [work_item_post (globalCookies w1) component title description workItemType
       application projectId]
  /\ (truthy (lookup (js "viewURL") data) = false ->
      fst result
      = Normal (text_result (js "Error creating work item: Failed to create work item")))
  /\ (forall view id,
        lookup (js "viewURL") data = VStr view -> view <> [] ->
        lookup (js "dbId") data = VStr id ->
        fst result
        = Normal (text_result
                    (js "Work item created successfully. dbId: " ++ id
                     ++ js ". View it at: " ++ serverURL ++ js "/#" ++ view))).
Proof.
  intros Hok w1 result. subst w1 result.
  unfold create_work_item, try_catch.
  rewrite with_session_eq, Hok.
  destruct (session_world w) as [ck tr net].
  intros Hnet Hdata. simpl in Hnet. subst net.
  unfold issued. run. rewrite Hdata. cbn [get_prop]. run.
  split; [|split].
  - destruct (truthy (lookup (js "viewURL") data)); run.
    + repeat (innermost; run); leaf; reflexivity.
    + leaf. reflexivity.
  - intros Hv. rewrite Hv. reflexivity.
  - intros view id Hview Hne Hid. rewrite Hview, Hid.
    destruct view; [congruence|]. reflexivity.
Qed.

(** ** [change_work_item_state], every run *)

(** X11. Once it has a session, [change_work_item_state] issues, in every
    run and not only in a successful one, a beginning of the sequence GET,
    action PATCH, pause, Commit PATCH: the action is never requested before
    the GET, the pause never made before the action was accepted, and the
    Commit never sent before the pause. *)
Theorem state_change_in_order (dbid application targetState : jsstring) (w : World) :
  session_ok w = true ->
  let w1 := session_world w in
  let cookie := globalCookies w1 in
  exists n movedId,
    (1 <= n <= 4)%nat
    /\ issued w1 (snd (change_work_item_state dbid application targetState w))
       = firstn n [Http (current_item_request cookie dbid application);
                   Http (movement_request cookie dbid application targetState);
                   Sleep 1000;
                   Http (state_commit_request cookie dbid application movedId)].
Proof.
  intros Hok w1 cookie. subst cookie w1.
  unfold change_work_item_state, change_work_item_state_body, try_catch.
  rewrite with_session_eq, Hok.
  destruct (session_world w) as [ck tr net].
  unfold issued. run. repeat (innermost; run).
  all: leaf;
    first
      [ exists 1%nat, VUndef; split; [lia|reflexivity]
      | exists 2%nat, VUndef; split; [lia|reflexivity]
      | exists 3%nat, VUndef; split; [lia|reflexivity]
      | eexists 4%nat, _; split; [lia|reflexivity] ].
Qed.

Lemma get_rejection_classified (code : N) (errorText : jsstring) :
  code = 400 \/ code = 422 ->
  includes (js "status 400")
    (js "Failed to get current work item data with status " ++ N_to_dec code
     ++ js ": " ++ errorText)
  || includes (js "status 422")
       (js "Failed to get current work item data with status " ++ N_to_dec code
        ++ js ": " ++ errorText)
  = true.
Proof.
  intros [-> | ->]; apply orb_true_iff; [left|right].
  - now eapply includes_inside
      with (before := js "Failed to get current work item data with ").
  - now eapply includes_inside
      with (before := js "Failed to get current work item data with ").
Qed.

(** X12. When the GET that opens [change_work_item_state] is answered
    with status 400 or 422, the handler returns the state-transition
    message although it has requested no transition: the GET is the only
    request it made. *)
Theorem state_change_get_rejected (dbid application targetState : jsstring)
    (w : World) (g : Response) (rest : list Answer) (code : N) (errorText : jsstring) :
  session_ok w = true ->
  let w1 := session_world w in
  let result := change_work_item_state dbid application targetState w in
  network w1 = Responds g :: rest ->
  status g = code -> code = 400 \/ code = 422 ->
  body_text g = Normal errorText ->
  fst result
  = Normal (text_result
              (transition_error_text dbid targetState
                 (js "Failed to get current work item data with status "
                  ++ N_to_dec code ++ js ": " ++ errorText)))
  /\ issued w1 (snd result) = [Http (current_item_request (globalCookies w1) dbid application)].
Proof.
  intros Hok w1 result. subst w1 result.
  unfold change_work_item_state, change_work_item_state_body, try_catch.
  rewrite with_session_eq, Hok.
  destruct (session_world w) as [ck tr net].
  intros Hnet Hs Hcode Ht. simpl in Hnet. subst net.
  assert (Hbad : ok g = false).
  { unfold ok. rewrite Hs. now destruct Hcode as [-> | ->]. }
  unfold issued. run. rewrite Hbad, Ht, Hs. run.
  unfold message, failed, Error.
  rewrite get_rejection_classified by assumption.
  leaf. split; reflexivity.
Qed.

(** ** Updating a sprint *)

(** X13. With a [sprintDbid], [create_or_update_sprint] never POSTs: once
    it has a session it PATCHes the Edit and then the Commit of that very
    record, stopping after the Edit if it fails; and when none of name,
    start date and end date is given it makes no request and says so. *)
Theorem sprint_update_in_place (application dbid : jsstring)
    (name startDate endDate : option jsstring) (w : World) :
  session_ok w = true -> dbid <> [] ->
  let w1 := session_world w in
  let result := create_or_update_sprint application (Some dbid) name
                  startDate endDate w in
  (absent name && absent startDate && absent endDate = true ->
   issued w1 (snd result) = [] /\ fst result = Normal (text_result nothing_to_update))
  /\ (absent name && absent startDate && absent endDate = false ->
      exists n,
        (1 <= n <= 2)%nat
        /\ issued w1 (snd result)
           = firstn n [sprint_edit_event (globalCookies w1) application dbid
                         name startDate endDate;
                       sprint_commit_event (globalCookies w1) application dbid
                         name startDate endDate]).
Proof.
  intros Hok Hd w1 result. subst w1 result.
  unfold create_or_update_sprint, create_or_update_sprint_body, try_catch.
  rewrite with_session_eq, Hok.
  destruct (session_world w) as [ck tr net].
  destruct dbid as [|x d]; [congruence|].
  cbv zeta. cbn [absent updating_or_creating].
  split; intros Habs; rewrite Habs.
  - unfold issued. run. rewrite <- (app_nil_r tr) at 2. rewrite skipn_app_exact.
    split; reflexivity.
  - unfold issued, edit_record, commit_record.
    run. cbn [opt_value to_string]. run. repeat (innermost; run).
    all: leaf;
      first [ exists 1%nat; split; [lia|reflexivity]
            | exists 2%nat; split; [lia|reflexivity] ].
Qed.

(** ** [_updateEntity] *)

Lemma require_session_eq (w : World) :
  require_session w =
  if session_ok w then (Normal tt, session_world w)
  else (Thrown (Error (js "Failed to retrieve cookies.")), session_world w).
Proof.
  unfold require_session, session_ok, session_world, bind, read_cookies.
  destruct (cookie_falsy (globalCookies w)) eqn:Hc; simpl.
  - unfold getCookiesFromServer, try_catch, fetch, bind, emit, acquire. simpl.
    destruct (network w) as [|[r|m] tail]; simpl; try reflexivity.
    destruct (ok r); simpl; [|reflexivity].
    destruct (cookie_falsy (set_cookie r)) eqn:Hs; simpl; [reflexivity|].
    unfold write_cookies, ret. simpl. now rewrite Hs.
  - rewrite Hc. simpl. now destruct w.
Qed.

Lemma bind_first {A B} (m : M A) (k : A -> M B) (w : World) :
  bind m k w = match m w with
               | (Normal a, w') => k a w'
               | (Thrown e, w') => (Thrown e, w')
               end.
Proof. reflexivity. Qed.

(** X14. [_updateEntity] throws ["Failed to retrieve cookies."] when no
    session cookie can be had, having called only the cookie endpoint.
    With a session it PATCHes the Edit and then the Commit of the record,
    stops after the Edit if that fails, and returns normally only when
    both were made. *)
Theorem updateEntity_protocol (application entityType entityDbid : jsstring)
    (editFields commitFields : list JSval)
    (commitPayloadExtras : list (jsstring * JSval)) (w : World) :
  let w1 := session_world w in
  let result := _updateEntity application entityType entityDbid editFields
                  commitFields commitPayloadExtras w in
  (session_ok w = false ->
   result = (Thrown (ErrorObj (js "Failed to retrieve cookies.")),
             mkWorld None (trace w ++ [bootstrap]) (tl (network w))))
  /\ (session_ok w = true ->
      exists n,
        (1 <= n <= 2)%nat
        /\ issued w1 (snd result)
           = firstn n [entity_edit_event (globalCookies w1) application entityType
                         entityDbid editFields;
                       entity_commit_event (globalCookies w1) application entityType
                         entityDbid commitFields commitPayloadExtras]
        /\ (forall v, fst result = Normal v -> n = 2%nat)).
Proof.
  intros w1 result. subst w1 result.
  unfold _updateEntity. rewrite (bind_first require_session), require_session_eq.
  split; intros Hok; rewrite Hok.
  - now rewrite session_world_failed.
  - destruct (session_world w) as [ck tr net].
    unfold issued. run. repeat (innermost; run).
    all: leaf;
      first [ exists 1%nat; split; [lia|]; split; [reflexivity|]
            | exists 2%nat; split; [lia|]; split; [reflexivity|] ];
      intros v H; first [reflexivity | discriminate H].
Qed.

Lemma lookup_set_prop (k k' : jsstring) (v : JSval) (props : list (jsstring * JSval)) :
  lookup k' (set_prop k v props) = if str_eqb k' k then v else lookup k' props.
Proof.
  induction props as [|[k0 v0] props IH]; simpl.
  - destruct (str_eqb k' k); reflexivity.
  - destruct (str_eqb k k0) eqn:E; simpl.
    + apply str_eqb_eq in E. subst k0. destruct (str_eqb k' k); reflexivity.
    + destruct (str_eqb k' k0) eqn:E'; [|exact IH].
      apply str_eqb_eq in E'. subst k0.
      destruct (str_eqb k' k) eqn:E''; [|reflexivity].
      apply str_eqb_eq in E''. subst k'. now rewrite str_eqb_refl in E.
Qed.

(** X15. In the Commit payload of [_updateEntity] the caller's extras add
    members but cannot replace the field list: [fields] is always
    [commitFields], and every other member reads as it does in the extras. *)
Theorem commit_payload_members (commitFields : list JSval)
    (commitPayloadExtras : list (jsstring * JSval)) (k : jsstring) :
  let payload := set_prop (js "fields") (VArr commitFields) commitPayloadExtras in
  lookup (js "fields") payload = VArr commitFields
  /\ (k <> js "fields" -> lookup k payload = lookup k commitPayloadExtras).
Proof.
  cbv zeta. rewrite !lookup_set_prop, str_eqb_refl. split; [reflexivity|].
  intros Hk. apply str_eqb_neq in Hk. now rewrite Hk.
Qed.

(** ** The two calls of a query *)

Lemma run_query_found (application : jsstring) (payload : JSval)
    (missing : JSval -> jsstring) (page : jsstring) (w : World)
    (q p : Response) (rest : list Answer) (queryData resultSetId : JSval)
    (rs : jsstring) :
  network w = Responds q :: Responds p :: rest ->
  body_json q = Normal queryData ->
  get_prop queryData (js "result_set_id") = Normal resultSetId ->
  truthy resultSetId = true ->
  to_string resultSetId = Normal rs ->
  run_query application payload missing page w
  = (body_json p,
     mkWorld (globalCookies w)
       (trace w ++ [query_post (globalCookies w) application payload;
                    query_get (globalCookies w) application rs page])
       rest).
Proof.
  intros Hnet Hq Hid Ht Hrs. destruct w as [ck tr net]. simpl in Hnet. subst net.
  run. rewrite Hq, Hid, Ht. run. rewrite Hrs. run.
  rewrite <- app_assoc. reflexivity.
Qed.

(** X16. A query is a POST and, only if the parsed answer names a result
    set, one GET of that result set; nothing else is requested. The
    status of neither answer is looked at: with a result set named, the
    outcome is the parsed body of the second answer; with none, the
    query throws the [missing] message after the POST alone. *)
Theorem run_query_outcome (application : jsstring) (payload : JSval)
    (missing : JSval -> jsstring) (page : jsstring) (w : World) :
  let result := run_query application payload missing page w in
  let cookie := globalCookies w in
  (exists n rs,
      (1 <= n <= 2)%nat
      /\ issued w (snd result)
         = firstn n [query_post cookie application payload;
                     query_get cookie application rs page])
  /\ (forall q p rest queryData resultSetId rs,
        network w = Responds q :: Responds p :: rest ->
        body_json q = Normal queryData ->
        get_prop queryData (js "result_set_id") = Normal resultSetId ->
        truthy resultSetId = true ->
        to_string resultSetId = Normal rs ->
        fst result = body_json p
        /\ issued w (snd result)
           = [query_post cookie application payload;
              query_get cookie application rs page])
  /\ (forall q rest queryData resultSetId,
        network w = Responds q :: rest ->
        body_json q = Normal queryData ->
        get_prop queryData (js "result_set_id") = Normal resultSetId ->
        truthy resultSetId = false ->
        fst result = Thrown (ErrorObj (missing queryData))
        /\ issued w (snd result) = [query_post cookie application payload]).
Proof.
  intros result cookie. subst result cookie. split; [|split].
  - destruct w as [ck tr net]. unfold issued. run. repeat (innermost; run).
    all: leaf;
      first [ exists 1%nat, []; split; [lia|reflexivity]
            | eexists 2%nat, _; split; [lia|reflexivity] ].
  - intros q p rest qd rsid rs Hnet Hq Hid Ht Hrs.
    rewrite (run_query_found _ _ _ _ _ _ _ _ _ _ _ Hnet Hq Hid Ht Hrs).
    unfold issued. simpl. rewrite skipn_app_exact. split; reflexivity.
  - intros q rest qd rsid Hnet Hq Hid Hf.
    destruct w as [ck tr net]. simpl in Hnet. subst net.
    unfold issued. run. rewrite Hq, Hid, Hf. run. leaf. split; reflexivity.
Qed.

(** ** Rendering query results *)

Lemma display_names (rows : list (list (jsstring * JSval))) :
  map_completion display_name (map VObj rows)
  = Normal (map (lookup (js "displayName")) rows).
Proof.
  induction rows as [|row rows IH]; [reflexivity|].
  simpl. rewrite IH. reflexivity.
Qed.

(** X17. When the query names a result set and the page answer holds an
    array of row objects, [get_available_projects] lists the
    [displayName] of every row, one entry per row and in the rows' order;
    a row without a [displayName] is listed as [null], not dropped. *)
Theorem projects_listed (application : jsstring) (w : World)
    (q p : Response) (rest : list Answer) (queryData resultSetId : JSval)
    (rs : jsstring) (page : list (jsstring * JSval))
    (rows : list (list (jsstring * JSval))) :
  session_ok w = true ->
  network (session_world w) = Responds q :: Responds p :: rest ->
  body_json q = Normal queryData ->
  get_prop queryData (js "result_set_id") = Normal resultSetId ->
  truthy resultSetId = true ->
  to_string resultSetId = Normal rs ->
  body_json p = Normal (VObj page) ->
  lookup (js "rows") page = VArr (map VObj rows) ->
  fst (get_available_projects application w)
  = Normal (text_result
              (js "Projects retrieved: "
               ++ show_json (JSON_stringify
                               (VArr (map (lookup (js "displayName")) rows)))))
  /\ List.length (map (lookup (js "displayName")) rows) = List.length rows
  /\ (forall row, lookup (js "displayName") row = VUndef ->
      JSON_stringify (VArr [lookup (js "displayName") row]) = Some (js "[null]")).
Proof.
  intros Hok Hnet Hq Hid Ht Hrs Hp Hrows. split; [|split].
  - unfold get_available_projects, get_available_projects_body, try_catch.
    rewrite with_session_eq, Hok. rewrite bind_first.
    rewrite (run_query_found _ _ _ _ _ _ _ _ _ _ _ Hnet Hq Hid Ht Hrs), Hp.
    unfold and_prop. cbn [truthy get_prop]. rewrite Hrows.
    run. cbn [truthy call_map]. rewrite display_names. reflexivity.
  - apply length_map.
  - intros row ->. reflexivity.
Qed.

(** The string at [row.values[2]] of a row object, if there is one. *)
Lemma row_types_of (row : list (jsstring * JSval)) (vals : list JSval) (s : jsstring) :
  lookup (js "values") row = VArr vals ->
  nth_error vals 2 = Some (VStr s) ->
  row_types (VObj row) = Normal (map VStr (map trim (split newline s))).
Proof.
  intros Hv Hn. unfold row_types. cbn [get_prop cbind]. rewrite Hv.
  change (get_prop (VArr vals) (js "2")) with (Normal (nth 2 vals VUndef)).
  destruct vals as [|a [|b [|c vals]]]; try discriminate.
  simpl in Hn. injection Hn as ->. reflexivity.
Qed.

Lemma rows_types_of (rows : list (list (jsstring * JSval))) (lists : list jsstring) :
  Forall2 (fun row s => exists vals,
             lookup (js "values") row = VArr vals
             /\ nth_error vals 2 = Some (VStr s))
    rows lists ->
  map_completion row_types (map VObj rows)
  = Normal (map (fun s => map VStr (map trim (split newline s))) lists).
Proof.
  induction 1 as [|row s rows lists (vals & Hv & Hn) _ IH]; [reflexivity|].
  cbn [map map_completion]. rewrite (row_types_of row vals s Hv Hn), IH. reflexivity.
Qed.

(** X18. When every row carries its type list as a string at
    [values[2]], [get_available_workitem_types] answers with the types of
    all rows in one flat list: each string split at newlines, each line
    trimmed, the rows' lists put end to end. *)
Theorem workitem_types_listed (application projectId : jsstring) (w : World)
    (q p : Response) (rest : list Answer) (queryData resultSetId : JSval)
    (rs : jsstring) (page : list (jsstring * JSval))
    (rows : list (list (jsstring * JSval))) (lists : list jsstring) :
  session_ok w = true ->
  network (session_world w) = Responds q :: Responds p :: rest ->
  body_json q = Normal queryData ->
  get_prop queryData (js "result_set_id") = Normal resultSetId ->
  truthy resultSetId = true ->
  to_string resultSetId = Normal rs ->
  body_json p = Normal (VObj page) ->
  lookup (js "rows") page = VArr (map VObj rows) ->
  Forall2 (fun row s => exists vals,
             lookup (js "values") row = VArr vals
             /\ nth_error vals 2 = Some (VStr s))
    rows lists ->
  fst (get_available_workitem_types application projectId w)
  = Normal (text_result
              (js "Available work item types: "
               ++ show_json
                    (JSON_stringify
                       (VArr (map VStr
                                (flat_map (fun s => map trim (split newline s))
                                   lists)))))).
Proof.
  intros Hok Hnet Hq Hid Ht Hrs Hp Hrows Hall.
  pose proof (rows_types_of rows lists Hall) as Hmap.
  unfold get_available_workitem_types, try_catch.
  rewrite with_session_eq, Hok. rewrite bind_first.
  rewrite (run_query_found _ _ _ _ _ _ _ _ _ _ _ Hnet Hq Hid Ht Hrs), Hp.
  unfold and_prop. cbn [truthy get_prop]. rewrite Hrows.
  run. cbn [truthy]. rewrite Hmap.
  rewrite flat_map_concat_map, concat_map, map_map. reflexivity.
Qed.

(** ** [create_or_update_release] in update mode *)

Lemma release_edit_step_run (application d : jsstring) (f : FieldInput) (w : World) :
  globalCookies (snd (release_edit_step application (VStr d) f w)) = globalCookies w
  /\ network (snd (release_edit_step application (VStr d) f w)) = tl (network w)
  /\ trace (snd (release_edit_step application (VStr d) f w))
     = trace w ++ [release_edit_event (globalCookies w) application d f].
Proof.
  destruct w as [ck tr net]. unfold release_edit_step, release_edit_event, api_event.
  run. cbn [to_string]. run. repeat (innermost; run).
  all: split; [|split]; reflexivity.
Qed.

Lemma release_edits (application d : jsstring) (fields : list FieldInput) :
  forall w,
    globalCookies (snd (for_each fields (release_edit_step application (VStr d)) w))
    = globalCookies w
    /\ exists k,
         (k <= List.length fields)%nat
         /\ trace (snd (for_each fields (release_edit_step application (VStr d)) w))
            = trace w ++ map (release_edit_event (globalCookies w) application d)
                           (firstn k fields)
         /\ (fst (for_each fields (release_edit_step application (VStr d)) w)
             = Normal tt -> k = List.length fields)
         /\ (k = 0%nat -> fields = []).
Proof.
  induction fields as [|f fs IH]; intros w.
  - split; [reflexivity|]. exists 0%nat. simpl. rewrite app_nil_r. auto.
  - cbn [for_each]. rewrite bind_first.
    destruct (release_edit_step_run application d f w) as (Hc & _ & Ht).
    destruct (release_edit_step application (VStr d) f w) as [[[]|e] w'];
      cbn [fst snd] in *.
    + destruct (IH w') as (Hc' & k & Hk & Ht' & Hall & _).
      split; [congruence|]. exists (S k). split; [simpl; lia|].
      split; [|split; [|discriminate]].
      * rewrite Ht', Ht, Hc, <- app_assoc. reflexivity.
      * intros H. simpl. f_equal. auto.
    + split; [exact Hc|]. exists 1%nat. split; [simpl; lia|].
      split; [exact Ht|]. split; discriminate.
Qed.

(** X19. With a [releaseDbid] and at least one field,
    [create_or_update_release] never POSTs: once it has a session it
    PATCHes one Edit per field, in the order of the fields and each
    carrying that field alone, then one Commit carrying them all. It stops
    at the first request that fails, so the Commit is sent only after
    every Edit succeeded, and success is reported only after the Commit. *)
Theorem release_update_protocol (application dbid : jsstring)
    (fields : list FieldInput) (w : World) :
  session_ok w = true -> dbid <> [] -> fields <> [] ->
  let w1 := session_world w in
  let result := create_or_update_release application (Some dbid) fields w in
  exists n,
    (1 <= n <= S (List.length fields))%nat
    /\ issued w1 (snd result)
       = firstn n (map (release_edit_event (globalCookies w1) application dbid) fields
                   ++ [release_commit_event (globalCookies w1) application dbid fields])
    /\ (forall t, fst result
                  = Normal (text_result (js "Release updated successfully: " ++ t))
                  -> n = S (List.length fields)).
Proof.
  intros Hok Hd Hf w1 result. subst w1 result.
  unfold create_or_update_release, create_or_update_release_body, try_catch.
  rewrite with_session_eq, Hok.
  destruct dbid as [|x d]; [congruence|].
  cbv zeta. cbn [absent updating_or_creating created_or_updated].
  set (w1 := session_world w).
  assert (Hret : forall k : JSval -> M ToolReturn,
             bind (match fields with
                   | [] => throw (Error (js "At least one field must be provided for update"))
                   | _ :: _ => ret (opt_value (Some (x :: d)))
                   end) k w1 = k (VStr (x :: d)) w1).
  { intros k. destruct fields; [congruence|reflexivity]. }
  rewrite Hret. rewrite bind_first.
  destruct (release_edits application (x :: d) fields w1)
    as (Hc & k & Hk & Ht & Hall & Hzero).
  destruct (for_each fields (release_edit_step application (VStr (x :: d))) w1)
    as [[[]|e] w2]; cbn [fst snd] in *.
  - specialize (Hall eq_refl). subst k. rewrite firstn_all in Ht.
    destruct w2 as [ck2 tr2 net2]. cbn [globalCookies trace] in Hc, Ht.
    subst ck2 tr2.
    exists (S (List.length fields)). split; [lia|].
    rewrite firstn_all2 by (rewrite length_app, length_map; simpl; lia).
    unfold issued, commit_record, release_commit_event, api_event.
    run. cbn [to_string]. run. repeat (innermost; run).
    all: rewrite <- ?app_assoc, ?skipn_app_exact; simpl app.
    all: split; reflexivity.
  - exists k. split; [destruct k; [specialize (Hzero eq_refl); congruence | lia]|].
    split.
    + unfold issued, ret. cbn [snd]. rewrite Ht, skipn_app_exact.
      rewrite firstn_app, length_map.
      replace (k - List.length fields)%nat with 0%nat by lia.
      rewrite firstn_map. simpl. rewrite app_nil_r. reflexivity.
    + intros t H. exfalso. revert H. unfold ret. cbn [fst]. simpl. discriminate.
Qed.

(** ** [get_work_items] and [get_applications] *)

(** X20. [get_work_items] uses its [owner] argument only as a switch: any
    two non-empty owners give the same query, hence the same requests and
    the same result; the filter sent is always on ["[CURRENT_USER]"]. *)
Theorem owner_value_ignored (applicationName projectId : jsstring)
    (workitemType : option jsstring) (owner1 owner2 : jsstring) (w : World) :
  owner1 <> [] -> owner2 <> [] ->
  work_items_query projectId workitemType (Some owner1)
  = work_items_query projectId workitemType (Some owner2)
  /\ get_work_items applicationName projectId workitemType (Some owner1) w
     = get_work_items applicationName projectId workitemType (Some owner2) w.
Proof.
  intros H1 H2.
  destruct owner1 as [|a o1]; [congruence|].
  destruct owner2 as [|b o2]; [congruence|].
  split; reflexivity.
Qed.

Lemma application_entries (apps : list (list (jsstring * JSval))) :
  map_completion application_entry (map VObj apps)
  = Normal (map (fun app => VObj [prop "id" (lookup (js "dbId") app);
                                  prop "applicationName" (lookup (js "name") app)])
              apps).
Proof.
  induction apps as [|app apps IH]; [reflexivity|].
  cbn [map map_completion]. rewrite IH. reflexivity.
Qed.

(** X21. [get_applications] makes one GET of the databases and never
    looks at the status of the answer: whatever the status, a body that
    parses to an array of objects is listed as one [id]/[applicationName]
    pair per element, and a body that parses to anything but an array
    gives the text ["Error retrieving applications: Failed to retrieve
    applications"]. *)
Theorem applications_listed (w : World) (r : Response) (rest : list Answer)
    (data : JSval) :
  session_ok w = true ->
  network (session_world w) = Responds r :: rest ->
  body_json r = Normal data ->
  let w1 := session_world w in
  let result := get_applications w in
  issued w1 (snd result)
  = [api_event (globalCookies w1) GET (api []) accept_json None]
  /\ (forall apps, data = VArr (map VObj apps) ->
      fst result
      = Normal (text_result
                  (js "Applications retrieved: "
                   ++ show_json
                        (JSON_stringify
                           (VArr (map (fun app =>
                                         VObj [prop "id" (lookup (js "dbId") app);
                                               prop "applicationName"
                                                 (lookup (js "name") app)])
                                    apps))))))
  /\ ((forall items, data <> VArr items) ->
      fst result
      = Normal (text_result (js "Error retrieving applications: "
                             ++ js "Failed to retrieve applications"))).
Proof.
  intros Hok Hnet Hr w1 result. subst w1 result.
  unfold get_applications, try_catch. rewrite with_session_eq, Hok.
  destruct (session_world w) as [ck tr net]. simpl in Hnet. subst net.
  unfold issued, api_event. run. rewrite Hr.
  split; [|split].
  - destruct data; run; try (innermost; run);
      rewrite ?skipn_app_exact; reflexivity.
  - intros apps ->. run. rewrite application_entries. reflexivity.
  - intros Hno. destruct data; try reflexivity. exfalso. eapply Hno. reflexivity.
Qed.

(** ** The state transition matrix *)

Lemma own_In (k : jsstring) (st : Transitions) (ts : list Transition) :
  own k st = Some ts -> In (k, ts) st.
Proof.
  induction st as [|[k' ts'] st IH]; [discriminate|].
  simpl. destruct (str_eqb k k') eqn:E.
  - intros [= ->]. apply str_eqb_eq in E. subst. now left.
  - intros H. right. auto.
Qed.

Lemma own_None (k : jsstring) (st : Transitions) :
  own k st = None -> ~ In k (map fst st).
Proof.
  induction st as [|[k' ts'] st IH]; [intros _ []|].
  simpl. destruct (str_eqb k k') eqn:E; [discriminate|].
  intros H [Hk|Hin]; [|now apply IH].
  apply str_eqb_neq in E. congruence.
Qed.

Lemma add_index_key_In (n : N) (k : jsstring) (st : Transitions)
    (e : jsstring * list Transition) :
  In e (add_index_key n k st) <-> e = (k, []) \/ In e st.
Proof.
  induction st as [|[k' ts] st IH]; simpl.
  - intuition congruence.
  - destruct (array_index k') as [m|]; [destruct (m <? n)%N|]; simpl;
      rewrite ?IH; intuition congruence.
Qed.

Lemma add_key_In (k : jsstring) (st : Transitions) (e : jsstring * list Transition) :
  In e (add_key k st) <-> e = (k, []) \/ In e st.
Proof.
  unfold add_key. destruct (array_index k).
  - apply add_index_key_In.
  - rewrite in_app_iff. simpl. intuition congruence.
Qed.

Lemma add_index_key_NoDup (n : N) (k : jsstring) (st : Transitions) :
  NoDup (map fst st) -> ~ In k (map fst st) ->
  NoDup (map fst (add_index_key n k st)).
Proof.
  induction st as [|[k' ts] st IH]; simpl; intros Hnd Hk.
  - constructor; [intros []|constructor].
  - assert (Hnew : NoDup (k :: k' :: map fst st)) by (constructor; [exact Hk|exact Hnd]).
    destruct (array_index k') as [m|]; [destruct (m <? n)%N|]; simpl; try exact Hnew.
    inversion Hnd as [|? ? Hk' Hnd']; subst. constructor.
    + rewrite in_map_iff. intros ([k2 ts2] & Hfst & Hin). simpl in Hfst. subst k2.
      apply add_index_key_In in Hin. destruct Hin as [[= <-]|Hin].
      * apply Hk. now left.
      * apply Hk'. apply in_map_iff. now exists (k', ts2).
    + apply IH; [exact Hnd'|]. intros H. apply Hk. now right.
Qed.

Lemma snoc_NoDup {A} (l : list A) (a : A) :
  NoDup l -> ~ In a l -> NoDup (l ++ [a]).
Proof.
  induction l as [|b l IH]; simpl; intros Hnd Ha.
  - constructor; [intros []|constructor].
  - inversion Hnd as [|? ? Hb Hnd']; subst. constructor.
    + rewrite in_app_iff. simpl. intuition congruence.
    + apply IH; [exact Hnd'|]. intuition.
Qed.

Lemma add_key_NoDup (k : jsstring) (st : Transitions) :
  NoDup (map fst st) -> ~ In k (map fst st) -> NoDup (map fst (add_key k st)).
Proof.
  unfold add_key. destruct (array_index k).
  - apply add_index_key_NoDup.
  - rewrite map_app. apply snoc_NoDup.
Qed.

Lemma own_add_index_key (n : N) (k : jsstring) (st : Transitions) :
  own k st = None -> own k (add_index_key n k st) = Some [].
Proof.
  induction st as [|[k' ts] st IH]; simpl.
  - now rewrite str_eqb_refl.
  - destruct (str_eqb k k') eqn:E; [discriminate|]. intros H.
    destruct (array_index k') as [m|]; [destruct (m <? n)%N|]; simpl;
      rewrite ?str_eqb_refl, ?E; auto.
Qed.

Lemma own_snoc (k : jsstring) (st : Transitions) :
  own k st = None -> own k (st ++ [(k, [])]) = Some [].
Proof.
  induction st as [|[k' ts] st IH]; simpl.
  - now rewrite str_eqb_refl.
  - destruct (str_eqb k k'); [discriminate|auto].
Qed.

Lemma own_add_key (k : jsstring) (st : Transitions) :
  own k st = None -> own k (add_key k st) = Some [].
Proof.
  unfold add_key. destruct (array_index k).
  - apply own_add_index_key.
  - apply own_snoc.
Qed.

Lemma push_to_keys (k : jsstring) (t : Transition) (st : Transitions) :
  map fst (push_to k t st) = map fst st.
Proof.
  induction st as [|[k' ts] st IH]; [reflexivity|].
  simpl. destruct (str_eqb k k'); simpl; [reflexivity|now rewrite IH].
Qed.

Lemma push_to_Forall (P : jsstring * list Transition -> Prop)
    (k : jsstring) (t : Transition) (st : Transitions) :
  NoDup (map fst st) ->
  (forall e, In e st -> fst e <> k -> P e) ->
  (forall ts, own k st = Some ts -> P (k, ts ++ [t])) ->
  Forall P (push_to k t st).
Proof.
  induction st as [|[k' ts] st IH]; simpl; intros Hnd Hother Hown.
  - constructor.
  - inversion Hnd as [|? ? Hk' Hnd']; subst.
    destruct (str_eqb k k') eqn:E.
    + apply str_eqb_eq in E. subst k'. constructor.
      * apply Hown. reflexivity.
      * apply Forall_forall. intros e He. apply Hother; [now right|].
        intros Hfst. apply Hk'. rewrite <- Hfst. now apply in_map.
    + constructor.
      * apply Hother; [now left|]. simpl. apply str_eqb_neq in E. congruence.
      * apply IH; [exact Hnd'| |exact Hown]. intros e He. apply Hother. now right.
Qed.

Lemma existsb_false_Forall {A} (f : A -> bool) (l : list A) :
  existsb f l = false -> Forall (fun x => f x = false) l.
Proof.
  induction l as [|a l IH]; simpl; [constructor|].
  intros H. apply orb_false_iff in H. destruct H. constructor; auto.
Qed.

Lemma no_repeat_snoc (ts : list Transition) (t : Transition) :
  no_repeat ts -> Forall (fun t' => same_transition t' t = false) ts ->
  no_repeat (ts ++ [t]).
Proof.
  induction ts as [|a ts IH]; simpl.
  - intros _ _. split; constructor.
  - intros [Ha Hts] Hall. inversion Hall; subst. split.
    + apply Forall_app. split; [exact Ha|]. constructor; [assumption|constructor].
    + apply IH; assumption.
Qed.

Lemma add_source_well_formed (t : Transition) (st st' : Transitions)
    (sourceState : JSval) :
  well_formed_matrix st -> add_source t st sourceState = Normal st' ->
  well_formed_matrix st'.
Proof.
  intros [Hnd Hall] H. unfold add_source in H.
  destruct (to_string sourceState) as [key|]; [|discriminate]. cbn [cbind] in H.
  destruct (own key st) as [existing|] eqn:Ho.
  - match type of H with (if ?b then _ else _) = _ => destruct b eqn:He end;
      injection H as <-; [split; assumption|].
    split; [now rewrite push_to_keys|].
    apply push_to_Forall; [exact Hnd| |].
    + intros e He' _. rewrite Forall_forall in Hall. now apply Hall.
    + intros ts Hts. rewrite Ho in Hts. injection Hts as <-. simpl. split.
      * destruct existing; discriminate.
      * apply no_repeat_snoc.
        -- apply own_In in Ho. rewrite Forall_forall in Hall.
           exact (proj2 (Hall _ Ho)).
        -- apply existsb_false_Forall in He. exact He.
  - destruct (existsb (str_eqb key) object_prototype_keys); [discriminate|].
    injection H as <-.
    pose proof (add_key_NoDup key st Hnd (own_None key st Ho)) as Hnd'.
    split; [now rewrite push_to_keys|].
    apply push_to_Forall; [exact Hnd'| |].
    + intros e He Hne. apply add_key_In in He. destruct He as [->|He].
      * now elim Hne.
      * rewrite Forall_forall in Hall. now apply Hall.
    + intros ts Hts. rewrite (own_add_key key st Ho) in Hts. injection Hts as <-.
      simpl. split; [discriminate|]. split; constructor.
Qed.

Lemma fold_completion_invariant {A S} (I : S -> Prop) (f : S -> A -> Completion S)
    (l : list A) :
  (forall s x s', I s -> f s x = Normal s' -> I s') ->
  forall s s', I s -> fold_completion f l s = Normal s' -> I s'.
Proof.
  intros Hf. induction l as [|x l IH]; simpl; intros s s' Hs H.
  - now injection H as <-.
  - destruct (f s x) as [s1|] eqn:E; [|discriminate]. simpl in H. eauto.
Qed.

Lemma for_each_of_invariant {S} (I : S -> Prop) (callee : string) (v : JSval)
    (f : S -> nat * JSval -> Completion S) :
  (forall s x s', I s -> f s x = Normal s' -> I s') ->
  forall s s', I s -> for_each_of callee v f s = Normal s' -> I s'.
Proof.
  intros Hf s s' Hs H. destruct v; try discriminate.
  simpl in H. eapply fold_completion_invariant; eauto.
Qed.

Ltac step_cbind H :=
  repeat match type of H with
         | cbind ?c _ = Normal _ =>
             let v := fresh "v" in
             destruct c as [v|]; cbn [cbind] in H; [|discriminate H]
         end.

Lemma add_action_well_formed (i : nat) (st st' : Transitions) (ja : nat * JSval) :
  well_formed_matrix st -> add_action i st ja = Normal st' -> well_formed_matrix st'.
Proof.
  intros Hst H. destruct ja as [j act]. unfold add_action in H.
  step_cbind H.
  match type of H with (if ?b then _ else _) = _ => destruct b end;
    [|now injection H as <-].
  step_cbind H. cbv zeta in H.
  eapply for_each_of_invariant; [|exact Hst|exact H].
  intros s x s' Hs Hx. cbv beta in Hx. eapply add_source_well_formed; eauto.
Qed.

Lemma add_work_item_well_formed (st st' : Transitions) (iw : nat * JSval) :
  well_formed_matrix st -> add_work_item st iw = Normal st' -> well_formed_matrix st'.
Proof.
  intros Hst H. destruct iw as [i workItem]. unfold add_work_item in H.
  step_cbind H.
  destruct v; try (now injection H as <-).
  eapply for_each_of_invariant; [|exact Hst|exact H].
  intros s x s' Hs Hx. eapply add_action_well_formed; eauto.
Qed.

(** X22. The [stateTransitions] object that [get_available_states] builds
    from the parsed answer lists every source state once, each with at
    least one transition, and under one state no transition that passes
    the [find] test ([===] on action and target) against one listed
    before it. *)
Theorem matrix_well_formed (data : JSval) (stateTransitions : Transitions) :
  for_each_of "data.forEach" data add_work_item [] = Normal stateTransitions ->
  well_formed_matrix stateTransitions.
Proof.
  apply for_each_of_invariant.
  - intros s x s'. apply add_work_item_well_formed.
  - split; constructor.
Qed.

End Server.

(** * The handlers and the properties on the sample worlds *)

(** Two project rows render as the specification's example has it. *)
Example projects_rendered :
  fst (get_available_projects plan_url team token node_message (js "tracker")
         (signed_in
            [answer 200 [] (VObj [prop "result_set_id" (str "rs-1")]);
             answer 200 []
               (VObj [prop "rows"
                        (VArr [VObj [prop "displayName" (str "Alpha")];
                               VObj [prop "displayName" (str "Beta")]])])]))
  = Normal (text_result (js "Projects retrieved: ["
                         ++ quote (js "Alpha") ++ [comma] ++ quote (js "Beta")
                         ++ js "]")).
Proof. reflexivity. Qed.

(** A page answer that is an object without [rows] and without [length]
    makes [get_available_components] return nothing at all. *)
Example components_fall_through :
  fst (get_available_components plan_url team token (js "tracker") (js "P1")
         (signed_in
            [answer 200 [] (VObj [prop "result_set_id" (str "rs-1")]);
             answer 200 [] (VObj [])]))
  = Normal RUndefined.
Proof. reflexivity. Qed.

(** A row that is [null] is a [TypeError], worded by the engine. *)
Example null_row_error :
  fst (get_available_projects plan_url team token node_message (js "tracker")
         (signed_in
            [answer 200 [] (VObj [prop "result_set_id" (str "rs-1")]);
             answer 200 [] (VObj [prop "rows" (VArr [VNull])])]))
  = Normal (text_result
              (js "Error retrieving projects: Cannot read properties of null (reading 'displayName')")).
Proof. reflexivity. Qed.

(** Updating release 77 with the two sprints: one Edit carrying the
    minimal field, then the Commit carrying the full descriptor. *)
Example release_update_payloads :
  map (fun ev => match ev with
                 | Http r => body r
                 | Sleep _ => None
                 end)
    (trace (snd (create_or_update_release plan_url team token node_message
                   (js "tracker") (Some (js "77")) [sprints_field]
                   (signed_in [answer 200 [] (VObj []); answer 200 [] (VObj [])]))))
  = [JSON_stringify (VObj [prop "fields" (VArr [release_edit_field sprints_field])]);
     JSON_stringify (VObj [prop "dbId" (str "77");
                           prop "fields" (VArr [release_commit_field sprints_field])])].
Proof. reflexivity. Qed.

(** The first state change of a process: cookie call, GET, action PATCH,
    pause, Commit PATCH. *)
Example first_state_change_trace :
  map (fun ev => match ev with
                 | Http r => Some (method r)
                 | Sleep _ => None
                 end)
    (trace (snd (change_work_item_state plan_url team token node_message
                   (js "42") (js "tracker") (js "Resolve")
                   (started (cookie_answer :: state_change_script)))))
  = [Some GET; Some GET; Some PATCH; None; Some PATCH].
Proof. reflexivity. Qed.

(** C1: the claim fails in four places. A field that [update_work_item]
    sets to the empty string gets [valueAsList = []], not [[""]]; two
    different REFERENCE_LIST inputs of a release get the same descriptor,
    so neither reads back from it; a DATE_TIME field of a release keeps
    the bare date and [maxLength] 254; and a field [update_work_item] is
    given without a type gets [maxLength] 0. *)
Lemma table_not_met :
  ~ matches_table (field_type cleared_field) (field_value cleared_field)
      (work_item_commit_field cleared_field)
  /\ (release_commit_field sprints_field = release_commit_field sprints_tight
      /\ field_value sprints_field <> field_value sprints_tight
      /\ recover (field_type sprints_field) (release_commit_field sprints_field)
         <> Some (field_value sprints_field))
  /\ ~ matches_table (field_type due_field) (field_value due_field)
        (release_commit_field due_field)
  /\ ~ matches_table (field_type name_field) (field_value name_field)
        (work_item_commit_field name_field).
Proof.
  split; [|split; [split; [|split]|split]].
  - intros (_ & H & _). vm_compute in H. discriminate H.
  - reflexivity.
  - discriminate.
  - vm_compute. discriminate.
  - intros (H & _). vm_compute in H. discriminate H.
  - intros (_ & _ & H). vm_compute in H. discriminate H.
Qed.

Lemma encoding_table_cases_witness :
  matches_table (field_type sprints_field) (field_value sprints_field)
    (release_commit_field sprints_field)
  /\ recover (field_type name_field) (release_commit_field name_field)
     = Some (field_value name_field)
  /\ matches_table (field_type title_field) (field_value title_field)
       (work_item_commit_field title_field).
Proof.
  destruct encoding_table_cases as (_ & _ & Hrel & Hrec & _ & Hitem).
  split; [|split].
  - apply Hrel. reflexivity.
  - apply Hrec; reflexivity.
  - apply Hitem; [left; reflexivity|discriminate].
Defined.

(** C2: the claim fails for the [StartDate] descriptor of a sprint, which
    is MANDATORY without being [Name]. *)
Lemma sprint_start_date_mandatory :
  ~ mandatory_only_for_name (sprint_date_field "StartDate" (js "2025-01-06")).
Proof.
  intros [_ H]. destruct H as [H _]; [discriminate|]. discriminate H.
Qed.

Lemma requiredness_by_entity_witness :
  mandatory_only_for_name (release_commit_field name_field)
  /\ mandatory_only_for_name (release_commit_field sprints_field).
Proof.
  destruct requiredness_by_entity as [H _]. split; apply H.
Defined.

(** C3: the claim fails when the server cannot be reached, where the
    handler returns an object with [error] and no content. *)
Lemma unreachable_server_no_content :
  ~ always_single_text plan_url team token node_message
      (Get_available_projects (js "tracker")) offline.
Proof.
  intros (r & w' & E & t & Ht). vm_compute in E.
  inversion E as [[Hr Hw]]. rewrite <- Hr in Ht. discriminate Ht.
Qed.

Lemma tool_boundary_witness :
  exists r w',
    handler plan_url team token node_message (Get_applications) (signed_in []) = (Normal r, w') /\ single_text r.
Proof.
  destruct (tool_boundary plan_url team token node_message
              Get_applications (signed_in [])) as (r & w' & E & _ & Ht).
  exists r, w'. split; [exact E|].
  apply Ht; [reflexivity|discriminate].
Defined.

(** C4: the claim fails for the first state change of a process, which
    makes four HTTP calls. *)
Lemma first_state_change_four_calls :
  ~ exactly_three_calls plan_url team token node_message
      (js "42") (js "tracker") (js "Resolve")
      (started (cookie_answer :: state_change_script)).
Proof.
  intros H. assert (E := H eq_refl). vm_compute in E. discriminate E.
Qed.

Lemma state_change_calls_witness :
  List.length
    (http_calls
       (issued (signed_in state_change_script)
          (snd (handler plan_url team token node_message (Change_work_item_state (js "42") (js "tracker") (js "Resolve"))
                  (signed_in state_change_script)))))
  = 3%nat.
Proof.
  apply (state_change_calls plan_url team token node_message
           (js "42") (js "tracker") (js "Resolve") (signed_in state_change_script));
    reflexivity.
Defined.

Lemma session_idempotent_witness :
  let w := started [cookie_answer; answer 200 [] (VArr []); answer 204 [] VNull] in
  let w1 := snd (handler plan_url team token node_message Get_applications w) in
  let w2 := snd (handler plan_url team token node_message
                   (Delete_work_item (js "42") (js "tracker")) w1) in
  bootstrap_calls plan_url (issued w w2) = 1%nat
  /\ globalCookies w1 = Some session_cookie
  /\ globalCookies w2 = Some session_cookie
  /\ Forall (carries plan_url session_cookie) (issued w1 w2).
Proof.
  apply (session_idempotent plan_url team token node_message
           Get_applications (Delete_work_item (js "42") (js "tracker"))
           (started [cookie_answer; answer 200 [] (VArr []); answer 204 [] VNull])
           (mkResponse 200 (js "OK") (Some session_cookie) (Normal []) (Normal VNull))
           [answer 200 [] (VArr []); answer 204 [] VNull]
           session_cookie);
    try reflexivity.
  discriminate.
Defined.

(** C6: the claim fails for a sprint created without a name, and for a
    release created while the server cannot be reached: neither issues a
    POST. *)
Lemma nameless_sprint_posts_nothing :
  ~ always_one_post plan_url team token node_message
      (Create_or_update_sprint (js "tracker") None None (Some (js "2025-01-06")) None)
      (signed_in [])
  /\ ~ always_one_post plan_url team token node_message
        (Create_or_update_release (js "tracker") None [name_field])
        offline.
Proof. split; intros H; vm_compute in H; discriminate H. Qed.

Lemma create_post_first_witness :
  posts
    (issued (signed_in [])
       (snd (create_or_update_sprint plan_url team token node_message
               (js "tracker") None (Some (js "Sprint 1")) None None (signed_in []))))
  = 1%nat.
Proof.
  destruct (create_post_first plan_url team token node_message) as (Hsprint & _ & _).
  destruct (Hsprint (js "tracker") None (Some (js "Sprint 1")) None None
              (signed_in []) eq_refl) as (Hfirst & _).
  destruct (Hfirst eq_refl eq_refl) as (tail & _ & _ & Hposts).
  exact Hposts.
Defined.

Lemma components_empty_rows_witness :
  fst (get_available_components plan_url team token
         (js "tracker") (js "P1") (signed_in no_components_script))
  = Normal (text_result (js "Components retrieved: []")).
Proof.
  eapply (components_empty_rows plan_url team token
            (js "tracker") (js "P1") (signed_in no_components_script));
    reflexivity.
Defined.

Lemma invalid_transition_message_witness :
  let shown :=
    transition_error_text (js "42") (js "Resolve")
      (js "Commit request failed with status 422: No such action") in
  fst (change_work_item_state plan_url team token node_message
         (js "42") (js "tracker") (js "Resolve") (signed_in rejected_script))
  = Normal (text_result shown)
  /\ includes (js "42") shown = true
  /\ includes (js "Resolve") shown = true.
Proof.
  apply (invalid_transition_message plan_url team token node_message
           (js "42") (js "tracker") (js "Resolve") (signed_in rejected_script)
           422 (js "No such action") (js "Commit request failed with status ")).
  - reflexivity.
  - right. reflexivity.
  - eapply rejected_at_commit; reflexivity.
Defined.

Lemma reference_list_descriptor_witness :
  member "valueAsList" (release_commit_field sprints_field)
  = VArr [str "Sprint1"; str "Sprint2"]
  /\ member "value" (release_commit_field sprints_field)
     = VStr (js "Sprint1" ++ [newline] ++ js "Sprint2").
Proof.
  apply (reference_list_descriptor (js "Sprints") (js "Sprint1, Sprint2")).
  reflexivity.
Defined.

(** C10: the claim fails when the session cannot be acquired, where the
    handler returns the error object and not the masking text. *)
Lemma session_failure_not_masked :
  ~ every_failure_masked plan_url team token (js "tracker") (js "P1") offline.
Proof.
  intros H. assert (E : session_ok plan_url offline = false) by reflexivity.
  specialize (H (or_introl E)). vm_compute in H. discriminate H.
Qed.

Lemma components_failure_masked_witness :
  fst (get_available_components plan_url team token
         (js "tracker") (js "P1") (signed_in []))
  = Normal (text_result quoted_empty_list).
Proof.
  apply (components_failure_masked plan_url team token
           (js "tracker") (js "P1") (signed_in [])).
  - reflexivity.
  - apply query_unanswered. reflexivity.
Defined.

(** * Start-up configuration *)

Lemma scan_command_line (pairs : list (jsstring * jsstring)) (config : Startup.Parsed) :
  Startup.scan (Startup.command_line pairs) config
  = fold_left (fun c p => Startup.assign (fst p) (Some (snd p)) c) pairs config.
Proof.
  revert config. induction pairs as [|p ps IH]; intros config; [reflexivity|].
  simpl. apply IH.
Qed.

Lemma scan_dangling (pairs : list (jsstring * jsstring)) (flag : jsstring)
    (config : Startup.Parsed) :
  Startup.scan (Startup.command_line pairs ++ [flag]) config
  = Startup.assign flag None
      (fold_left (fun c p => Startup.assign (fst p) (Some (snd p)) c) pairs config).
Proof.
  revert config. induction pairs as [|p ps IH]; intros config; [reflexivity|].
  simpl. apply IH.
Qed.

(** What [assign] does to the property a flag stands for. *)
Lemma parsed_assign (flag key : jsstring) (value : option jsstring)
    (config : Startup.Parsed) :
  In flag Startup.flags ->
  Startup.parsed flag (Startup.assign key value config)
  = if str_eqb key flag then value else Startup.parsed flag config.
Proof.
  intros Hflag. unfold Startup.assign.
  destruct (str_eqb key (js "--token")) eqn:E1;
    [apply str_eqb_eq in E1; subst key|];
    [|destruct (str_eqb key (js "--server-url")) eqn:E2;
      [apply str_eqb_eq in E2; subst key|];
      [|destruct (str_eqb key (js "--teamspace-id")) eqn:E3;
        [apply str_eqb_eq in E3; subst key|]]];
    destruct Hflag as [<-|[<-|[<-|[]]]]; try reflexivity;
    rewrite ?E1, ?E2, ?E3; reflexivity.
Qed.

Lemma parsed_fold_other (flag : jsstring) (pairs : list (jsstring * jsstring))
    (config : Startup.Parsed) :
  In flag Startup.flags ->
  (forall p, In p pairs -> fst p <> flag) ->
  Startup.parsed flag
    (fold_left (fun c p => Startup.assign (fst p) (Some (snd p)) c) pairs config)
  = Startup.parsed flag config.
Proof.
  intros Hflag. revert config.
  induction pairs as [|p ps IH]; intros config Hno; [reflexivity|].
  simpl. rewrite IH by (intros q Hq; apply Hno; now right).
  rewrite parsed_assign by exact Hflag.
  assert (Hp : fst p <> flag) by (apply Hno; now left).
  apply str_eqb_neq in Hp. now rewrite Hp.
Qed.

(** What [getConfig] returns is what the [||] chose, flag by flag. *)
Lemma getConfig_chosen (args : list jsstring) (env : Startup.Env)
    (cfg : Startup.Config) (flag : jsstring) :
  In flag Startup.flags ->
  Startup.getConfig args env = Normal cfg ->
  Startup.or_else
    (Startup.parsed flag (Startup.scan args (Startup.mkParsed None None None)))
    (Startup.variable flag env)
  = Some (Startup.setting flag cfg)
  /\ Startup.setting flag cfg <> [].
Proof.
  intros Hflag. unfold Startup.getConfig. cbv zeta.
  set (config := Startup.scan args _).
  destruct (Startup.or_else (Startup.token config) _) as [[|a t]|] eqn:Et;
    try discriminate.
  destruct (Startup.or_else (Startup.serverUrl config) _) as [[|b u]|] eqn:Eu;
    try discriminate.
  destruct (Startup.or_else (Startup.teamspaceId config) _) as [[|c i]|] eqn:Ei;
    try discriminate.
  intros H. injection H as <-.
  destruct Hflag as [<-|[<-|[<-|[]]]]; (split; [assumption|discriminate]).
Qed.

(** X1. Whatever [getConfig] returns has a non-empty token, server URL
    and teamspace id: an empty string counts as missing, on the command
    line as in the environment. *)
Theorem getConfig_nothing_empty (args : list jsstring) (env : Startup.Env)
    (cfg : Startup.Config) :
  Startup.getConfig args env = Normal cfg ->
  Startup.personal_access_token_string cfg <> []
  /\ Startup.serverURL cfg <> []
  /\ Startup.teamspaceID cfg <> [].
Proof.
  intros H.
  pose proof (getConfig_chosen args env cfg (js "--token")
                (or_introl eq_refl) H) as [_ Ht].
  pose proof (getConfig_chosen args env cfg (js "--server-url")
                (or_intror (or_introl eq_refl)) H) as [_ Hu].
  pose proof (getConfig_chosen args env cfg (js "--teamspace-id")
                (or_intror (or_intror (or_introl eq_refl))) H) as [_ Hi].
  auto.
Qed.


(** X3. When the command line leaves a flag unset (not given, given the
    empty string, or given last with no value, which also discards any
    value given for it earlier), the setting [getConfig] returns is the
    one of the environment variable. *)
Theorem environment_stands_in (flag : jsstring) (args : list jsstring)
    (env : Startup.Env) (cfg : Startup.Config) :
  In flag Startup.flags ->
  Startup.unset flag args ->
  Startup.getConfig args env = Normal cfg ->
  Startup.variable flag env = Some (Startup.setting flag cfg).
Proof.
  intros Hflag Hunset H.
  destruct (getConfig_chosen _ _ _ flag Hflag H) as [Hc _].
  assert (Hf : Startup.falsy
                 (Startup.parsed flag
                    (Startup.scan args (Startup.mkParsed None None None)))
               = true).
  { destruct Hunset as [pairs Hno|before after Hno|pairs].
    - rewrite scan_command_line, parsed_fold_other by assumption.
      destruct Hflag as [<-|[<-|[<-|[]]]]; reflexivity.
    - rewrite scan_command_line, fold_left_app. simpl.
      rewrite parsed_fold_other, parsed_assign by assumption.
      now rewrite str_eqb_refl.
    - rewrite scan_dangling, parsed_assign by assumption.
      now rewrite str_eqb_refl. }
  unfold Startup.or_else in Hc. now rewrite Hf in Hc.
Qed.

Lemma getConfig_nothing_empty_witness :
  Startup.personal_access_token_string
    (Startup.mkConfig token plan_url team) <> []
  /\ Startup.serverURL (Startup.mkConfig token plan_url team) <> []
  /\ Startup.teamspaceID (Startup.mkConfig token plan_url team) <> [].
Proof.
  apply (getConfig_nothing_empty
           [js "--server-url"; plan_url]
           (Startup.mkEnv (Some token) None (Some team))).
  reflexivity.
Defined.


Lemma environment_stands_in_witness :
  Startup.variable (js "--token")
    (Startup.mkEnv (Some token) (Some plan_url) (Some team))
  = Some (Startup.setting (js "--token") (Startup.mkConfig token plan_url team)).
Proof.
  apply (environment_stands_in (js "--token")
           (Startup.command_line [(js "--token", js "old")] ++ [js "--token"])).
  - left. reflexivity.
  - apply Startup.left_dangling.
  - reflexivity.
Defined.

(** * The further properties on the sample worlds *)

Lemma no_session_no_request_witness :
  handler plan_url team token node_message Get_applications offline
  = (Normal (RError (js "Failed to retrieve cookies.")),
     mkWorld None (trace offline ++ [bootstrap plan_url]) (tl (network offline)))
  /\ bootstrap plan_url
     = Http (mkRequest GET (cookie_url plan_url) [] (Some (js "include")) None).
Proof.
  apply (no_session_no_request plan_url team token node_message
           Get_applications offline).
  reflexivity.
Defined.

Lemma failed_session_retried_witness :
  let w1 := snd (handler plan_url team token node_message Get_applications offline) in
  exists tail,
    issued w1 (snd (handler plan_url team token node_message
                      (Delete_work_item (js "42") (js "tracker")) w1))
    = bootstrap plan_url :: tail.
Proof.
  apply (failed_session_retried plan_url team token node_message
           Get_applications (Delete_work_item (js "42") (js "tracker")) offline).
  reflexivity.
Defined.

Lemma update_work_item_protocol_witness :
  let w := signed_in state_change_script in
  let w1 := session_world plan_url w in
  let result := update_work_item plan_url team token node_message
                  (js "42") (js "tracker") [title_field] w in
  exists n,
    (1 <= n <= 3)%nat
    /\ issued w1 (snd result)
       = firstn n [modify_event plan_url team token (globalCookies w1)
                     (js "42") (js "tracker");
                   item_edit_event plan_url team token (globalCookies w1)
                     (js "42") (js "tracker") [title_field];
                   item_commit_event plan_url team token (globalCookies w1)
                     (js "42") (js "tracker") [title_field]]
    /\ (fst result = Normal (text_result (item_updated_text (js "42") [title_field]))
        -> n = 3%nat).
Proof.
  apply (update_work_item_protocol plan_url team token node_message
           (js "42") (js "tracker") [title_field] (signed_in state_change_script)).
  reflexivity.
Defined.

Lemma delete_work_item_outcome_witness :
  let w := signed_in [answer 404 (js "No such record") VNull] in
  issued w (snd (delete_work_item plan_url team token node_message
                   (js "42") (js "tracker") w))
  = [delete_event plan_url team token (Some session_cookie) (js "42") (js "tracker")]
  /\ fst (delete_work_item plan_url team token node_message (js "42") (js "tracker") w)
     = Normal (text_result (js "Error deleting work item: Failed to delete work item")).
Proof.
  apply (delete_work_item_outcome plan_url team token node_message
           (js "42") (js "tracker")
           (signed_in [answer 404 (js "No such record") VNull])).
  reflexivity.
Defined.

Lemma create_work_item_outcome_witness :
  fst (create_work_item plan_url team token node_message None
         (js "Fix login") (js "Users cannot log in") (js "Task")
         (js "tracker") (js "P1")
         (signed_in [answer 500 [] (VObj created_item)]))
  = Normal (text_result
              (js "Work item created successfully. dbId: " ++ js "42"
               ++ js ". View it at: " ++ plan_url ++ js "/#" ++ js "records/42")).
Proof.
  destruct (create_work_item_outcome plan_url team token node_message None
              (js "Fix login") (js "Users cannot log in") (js "Task")
              (js "tracker") (js "P1")
              (signed_in [answer 500 [] (VObj created_item)])
              (mkResponse 500 [] None (Normal []) (Normal (VObj created_item)))
              [] created_item eq_refl eq_refl eq_refl) as (_ & _ & Hshown).
  apply Hshown; [reflexivity|discriminate|reflexivity].
Defined.

Lemma state_change_in_order_witness :
  let w := signed_in rejected_script in
  let cookie := Some session_cookie in
  exists n movedId,
    (1 <= n <= 4)%nat
    /\ issued w (snd (change_work_item_state plan_url team token node_message
                        (js "42") (js "tracker") (js "Resolve") w))
       = firstn n
           [Http (current_item_request plan_url team token cookie
                    (js "42") (js "tracker"));
            Http (movement_request plan_url team token cookie
                    (js "42") (js "tracker") (js "Resolve"));
            Sleep 1000;
            Http (state_commit_request plan_url team token cookie
                    (js "42") (js "tracker") movedId)].
Proof.
  apply (state_change_in_order plan_url team token node_message
           (js "42") (js "tracker") (js "Resolve") (signed_in rejected_script)).
  reflexivity.
Defined.

Lemma state_change_get_rejected_witness :
  let w := signed_in [answer 422 (js "No such record") VNull] in
  let result := change_work_item_state plan_url team token node_message
                  (js "42") (js "tracker") (js "Resolve") w in
  fst result
  = Normal (text_result
              (transition_error_text (js "42") (js "Resolve")
                 (js "Failed to get current work item data with status "
                  ++ N_to_dec 422 ++ js ": " ++ js "No such record")))
  /\ issued w (snd result)
     = [Http (current_item_request plan_url team token (Some session_cookie)
                (js "42") (js "tracker"))].
Proof.
  apply (state_change_get_rejected plan_url team token node_message
           (js "42") (js "tracker") (js "Resolve")
           (signed_in [answer 422 (js "No such record") VNull])
           (mkResponse 422 [] None (Normal (js "No such record")) (Normal VNull))
           [] 422 (js "No such record")).
  - reflexivity.
  - reflexivity.
  - reflexivity.
  - right. reflexivity.
  - reflexivity.
Defined.

Lemma sprint_update_in_place_witness :
  let w := signed_in [] in
  issued w (snd (create_or_update_sprint plan_url team token node_message
                   (js "tracker") (Some (js "7")) None None None w)) = []
  /\ fst (create_or_update_sprint plan_url team token node_message
            (js "tracker") (Some (js "7")) None None None w)
     = Normal (text_result nothing_to_update).
Proof.
  destruct (sprint_update_in_place plan_url team token node_message
              (js "tracker") (js "7") None None None (signed_in []))
    as (Hnone & _).
  - reflexivity.
  - discriminate.
  - apply Hnone. reflexivity.
Defined.

Lemma projects_listed_witness :
  fst (get_available_projects plan_url team token node_message (js "tracker")
         (signed_in projects_script))
  = Normal (text_result
              (js "Projects retrieved: "
               ++ show_json (JSON_stringify
                               (VArr (map (lookup (js "displayName")) project_rows))))).
Proof.
  eapply (projects_listed plan_url team token node_message (js "tracker")
            (signed_in projects_script)); reflexivity.
Defined.

Lemma workitem_types_listed_witness :
  fst (get_available_workitem_types plan_url team token node_message
         (js "tracker") (js "P1") (signed_in types_script))
  = Normal (text_result
              (js "Available work item types: "
               ++ show_json (JSON_stringify
                               (VArr [str "Task"; str "Defect"; str "Epic"])))).
Proof.
  eapply (workitem_types_listed plan_url team token node_message
            (js "tracker") (js "P1") (signed_in types_script)
            _ _ _ _ _ _ _ type_rows type_lists); try reflexivity.
  repeat constructor; eexists; split; reflexivity.
Defined.

Lemma release_update_protocol_witness :
  let w := signed_in [answer 200 [] (VObj []); answer 200 [] (VObj [])] in
  let result := create_or_update_release plan_url team token node_message
                  (js "tracker") (Some (js "77")) [sprints_field] w in
  exists n,
    (1 <= n <= 2)%nat
    /\ issued w (snd result)
       = firstn n [release_edit_event plan_url team token (Some session_cookie)
                     (js "tracker") (js "77") sprints_field;
                   release_commit_event plan_url team token (Some session_cookie)
                     (js "tracker") (js "77") [sprints_field]]
    /\ (forall t, fst result
                  = Normal (text_result (js "Release updated successfully: " ++ t))
                  -> n = 2%nat).
Proof.
  apply (release_update_protocol plan_url team token node_message
           (js "tracker") (js "77") [sprints_field]
           (signed_in [answer 200 [] (VObj []); answer 200 [] (VObj [])])).
  - reflexivity.
  - discriminate.
  - discriminate.
Defined.

Lemma owner_value_ignored_witness :
  work_items_query (js "P1") None (Some (js "alice"))
  = work_items_query (js "P1") None (Some (js "bob"))
  /\ get_work_items plan_url team token node_message (js "tracker") (js "P1") None
       (Some (js "alice")) (signed_in [])
     = get_work_items plan_url team token node_message (js "tracker") (js "P1") None
         (Some (js "bob")) (signed_in []).
Proof.
  apply (owner_value_ignored plan_url team token node_message
           (js "tracker") (js "P1") None (js "alice") (js "bob") (signed_in []));
    discriminate.
Defined.

Lemma applications_listed_witness :
  fst (get_applications plan_url team token node_message (signed_in applications_script))
  = Normal (text_result
              (js "Applications retrieved: "
               ++ show_json
                    (JSON_stringify
                       (VArr [VObj [prop "id" (str "1");
                                    prop "applicationName" (str "tracker")]])))).
Proof.
  destruct (applications_listed plan_url team token node_message
              (signed_in applications_script)
              (mkResponse 500 [] None (Normal [])
                 (Normal (VArr (map VObj application_rows))))
              [] (VArr (map VObj application_rows)) eq_refl eq_refl eq_refl)
    as (_ & Hlisted & _).
  apply (Hlisted application_rows). reflexivity.
Defined.

Lemma matrix_well_formed_witness :
  well_formed_matrix
    [(js "New", [mkTransition (str "Start") (str "Active") (0%nat, 0%nat)]);
     (js "Open", [mkTransition (str "Start") (str "Active") (0%nat, 1%nat)])].
Proof.
  apply (matrix_well_formed repeated_actions). reflexivity.
Defined.
